(** * UdpCommandSuite: envelope authentication, freshness filter, dispatch,
      host discovery and roster tracking.

    A shallow embedding of
    - [UdpCommandListener] (unity/Runtime, C#): [IsAuthorized], [IsStale],
      [RegisterCommandId], [PruneProcessedCommands], [ListenLoop],
      [DispatchCommand], [RegisterHandler];
    - [UdpClientReporter] (unity/Runtime, C#): [ComputeSignature],
      [ApplyHostAnnouncement], [TryResolveEndpoint], [SendCommand];
    - the dashboard renderer (host-tool/src/renderer/renderer.js):
      [upsertClient] and [renderDeviceGrid] with its liveness test.

    Conventions.  A C# or JavaScript string is its sequence of UTF-16 code
    units, each a [Z]; [None] stands for the C# [null].  A byte is a [Z] in
    [0, 256).  A [double] is the rational it stands for, and the rounding
    of an operation on [double]s is written out.  Clock readings are
    explicit arguments: every call of [DateTimeOffset.UtcNow] or
    [Date.now()] in the source is one argument of the embedded function. *)

From Stdlib Require Import ZArith QArith Lia List Ascii String DecimalString DecimalZ.
From Stdlib Require SpecFloat.
From stdpp Require Import gmap.
Import ListNotations.
Open Scope Z_scope.

(* ===================================================================== *)
(** * Strings, as the runtime has them *)
(* ===================================================================== *)

Module Text.

(** Code units, bytes and strings. *)
Abbreviation char := Z (only parsing).
Abbreviation byte := Z (only parsing).
Abbreviation str := (list Z) (only parsing).

(** A literal of the development, read as its code units (ASCII only). *)
Definition lit (s : string) : str :=
  map (fun a => Z.of_N (N_of_ascii a)) (list_ascii_of_string s).

(** [string.Empty] *)
Definition Empty : str := [].

(** [string.IsNullOrEmpty] *)
Definition IsNullOrEmpty (s : option str) : bool :=
  match s with
  | None => true
  | Some [] => true
  | Some (_ :: _) => false
  end.

(** [char.IsWhiteSpace]: the Unicode white-space code units. *)
Definition IsWhiteSpace (c : char) : bool :=
  ((0x09 <=? c) && (c <=? 0x0D)) || (c =? 0x20) || (c =? 0x85) || (c =? 0xA0)
  || (c =? 0x1680) || ((0x2000 <=? c) && (c <=? 0x200A))
  || (c =? 0x2028) || (c =? 0x2029) || (c =? 0x202F) || (c =? 0x205F)
  || (c =? 0x3000).

(** [string.IsNullOrWhiteSpace] *)
Definition IsNullOrWhiteSpace (s : option str) : bool :=
  match s with
  | None => true
  | Some cs => forallb IsWhiteSpace cs
  end.

(** [a ?? b] on strings *)
Definition coalesce (a : option str) (b : str) : str :=
  match a with Some s => s | None => b end.

(** A string placed in an interpolated string: [null] prints as nothing. *)
Definition interpolated (a : option str) : str := coalesce a Empty.

(** [long.ToString()]: decimal digits, a leading minus sign when negative. *)
Definition Int64_ToString (n : Z) : str :=
  lit (NilZero.string_of_int (Z.to_int n)).

(** Binary64, the format of [double] in C# and of every JavaScript number:
    a non-negative integer rounded to its 53 significant bits, to the
    nearest such number and, halfway between two, to the one with the even
    significand. *)
Definition round53 (x : Z) : Z :=
  let k := Z.log2 x - 52 in
  if k <=? 0 then x
  else
    let q := x / 2 ^ k in
    let r := x mod 2 ^ k in
    let half := 2 ^ (k - 1) in
    let q' :=
      if r <? half then q
      else if half <? r then q + 1
      else if Z.even q then q else q + 1 in
    q' * 2 ^ k.

(** The same for either sign. *)
Definition roundDouble (x : Z) : Z := if x <? 0 then - round53 (- x) else round53 x.

(** Ordinal equality of strings ([==], the default dictionary comparer). *)
Definition str_eqb (a b : str) : bool := bool_decide (a = b).

(** The table behind [char.ToUpperInvariant] is the runtime's, not the
    repository's: it is a parameter of every case-insensitive comparison. *)
Class CaseMap := { ToUpperInvariant : char -> char }.

(** The Basic Latin part of that table, on which all runtimes agree. *)
Definition asciiToUpper (c : char) : char :=
  if (0x61 <=? c) && (c <=? 0x7A) then c - 0x20 else c.

Definition AsciiCaseMap : CaseMap := {| ToUpperInvariant := asciiToUpper |}.

(** [StringComparer.OrdinalIgnoreCase.Equals] on non-null strings. *)
Definition OrdinalIgnoreCase_eqb `{CaseMap} (a b : str) : bool :=
  str_eqb (map ToUpperInvariant a) (map ToUpperInvariant b).

(** [string.Equals(a, b, StringComparison.OrdinalIgnoreCase)]: two nulls are
    equal, a null equals nothing else. *)
Definition Equals_OrdinalIgnoreCase `{CaseMap} (a b : option str) : bool :=
  match a, b with
  | None, None => true
  | Some x, Some y => OrdinalIgnoreCase_eqb x y
  | _, _ => false
  end.

(** [Encoding.UTF8.GetBytes]: code units below 0x80 take one byte, below
    0x800 two, a surrogate pair four, a lone surrogate becomes U+FFFD, and
    everything else three. *)
Definition isHighSurrogate (c : char) : bool := (0xD800 <=? c) && (c <=? 0xDBFF).
Definition isLowSurrogate (c : char) : bool := (0xDC00 <=? c) && (c <=? 0xDFFF).
Definition replacement : list byte := [0xEF; 0xBF; 0xBD].

Fixpoint UTF8_GetBytes (s : str) : list byte :=
  match s with
  | [] => []
  | c :: rest =>
    if c <? 0x80 then c :: UTF8_GetBytes rest
    else if c <? 0x800 then
      (0xC0 + c / 64) :: (0x80 + c mod 64) :: UTF8_GetBytes rest
    else if isHighSurrogate c then
      match rest with
      | d :: rest' =>
        if isLowSurrogate d then
          let cp := 0x10000 + (c - 0xD800) * 0x400 + (d - 0xDC00) in
          (0xF0 + cp / 262144) :: (0x80 + (cp / 4096) mod 64)
            :: (0x80 + (cp / 64) mod 64) :: (0x80 + cp mod 64)
            :: UTF8_GetBytes rest'
        else replacement ++ UTF8_GetBytes rest
      | [] => replacement
      end
    else if isLowSurrogate c then replacement ++ UTF8_GetBytes rest
    else (0xE0 + c / 4096) :: (0x80 + (c / 64) mod 64) :: (0x80 + c mod 64)
           :: UTF8_GetBytes rest
  end.

(** [Convert.ToBase64String] *)
Definition base64Digit (i : Z) : char :=
  if i <? 26 then 65 + i
  else if i <? 52 then 97 + (i - 26)
  else if i <? 62 then 48 + (i - 52)
  else if i =? 62 then 43 else 47.

Fixpoint ToBase64String (bs : list byte) : str :=
  match bs with
  | [] => []
  | [a] => [base64Digit (a / 4); base64Digit ((a mod 4) * 16); 61; 61]
  | [a; b] =>
    [base64Digit (a / 4); base64Digit ((a mod 4) * 16 + b / 16);
     base64Digit ((b mod 16) * 4); 61]
  | a :: b :: c :: rest =>
    base64Digit (a / 4) :: base64Digit ((a mod 4) * 16 + b / 16)
      :: base64Digit ((b mod 16) * 4 + c / 64) :: base64Digit (c mod 64)
      :: ToBase64String rest
  end.

End Text.

(* ===================================================================== *)
(** * HMAC-SHA256 ([System.Security.Cryptography.HMACSHA256]) *)
(* ===================================================================== *)

Module Crypto.
Import Text.

Abbreviation word := Z (only parsing).
Definition wrap32 (x : Z) : word := x mod 4294967296.
Definition plus32 (x y : word) : word := wrap32 (x + y).
Definition rotr32 (n : Z) (x : word) : word :=
  Z.lor (Z.shiftr x n) (wrap32 (Z.shiftl x (32 - n))).
Definition not32 (x : word) : word := Z.lxor x 4294967295.

Definition choose (e f g : word) : word :=
  Z.lxor (Z.land e f) (Z.land (not32 e) g).
Definition majority (a b c : word) : word :=
  Z.lxor (Z.lxor (Z.land a b) (Z.land a c)) (Z.land b c).
Definition bigSigma0 (a : word) : word :=
  Z.lxor (Z.lxor (rotr32 2 a) (rotr32 13 a)) (rotr32 22 a).
Definition bigSigma1 (e : word) : word :=
  Z.lxor (Z.lxor (rotr32 6 e) (rotr32 11 e)) (rotr32 25 e).
Definition smallSigma0 (x : word) : word :=
  Z.lxor (Z.lxor (rotr32 7 x) (rotr32 18 x)) (Z.shiftr x 3).
Definition smallSigma1 (x : word) : word :=
  Z.lxor (Z.lxor (rotr32 17 x) (rotr32 19 x)) (Z.shiftr x 10).

Definition roundConstants : list word :=
  [ 0x428A2F98; 0x71374491; 0xB5C0FBCF; 0xE9B5DBA5;
    0x3956C25B; 0x59F111F1; 0x923F82A4; 0xAB1C5ED5;
    0xD807AA98; 0x12835B01; 0x243185BE; 0x550C7DC3;
    0x72BE5D74; 0x80DEB1FE; 0x9BDC06A7; 0xC19BF174;
    0xE49B69C1; 0xEFBE4786; 0x0FC19DC6; 0x240CA1CC;
    0x2DE92C6F; 0x4A7484AA; 0x5CB0A9DC; 0x76F988DA;
    0x983E5152; 0xA831C66D; 0xB00327C8; 0xBF597FC7;
    0xC6E00BF3; 0xD5A79147; 0x06CA6351; 0x14292967;
    0x27B70A85; 0x2E1B2138; 0x4D2C6DFC; 0x53380D13;
    0x650A7354; 0x766A0ABB; 0x81C2C92E; 0x92722C85;
    0xA2BFE8A1; 0xA81A664B; 0xC24B8B70; 0xC76C51A3;
    0xD192E819; 0xD6990624; 0xF40E3585; 0x106AA070;
    0x19A4C116; 0x1E376C08; 0x2748774C; 0x34B0BCB5;
    0x391C0CB3; 0x4ED8AA4A; 0x5B9CCA4F; 0x682E6FF3;
    0x748F82EE; 0x78A5636F; 0x84C87814; 0x8CC70208;
    0x90BEFFFA; 0xA4506CEB; 0xBEF9A3F7; 0xC67178F2 ].

(** The eight chaining words. *)
Record chain := Chain {
  wa : word; wb : word; wc : word; wd : word;
  we : word; wf : word; wg : word; wh : word
}.

Definition initialChain : chain :=
  Chain 0x6A09E667 0xBB67AE85 0x3C6EF372 0xA54FF53A
        0x510E527F 0x9B05688C 0x1F83D9AB 0x5BE0CD19.

(** Message schedule: [window] holds the sixteen latest words, oldest
    first; each step appends the next one. *)
Fixpoint expandSchedule (n : nat) (window : list word) : list word :=
  match n, window with
  | S n', oldest :: later =>
    let next :=
      plus32 (plus32 (plus32 (smallSigma1 (nth 13 later 0)) (nth 8 later 0))
                     (smallSigma0 (nth 0 later 0))) oldest in
    next :: expandSchedule n' (later ++ [next])
  | _, _ => []
  end.

Definition schedule (block : list word) : list word :=
  block ++ expandSchedule 48 block.

Definition round (s : chain) (kw : word * word) : chain :=
  let t1 := plus32 (plus32 (plus32 (plus32 (wh s) (bigSigma1 (we s)))
                                   (choose (we s) (wf s) (wg s))) (fst kw)) (snd kw) in
  let t2 := plus32 (bigSigma0 (wa s)) (majority (wa s) (wb s) (wc s)) in
  Chain (plus32 t1 t2) (wa s) (wb s) (wc s) (plus32 (wd s) t1) (we s) (wf s) (wg s).

Definition compress (s : chain) (block : list word) : chain :=
  let r := fold_left round (combine roundConstants (schedule block)) s in
  Chain (plus32 (wa s) (wa r)) (plus32 (wb s) (wb r))
        (plus32 (wc s) (wc r)) (plus32 (wd s) (wd r))
        (plus32 (we s) (we r)) (plus32 (wf s) (wf r))
        (plus32 (wg s) (wg r)) (plus32 (wh s) (wh r)).

(** Big-endian packing of bytes into 32-bit words and back. *)
Fixpoint wordsOfBytes (bs : list byte) : list word :=
  match bs with
  | b0 :: b1 :: b2 :: b3 :: rest =>
    (((b0 * 256 + b1) * 256 + b2) * 256 + b3) :: wordsOfBytes rest
  | _ => []
  end.

Definition bytesOfWord (w : word) : list byte :=
  [w / 16777216; (w / 65536) mod 256; (w / 256) mod 256; w mod 256].

Definition bytesOfLength (bits : Z) : list byte :=
  bytesOfWord ((bits / 4294967296) mod 4294967296) ++ bytesOfWord (bits mod 4294967296).

(** Padding to a whole number of 64-byte blocks. *)
Definition pad (msg : list byte) : list byte :=
  let len := Z.of_nat (length msg) in
  msg ++ [0x80] ++ repeat 0 (Z.to_nat ((55 - len) mod 64)) ++ bytesOfLength (8 * len).

Fixpoint absorb (blocks : nat) (ws : list word) (s : chain) : chain :=
  match blocks with
  | O => s
  | S n => absorb n (skipn 16 ws) (compress s (firstn 16 ws))
  end.

Definition digestBytes (s : chain) : list byte :=
  bytesOfWord (wa s) ++ bytesOfWord (wb s) ++ bytesOfWord (wc s) ++ bytesOfWord (wd s)
  ++ bytesOfWord (we s) ++ bytesOfWord (wf s) ++ bytesOfWord (wg s) ++ bytesOfWord (wh s).

Definition SHA256 (msg : list byte) : list byte :=
  let ws := wordsOfBytes (pad msg) in
  digestBytes (absorb (length ws / 16) ws initialChain).

(** [new HMACSHA256(key).ComputeHash(data)]: a key longer than the block is
    hashed first, then padded with zeros to the 64-byte block. *)
Definition blockKey (key : list byte) : list byte :=
  let k := if (64 <? Z.of_nat (length key)) then SHA256 key else key in
  k ++ repeat 0 (64 - length k)%nat.

Definition HMACSHA256 (key data : list byte) : list byte :=
  let k := blockKey key in
  SHA256 (map (Z.lxor 0x5C) k ++ SHA256 (map (Z.lxor 0x36) k ++ data)).

End Crypto.

(* ===================================================================== *)
(** * UdpCommandListener *)
(* ===================================================================== *)

Module Listener.
Import Text Crypto.

(** [UdpCommandMessage]: the envelope. *)
Record UdpCommandMessage := {
  cmdId : option str;
  action : option str;
  payload : option str;
  timestamp : Z;
  signature : option str
}.

Definition withSignature (m : UdpCommandMessage) (sig : option str) : UdpCommandMessage :=
  {| cmdId := cmdId m; action := action m; payload := payload m;
     timestamp := timestamp m; signature := sig |}.

(** [IPEndPoint] *)
Inductive IPAddress :=
| IPv4 (a b c d : Z)
| IPv6 (text : str).

Record IPEndPoint := { Address : IPAddress; Port : Z }.

(** The serialized fields the receive path reads.  The staleness window is
    a [float] in the source; it is the rational that [float] stands for. *)
Record Settings := {
  sharedSecret : option str;
  staleCommandWindowSeconds : Q;
  sendAcknowledgement : bool
}.

(** ** Authentication *)

(** The loop of [CryptographicEquals]: [result |= a[i] ^ b[i]]. *)
Fixpoint accumulate (result : Z) (a b : str) : Z :=
  match a, b with
  | x :: a', y :: b' => accumulate (Z.lor result (Z.lxor x y)) a' b'
  | _, _ => result
  end.

Definition CryptographicEquals (a b : option str) : bool :=
  match a, b with
  | Some a, Some b =>
    if negb (Nat.eqb (length a) (length b)) then false
    else accumulate 0 a b =? 0
  | _, _ => false
  end.

Definition canonical (m : UdpCommandMessage) : str :=
  interpolated (action m) ++ lit "|" ++ coalesce (payload m) Empty ++ lit "|"
    ++ Int64_ToString (timestamp m).

Definition IsAuthorized (cfg : Settings) (message : UdpCommandMessage) : bool :=
  if IsNullOrEmpty (sharedSecret cfg) then true
  else if IsNullOrEmpty (signature message) then false
  else
    let key := UTF8_GetBytes (coalesce (sharedSecret cfg) Empty) in
    let expectedSignature :=
      ToBase64String (HMACSHA256 key (UTF8_GetBytes (canonical message))) in
    CryptographicEquals (Some expectedSignature) (signature message).

(** ** Staleness *)

(** Instants are ticks (100 ns) counted from the Unix epoch. *)
Definition TicksPerSecond : Z := 10000000.
Definition TicksPerMillisecond : Z := 10000.

(** The range of [DateTimeOffset]: years 0001 to 9999. *)
Definition MinUnixSeconds : Z := -62135596800.
Definition MaxUnixSeconds : Z := 253402300799.
Definition MinUnixMilliseconds : Z := -62135596800000.
Definition MaxUnixMilliseconds : Z := 253402300799999.
Definition MaxUnixTicks : Z := 2534023007999999999.

(** [DateTimeOffset.FromUnixTimeMilliseconds] and [FromUnixTimeSeconds]:
    [None] is the [ArgumentOutOfRangeException]. *)
Definition FromUnixTimeMilliseconds (ms : Z) : option Z :=
  if (MinUnixMilliseconds <=? ms) && (ms <=? MaxUnixMilliseconds)
  then Some (ms * TicksPerMillisecond) else None.

Definition FromUnixTimeSeconds (s : Z) : option Z :=
  if (MinUnixSeconds <=? s) && (s <=? MaxUnixSeconds)
  then Some (s * TicksPerSecond) else None.

(** [(double)n] for a [long]: exact up to 2^53, rounded beyond. *)
Definition Int64_ToDouble (n : Z) : Z := roundDouble n.

(** [SecondsPerTick = 1.0 / TicksPerSecond]: the [double] nearest to
    10^-7, which is 7555786372591432 / 2^76. *)
Definition SecondsPerTick_numerator : Z := 7555786372591432.
Definition SecondsPerTick_denominator : positive := (2 ^ 76)%positive.

(** [TimeSpan.TotalSeconds], which is [(double)_ticks * SecondsPerTick] in
    the class library Unity ships: the product of the two [double]s, an
    integer number of 2^-76, is rounded to a [double] again.  No span of a
    [long] number of ticks leaves the normal range of [double]. *)
Definition TotalSecondsNumerator (ticks : Z) : Z :=
  roundDouble (Int64_ToDouble ticks * SecondsPerTick_numerator).

Definition TotalSeconds (ticks : Z) : Q :=
  TotalSecondsNumerator ticks # SecondsPerTick_denominator.

(** The same product in the library's arithmetic of binary64, the format
    of [double]: [(double)_ticks * (1.0 / TicksPerSecond)]. *)
Definition binary64 (n : Z) : SpecFloat.spec_float :=
  SpecFloat.binary_normalize 53 1024 n 0 false.

Definition TotalSeconds_binary64 (ticks : Z) : SpecFloat.spec_float :=
  SpecFloat.SFmul 53 1024 (binary64 ticks)
    (SpecFloat.SFdiv 53 1024 (binary64 1) (binary64 TicksPerSecond)).

(** The number a finite binary64 stands for. *)
Definition binary64_value (x : SpecFloat.spec_float) : option Q :=
  match x with
  | SpecFloat.S754_zero _ => Some 0%Q
  | SpecFloat.S754_finite negative m e =>
    Some ((inject_Z (if negative then Z.neg m else Z.pos m)) * Qpower 2 e)%Q
  | _ => None
  end.

(** [DateTimeOffset.ToUnixTimeSeconds]: whole seconds, rounded down. *)
Definition ToUnixTimeSeconds (now : Z) : Z := now / TicksPerSecond.

(** [IsStale]; [utcNow] is the reading of [DateTimeOffset.UtcNow], and
    [None] an exception leaving the method.  The comparison at its end is
    between the [double] of [TotalSeconds] and the [float] window widened
    to [double], which is exact. *)
Definition IsStale (cfg : Settings) (utcNow : Z) (message : UdpCommandMessage) : option bool :=
  if Qle_bool (staleCommandWindowSeconds cfg) 0 || (timestamp message <=? 0) then Some false
  else
    match (if timestamp message >? 9999999999
           then FromUnixTimeMilliseconds (timestamp message)
           else FromUnixTimeSeconds (timestamp message)) with
    | None => None
    | Some stamp =>
      let ageSeconds := TotalSeconds (utcNow - stamp) in
      Some (negb (Qle_bool ageSeconds (staleCommandWindowSeconds cfg)))
    end.

(** ** Duplicate suppression *)

Definition MaxRememberedCommandIds : nat := 128.

(** [Math.Max(1, x)] at [float], then the cast [(long)], which drops the
    fraction. *)
Definition Math_Max (a b : Q) : Q := if Qle_bool a b then b else a.
Definition truncate (x : Q) : Z := Z.quot (Qnum x) (Zpos (Qden x)).

Definition pruneCutoff (cfg : Settings) (utcNow : Z) : Z :=
  ToUnixTimeSeconds utcNow - truncate (Math_Max 1 (staleCommandWindowSeconds cfg)).

(** [PruneProcessedCommands]: collect the keys whose value is below the
    cutoff, then remove them. *)
Definition PruneProcessedCommands (cfg : Settings) (utcNow : Z)
    (processed : gmap (list Z) Z) : gmap (list Z) Z :=
  let cutoff := pruneCutoff cfg utcNow in
  let toRemove :=
    (filter (fun kvp : list Z * Z => kvp.2 < cutoff) (map_to_list processed)).*1 in
  foldr delete processed toRemove.

(** [RegisterCommandId]; [nowInsert] and [nowPrune] are its two readings of
    the clock. *)
Definition RegisterCommandId (cfg : Settings) (nowInsert nowPrune : Z)
    (message : UdpCommandMessage) (processed : gmap (list Z) Z)
    : bool * gmap (list Z) Z :=
  match cmdId message with
  | None | Some [] => (true, processed)
  | Some id =>
    if bool_decide (is_Some (processed !! id)) then (false, processed)
    else
      let inserted := <[id := ToUnixTimeSeconds nowInsert]> processed in
      if (MaxRememberedCommandIds <? size inserted)%nat
      then (true, PruneProcessedCommands cfg nowPrune inserted)
      else (true, inserted)
  end.

(** ** The receive loop *)

(** Library calls of the receive path: decoding and JSON parsing.  The result of
    [JsonUtility.FromJson] is the object, [null], or an
    [ArgumentException]. *)
Inductive JsonResult (A : Type) :=
| Parsed (value : option A)
| ArgumentException.
Arguments Parsed {A} value.
Arguments ArgumentException {A}.

Class Runtime := {
  UTF8_GetString : list byte -> str;
  FromJson_UdpCommandMessage : str -> JsonResult UdpCommandMessage
}.

Definition ParseMessage `{Runtime} (json : str) : option UdpCommandMessage :=
  if IsNullOrWhiteSpace (Some json) then None
  else
    match FromJson_UdpCommandMessage json with
    | Parsed (Some command) =>
      if IsNullOrEmpty (action command) then None else Some command
    | Parsed None => None
    | ArgumentException => None
    end.

Record PendingCommand := { Message : UdpCommandMessage; RemoteEndPoint : option IPEndPoint }.

Record ListenerState := {
  _processedCommands : gmap (list Z) Z;
  _pendingCommands : list PendingCommand
}.

(** What one iteration of [ListenLoop] did with its datagram. *)
Inductive Disposition :=
| EmptyBuffer
| Malformed
| Unauthorized
| Stale
| Duplicate
| Enqueued
| Faulted.

(** The clock readings of one iteration, in the order they are taken. *)
Record Clock := { atStaleCheck : Z; atInsert : Z; atPrune : Z }.

Definition ListenIteration `{Runtime} (cfg : Settings) (clk : Clock)
    (buffer : option (list byte)) (remoteEndpoint : IPEndPoint)
    (st : ListenerState) : Disposition * ListenerState :=
  match buffer with
  | None | Some [] => (EmptyBuffer, st)
  | Some bytes =>
    let messageJson := UTF8_GetString bytes in
    match ParseMessage messageJson with
    | None => (Malformed, st)
    | Some command =>
      if negb (IsAuthorized cfg command) then (Unauthorized, st)
      else
        match IsStale cfg (atStaleCheck clk) command with
        | None => (Faulted, st)
        | Some true => (Stale, st)
        | Some false =>
          let '(fresh, processed) :=
            RegisterCommandId cfg (atInsert clk) (atPrune clk) command
                              (_processedCommands st) in
          if negb fresh
          then (Duplicate, {| _processedCommands := processed;
                              _pendingCommands := _pendingCommands st |})
          else (Enqueued,
                {| _processedCommands := processed;
                   _pendingCommands :=
                     _pendingCommands st
                       ++ [{| Message := command; RemoteEndPoint := Some remoteEndpoint |}] |})
        end
    end
  end.

(** ** Dispatch *)

(** A subscriber (a delegate or a UnityEvent listener), by identity. *)
Definition Callback := nat.

(** [UdpCommandBinding] *)
Record UdpCommandBinding := {
  Action : option str;
  onCommand : list Callback;
  RuntimeHandlers : list Callback
}.

(** [Dictionary<string, UdpCommandBinding>(StringComparer.OrdinalIgnoreCase)]:
    entries in insertion order, keys compared by the comparer. *)
Definition BindingLookup := list (str * UdpCommandBinding).

Fixpoint TryGetValue `{CaseMap} (lookup : BindingLookup) (key : str)
    : option UdpCommandBinding :=
  match lookup with
  | [] => None
  | (k, b) :: rest => if OrdinalIgnoreCase_eqb k key then Some b else TryGetValue rest key
  end.

Definition ContainsKey `{CaseMap} (lookup : BindingLookup) (key : str) : bool :=
  match TryGetValue lookup key with Some _ => true | None => false end.

(** The binding stored under [key] is an object: changing it is seen
    through the dictionary. *)
Fixpoint update `{CaseMap} (lookup : BindingLookup) (key : str)
    (f : UdpCommandBinding -> UdpCommandBinding) : BindingLookup :=
  match lookup with
  | [] => []
  | (k, b) :: rest =>
    if OrdinalIgnoreCase_eqb k key then (k, f b) :: rest
    else (k, b) :: update rest key f
  end.

(** [BuildBindingLookup]: the loop over the serialized [bindings]. *)
Fixpoint addBindings `{CaseMap} (bindings : list (option UdpCommandBinding))
    (lookup : BindingLookup) : BindingLookup :=
  match bindings with
  | [] => lookup
  | None :: rest => addBindings rest lookup
  | Some binding :: rest =>
    match Action binding with
    | Some name =>
      if IsNullOrWhiteSpace (Some name) then addBindings rest lookup
      else if ContainsKey lookup name then addBindings rest lookup
      else addBindings rest (lookup ++ [(name, binding)])
    | None => addBindings rest lookup
    end
  end.

Definition BuildBindingLookup `{CaseMap} (bindings : list (option UdpCommandBinding))
    : BindingLookup :=
  addBindings bindings [].

Definition addRuntimeHandler (handler : Callback) (b : UdpCommandBinding) : UdpCommandBinding :=
  {| Action := Action b; onCommand := onCommand b;
     RuntimeHandlers := RuntimeHandlers b ++ [handler] |}.

(** What a call of [RegisterHandler] comes to: the dictionary it leaves, or
    the exception it throws, the [ArgumentException] for [action] or the
    [ArgumentNullException] for [handler]. *)
Inductive Registration :=
| Registered (lookup : BindingLookup)
| ActionArgumentException
| HandlerArgumentNullException.

(** [RegisterHandler]; a [handler] that is [null] is [None]. *)
Definition RegisterHandler `{CaseMap} (action : option str) (handler : option Callback)
    (lookup : BindingLookup) : Registration :=
  match action with
  | None | Some [] => ActionArgumentException
  | Some name =>
    match handler with
    | None => HandlerArgumentNullException
    | Some handler =>
      match TryGetValue lookup name with
      | Some _ => Registered (update lookup name (addRuntimeHandler handler))
      | None =>
        Registered
          (lookup ++ [(name, addRuntimeHandler handler
                               {| Action := Some name; onCommand := [];
                                  RuntimeHandlers := [] |})])
      end
    end
  end.

Record UdpCommandAcknowledgement := {
  ack_cmdId : option str;
  ack_status : str;
  receivedTimestamp : Z
}.

(** What the main thread does while dispatching. *)
Inductive Effect :=
| Invoke (subscriber : Callback) (message : UdpCommandMessage)
| NoHandlerWarning (action : option str)
| Acknowledge (target : IPEndPoint) (ack : UdpCommandAcknowledgement)
| NullKeyException.

(** [binding.Invoke(message)] *)
Definition Binding_Invoke (b : UdpCommandBinding) (message : UdpCommandMessage) : list Effect :=
  map (fun h => Invoke h message) (onCommand b ++ RuntimeHandlers b).

Record Dispatcher := {
  settings : Settings;
  onCommandReceived : list Callback;
  CommandReceived : list Callback;
  _bindingLookup : BindingLookup;
  _ackClient : bool
}.

Definition SendAcknowledgement (d : Dispatcher) (nowMilliseconds : Z)
    (pending : PendingCommand) (target : IPEndPoint) : list Effect :=
  if _ackClient d then
    [Acknowledge target {| ack_cmdId := cmdId (Message pending);
                           ack_status := lit "received";
                           receivedTimestamp := nowMilliseconds |}]
  else [].

(** [DispatchCommand]; subscribers are assumed not to throw. *)
Definition DispatchCommand `{CaseMap} (d : Dispatcher) (nowMilliseconds : Z)
    (pending : PendingCommand) : list Effect :=
  let m := Message pending in
  let generic :=
    map (fun h => Invoke h m) (onCommandReceived d)
    ++ map (fun h => Invoke h m) (CommandReceived d) in
  match action m with
  | None => generic ++ [NullKeyException]
  | Some name =>
    let specific :=
      match TryGetValue (_bindingLookup d) name with
      | Some binding => Binding_Invoke binding m
      | None => [NoHandlerWarning (action m)]
      end in
    let ack :=
      match sendAcknowledgement (settings d), RemoteEndPoint pending with
      | true, Some target => SendAcknowledgement d nowMilliseconds pending target
      | _, _ => []
      end in
    generic ++ specific ++ ack
  end.

End Listener.

(* ===================================================================== *)
(** * UdpClientReporter *)
(* ===================================================================== *)

Module Announcement.
Import Text.

(** [HostAnnouncementPayload] *)
Record t := {
  hostName : option str;
  hostAddress : option str;
  hostPort : Z;
  commandPort : Z
}.

End Announcement.

Module Reporter.
Import Text Crypto Listener.

(** The serialized fields that stay as configured. *)
Record Config := {
  sharedSecret : option str;
  commandPort : Z;
  hostAnnouncementAction : option str;
  registerAction : option str;
  registerOnEnable : bool;
  heartbeatEnabled : bool  (* [heartbeatIntervalSeconds > 0f] *)
}.

(** The fields the component assigns while running. *)
Record State := {
  hostAddress : option str;
  hostPort : Z;
  discoveryPort : Z;
  cachedEndpoint : option IPEndPoint;
  cachedHostAddress : option str;
  udpClient : bool;
  heartbeatRoutine : bool;
  hasSentRegistration : bool;
  hasLoggedMissingHost : bool
}.

Definition setLoggedMissingHost (v : bool) (st : State) : State :=
  {| hostAddress := hostAddress st; hostPort := hostPort st;
     discoveryPort := discoveryPort st; cachedEndpoint := cachedEndpoint st;
     cachedHostAddress := cachedHostAddress st; udpClient := udpClient st;
     heartbeatRoutine := heartbeatRoutine st;
     hasSentRegistration := hasSentRegistration st;
     hasLoggedMissingHost := v |}.

Definition setSentRegistration (v : bool) (st : State) : State :=
  {| hostAddress := hostAddress st; hostPort := hostPort st;
     discoveryPort := discoveryPort st; cachedEndpoint := cachedEndpoint st;
     cachedHostAddress := cachedHostAddress st; udpClient := udpClient st;
     heartbeatRoutine := heartbeatRoutine st;
     hasSentRegistration := v;
     hasLoggedMissingHost := hasLoggedMissingHost st |}.

Definition setCache (ep : option IPEndPoint) (name : option str) (st : State) : State :=
  {| hostAddress := hostAddress st; hostPort := hostPort st;
     discoveryPort := discoveryPort st; cachedEndpoint := ep;
     cachedHostAddress := name; udpClient := udpClient st;
     heartbeatRoutine := heartbeatRoutine st;
     hasSentRegistration := hasSentRegistration st;
     hasLoggedMissingHost := hasLoggedMissingHost st |}.

Definition setHost (address : option str) (port : Z) (st : State) : State :=
  {| hostAddress := address; hostPort := port;
     discoveryPort := port; cachedEndpoint := cachedEndpoint st;
     cachedHostAddress := cachedHostAddress st; udpClient := udpClient st;
     heartbeatRoutine := heartbeatRoutine st;
     hasSentRegistration := hasSentRegistration st;
     hasLoggedMissingHost := hasLoggedMissingHost st |}.

Definition setClient (v : bool) (st : State) : State :=
  {| hostAddress := hostAddress st; hostPort := hostPort st;
     discoveryPort := discoveryPort st; cachedEndpoint := cachedEndpoint st;
     cachedHostAddress := cachedHostAddress st; udpClient := v;
     heartbeatRoutine := heartbeatRoutine st;
     hasSentRegistration := hasSentRegistration st;
     hasLoggedMissingHost := hasLoggedMissingHost st |}.

Definition setHeartbeat (v : bool) (st : State) : State :=
  {| hostAddress := hostAddress st; hostPort := hostPort st;
     discoveryPort := discoveryPort st; cachedEndpoint := cachedEndpoint st;
     cachedHostAddress := cachedHostAddress st; udpClient := udpClient st;
     heartbeatRoutine := v;
     hasSentRegistration := hasSentRegistration st;
     hasLoggedMissingHost := hasLoggedMissingHost st |}.

(** Library calls: name resolution ([None] is an exception) and the JSON
    parser at [HostAnnouncementPayload]. *)
Class Network := {
  Dns_GetHostAddresses : str -> option (list IPAddress);
  FromJson_HostAnnouncementPayload : str -> JsonResult Announcement.t
}.

(** [IPAddress.ToString()] *)
Definition IPAddress_ToString (a : IPAddress) : str :=
  match a with
  | IPv4 a b c d =>
    Int64_ToString a ++ lit "." ++ Int64_ToString b ++ lit "."
      ++ Int64_ToString c ++ lit "." ++ Int64_ToString d
  | IPv6 text => text
  end.

Definition isInterNetwork (a : IPAddress) : bool :=
  match a with IPv4 _ _ _ _ => true | IPv6 _ => false end.

(** ** Signing *)

Definition ComputeSignature (cfg : Config) (message : UdpCommandMessage) : str :=
  let canonical :=
    interpolated (action message) ++ lit "|" ++ coalesce (payload message) Empty
      ++ lit "|" ++ Int64_ToString (timestamp message) in
  ToBase64String
    (HMACSHA256 (UTF8_GetBytes (coalesce (sharedSecret cfg) Empty))
                (UTF8_GetBytes canonical)).

(** ** Host resolution *)

Definition IsHostResolved `{CaseMap} (st : State) : bool :=
  negb (IsNullOrWhiteSpace (hostAddress st))
  && negb (Equals_OrdinalIgnoreCase (hostAddress st) (Some (lit "auto"))).

Definition ResetCachedEndpoint (st : State) : State := setCache None None st.

(** [ApplyHostAnnouncement(payload, remote)] *)
Definition ApplyHostAnnouncement `{CaseMap} (payload : option Announcement.t)
    (remote : option IPEndPoint) (st : State) : bool * State :=
  let announced :=
    match payload with Some p => Announcement.hostAddress p | None => None end in
  let resolvedAddress :=
    if negb (IsNullOrWhiteSpace announced) then announced
    else match remote with
         | Some r => Some (IPAddress_ToString (Address r))
         | None => None
         end in
  if IsNullOrWhiteSpace resolvedAddress then (false, st)
  else
    let resolvedPort :=
      match payload with
      | Some p => if Announcement.hostPort p >? 0 then Announcement.hostPort p else hostPort st
      | None => hostPort st
      end in
    let addressChanged := negb (Equals_OrdinalIgnoreCase (hostAddress st) resolvedAddress) in
    let portChanged := negb (resolvedPort =? hostPort st) in
    let st1 := setHost resolvedAddress resolvedPort st in
    let st2 :=
      if addressChanged || portChanged
      then setSentRegistration false (ResetCachedEndpoint st1)
      else st1 in
    (true, setLoggedMissingHost false st2).

(** [TryResolveEndpoint(out endpoint)] *)
Definition resolveByName `{Network} (st : State) : option IPEndPoint * State :=
  match Dns_GetHostAddresses (coalesce (hostAddress st) Empty) with
  | None => (None, st)
  | Some addresses =>
    match List.find isInterNetwork addresses with
    | Some address =>
      if (0 <=? hostPort st) && (hostPort st <=? 65535) then
        let ep := {| Address := address; Port := hostPort st |} in
        (Some ep, setCache (Some ep) (hostAddress st) st)
      else (None, st)
    | None => (None, st)
    end
  end.

Definition TryResolveEndpoint `{CaseMap} `{Network} (st : State)
    : option IPEndPoint * State :=
  if negb (IsHostResolved st) then (None, st)
  else
    match cachedEndpoint st with
    | Some ep =>
      if Equals_OrdinalIgnoreCase (hostAddress st) (cachedHostAddress st)
         && (Port ep =? hostPort st)
      then (Some ep, st)
      else resolveByName st
    | None => resolveByName st
    end.

Definition EnsureHostReady `{CaseMap} (st : State) : bool * State :=
  if IsHostResolved st then (true, setLoggedMissingHost false st)
  else if hasLoggedMissingHost st then (false, st)
  else (false, setLoggedMissingHost true st).

(** ** Sending *)

(** What the surroundings supply to one send: the clock in milliseconds,
    the fresh command id, the serialized payload ([None] when
    [JsonUtility.ToJson] throws) and whether the socket accepts the
    datagram. *)
Record Env := {
  utcNowMilliseconds : Z;
  newCmdId : str;
  payloadJson : option str;
  socketAccepts : bool
}.

(** A call of [udpClient.Send]. *)
Record Datagram := { target : IPEndPoint; sent : UdpCommandMessage }.

(** [SendCommand(action, payload, includeCmdId)] with a non-null payload. *)
Definition SendCommand `{CaseMap} `{Network} (cfg : Config) (env : Env)
    (action : option str) (includeCmdId : bool) (st : State)
    : bool * State * list Datagram :=
  let '(ready, st1) := EnsureHostReady st in
  if negb ready then (false, st1, [])
  else
    let '(resolved, st2) := TryResolveEndpoint st1 in
    match resolved with
    | None => (false, st2, [])
    | Some endpoint =>
      let st3 := setClient true st2 in
      match payloadJson env with
      | None => (false, st3, [])
      | Some json =>
        let unsignedMessage :=
          {| cmdId := if includeCmdId then Some (newCmdId env) else None;
             action := action;
             payload := Some json;
             timestamp := utcNowMilliseconds env;
             signature := None |} in
        let message :=
          if negb (IsNullOrEmpty (sharedSecret cfg))
          then withSignature unsignedMessage (Some (ComputeSignature cfg unsignedMessage))
          else unsignedMessage in
        (socketAccepts env, st3, [{| target := endpoint; sent := message |}])
      end
    end.

(** [RegisterClient()] *)
Definition RegisterClient `{CaseMap} `{Network} (cfg : Config) (env : Env) (st : State)
    : State * list Datagram :=
  let '(ready, st1) := EnsureHostReady st in
  if negb ready then (st1, [])
  else
    let '(ok, st2, out) := SendCommand cfg env (registerAction cfg) true st1 in
    (if ok then setSentRegistration true st2 else st2, out).

Definition StartHeartbeat `{CaseMap} (cfg : Config) (st : State) : State :=
  if negb (heartbeatEnabled cfg) || heartbeatRoutine st || negb (IsHostResolved st)
  then st else setHeartbeat true st.

(** [MaybeStartReporting(forceRegister)] *)
Definition MaybeStartReporting `{CaseMap} `{Network} (cfg : Config) (env : Env)
    (forceRegister : bool) (st : State) : State * list Datagram :=
  if negb (IsHostResolved st) then (st, [])
  else
    let st1 := setLoggedMissingHost false st in
    let '(st2, out) :=
      if negb (hasSentRegistration st1) && (forceRegister || registerOnEnable cfg)
      then RegisterClient cfg env st1
      else (st1, []) in
    (StartHeartbeat cfg st2, out).

(** [HandleCommandReceived(message)]: an unsolicited announcement arriving
    through the listener. *)
Definition HandleCommandReceived `{CaseMap} `{Network} (cfg : Config) (env : Env)
    (message : option UdpCommandMessage) (st : State) : State * list Datagram :=
  match message with
  | None => (st, [])
  | Some m =>
    if IsNullOrEmpty (action m) then (st, [])
    else if negb (Equals_OrdinalIgnoreCase (action m) (hostAnnouncementAction cfg))
    then (st, [])
    else
      let parsed :=
        if negb (IsNullOrEmpty (payload m)) then
          match FromJson_HostAnnouncementPayload (coalesce (payload m) Empty) with
          | Parsed p => p
          | ArgumentException => None
          end
        else None in
      let '(applied, st1) := ApplyHostAnnouncement parsed None st in
      if applied then MaybeStartReporting cfg env false st1 else (st1, [])
  end.

End Reporter.

(* ===================================================================== *)
(** * The dashboard renderer (renderer.js) *)
(* ===================================================================== *)

Module Js.
Import Text.

(** The JavaScript values a parsed record can hold in its fields: JSON
    primitives, with integers for numbers.  Nested objects and arrays are
    left out. *)
Inductive JsValue :=
| JsUndefined
| JsNull
| JsBoolean (b : bool)
| JsNumber (n : Z)
| JsNaN
| JsString (s : str).

#[global] Instance JsValue_eq_dec : EqDecision JsValue.
Proof. solve_decision. Defined.

(** [Boolean(v)] *)
Definition truthy (v : JsValue) : bool :=
  match v with
  | JsUndefined | JsNull | JsNaN => false
  | JsBoolean b => b
  | JsNumber n => negb (n =? 0)
  | JsString [] => false
  | JsString (_ :: _) => true
  end.

(** [a || b] *)
Definition or (a b : JsValue) : JsValue := if truthy a then a else b.

(** [v !== undefined && v !== null] *)
Definition present (v : JsValue) : bool :=
  match v with
  | JsUndefined | JsNull => false
  | _ => true
  end.

(** ** Numbers as text *)

(** The multiple of [10 ^ e] next to [x] on either side that is read back
    as [x], if there is one: the nearer of the two, and of two equally near
    the even one. *)
Definition readBackAt (x e : Z) : option Z :=
  let unit := 10 ^ e in
  let below := x / unit * unit in
  let above := below + unit in
  match roundDouble below =? x, roundDouble above =? x with
  | true, true =>
    Some (if x - below <? above - x then below
          else if above - x <? x - below then above
          else if Z.even (x / unit) then below else above)
  | true, false => Some below
  | false, true => Some above
  | false, false => None
  end.

Fixpoint shortestReadBack (x : Z) (exponents : list Z) : Z :=
  match exponents with
  | [] => x
  | e :: rest =>
    match readBackAt x e with
    | Some v => v
    | None => shortestReadBack x rest
    end
  end.

(** The decimal integer of the fewest significant digits, seventeen at
    most, that is read back as the positive number [x]. *)
Definition shortestDecimal (x : Z) : Z :=
  let digits := Z.of_nat (length (Int64_ToString x)) in
  shortestReadBack x (map (fun k => digits - k) (seqZ 1 (Z.min digits 17))).

Fixpoint dropZeros (digits : str) : str :=
  match digits with
  | 48 :: rest => dropZeros rest
  | _ => digits
  end.

(** The notation of a number of more than 21 digits: [d.ddde+n]. *)
Definition scientific (digits : str) : str :=
  match rev (dropZeros (rev digits)) with
  | [] => []
  | first :: rest =>
    first :: (match rest with [] => [] | _ => 46 :: rest end)
      ++ lit "e+" ++ Int64_ToString (Z.of_nat (length digits) - 1)
  end.

(** [Number::toString] of an integer at radix 10, as [String(n)], a
    template literal and [JSON.stringify] print it: the digits of the
    shortest decimal that is read back as the number, filled up with
    zeros, which below 2^53 are the digits of the integer itself; with more
    than 21 digits, the notation with an exponent.  An integer that is no
    number is taken as the number nearest to it, below 2^1024. *)
Definition Number_toString (n : Z) : str :=
  let x := roundDouble n in
  if x =? 0 then lit "0"
  else
    let shortest := shortestDecimal (Z.abs x) in
    let digits := Int64_ToString shortest in
    (if x <? 0 then lit "-" else [])
      ++ (if shortest <? 10 ^ 21 then digits else scientific digits).

(** [ToString(v)] *)
Definition ToString (v : JsValue) : str :=
  match v with
  | JsUndefined => lit "undefined"
  | JsNull => lit "null"
  | JsBoolean true => lit "true"
  | JsBoolean false => lit "false"
  | JsNumber n => Number_toString n
  | JsNaN => lit "NaN"
  | JsString s => s
  end.

End Js.

(** The object literal [processInboundPacket] hands to [upsertClient]. *)
Module Incoming.
Import Js.
Record t := {
  deviceId : JsValue;
  deviceName : JsValue;
  platform : JsValue;
  buildVersion : JsValue;
  ipv4 : JsValue;
  scene : JsValue;
  commandPort : JsValue
}.
End Incoming.

(** A value of the [clients] map. *)
Module Device.
Import Js.
Record t := {
  deviceId : JsValue;
  deviceName : JsValue;
  platform : JsValue;
  buildVersion : JsValue;
  ipv4 : JsValue;
  scene : JsValue;
  commandPort : JsValue;
  remoteAddress : JsValue;
  remotePort : JsValue;
  firstSeen : Z;
  lastSeen : Z
}.
End Device.

Module Renderer.
Import Text Js.

Record Packet := { address : JsValue; port : JsValue }.

(** [clients = new Map()]: entries in insertion order. *)
Definition Clients := list (JsValue * Device.t).

Fixpoint Map_get (clients : Clients) (key : JsValue) : option Device.t :=
  match clients with
  | [] => None
  | (k, d) :: rest => if bool_decide (k = key) then Some d else Map_get rest key
  end.

Fixpoint Map_set (clients : Clients) (key : JsValue) (d : Device.t) : Clients :=
  match clients with
  | [] => [(key, d)]
  | (k, d0) :: rest =>
    if bool_decide (k = key) then (k, d) :: rest else (k, d0) :: Map_set rest key d
  end.

Definition HEARTBEAT_TIMEOUT_MS : Z := 10000.

(** The template literal [`client-${clients.size + 1}`]. *)
Definition placeholderKey (clients : Clients) : JsValue :=
  JsString (lit "client-" ++ Int64_ToString (Z.of_nat (length clients) + 1)).

(** The key of [upsertClient]. *)
Definition keyOf (clients : Clients) (packet : Packet) (payload : Incoming.t) : JsValue :=
  or (or (Incoming.deviceId payload) (address packet)) (placeholderKey clients).

(** The object used when the key is new. *)
Definition freshDevice (now : Z) (key : JsValue) (packet : Packet)
    (payload : Incoming.t) : Device.t :=
  {| Device.deviceId := or (Incoming.deviceId payload) key;
     Device.deviceName := or (Incoming.deviceName payload) (JsString []);
     Device.platform := or (Incoming.platform payload) (JsString []);
     Device.buildVersion := or (Incoming.buildVersion payload) (JsString []);
     Device.ipv4 := or (Incoming.ipv4 payload) (address packet);
     Device.scene := or (Incoming.scene payload) (JsString []);
     Device.commandPort := Incoming.commandPort payload;
     Device.remoteAddress := address packet;
     Device.remotePort := port packet;
     Device.firstSeen := now;
     Device.lastSeen := now |}.

(** One turn of the [Object.entries(payload).forEach] loop. *)
Definition assign (value old : JsValue) : JsValue :=
  if present value then value else old.

(** The entry [upsertClient] stores; [portInput] is the value of
    [Number.parseInt(portInput.value, 10)] and [now] that of [Date.now()]. *)
Definition updatedDevice (portInput : JsValue) (now : Z) (packet : Packet)
    (payload : Incoming.t) (current : Device.t) : Device.t :=
  let deviceId := assign (Incoming.deviceId payload) (Device.deviceId current) in
  let deviceName := assign (Incoming.deviceName payload) (Device.deviceName current) in
  let platform := assign (Incoming.platform payload) (Device.platform current) in
  let buildVersion := assign (Incoming.buildVersion payload) (Device.buildVersion current) in
  let ipv4 := assign (Incoming.ipv4 payload) (Device.ipv4 current) in
  let scene := assign (Incoming.scene payload) (Device.scene current) in
  let commandPort := assign (Incoming.commandPort payload) (Device.commandPort current) in
  {| Device.deviceId := deviceId;
     Device.deviceName := if negb (truthy deviceName) then deviceId else deviceName;
     Device.platform := platform;
     Device.buildVersion := buildVersion;
     Device.ipv4 := or ipv4 (address packet);
     Device.scene := or scene (Device.scene current);
     Device.commandPort := or (or commandPort portInput) (JsNumber 3939);
     Device.remoteAddress := address packet;
     Device.remotePort := port packet;
     Device.firstSeen := Device.firstSeen current;
     Device.lastSeen := now |}.

Definition upsertClient (portInput : JsValue) (now : Z) (packet : Packet)
    (payload : Incoming.t) (clients : Clients) : Clients :=
  let key := keyOf clients packet payload in
  let current :=
    match Map_get clients key with
    | Some d => d
    | None => freshDevice now key packet payload
    end in
  Map_set clients key (updatedDevice portInput now packet payload current).

(** The test of [renderDeviceGrid], [updateDeviceStats] and
    [toggleDeviceSelection]. *)
Definition isOffline (now : Z) (device : Device.t) : bool :=
  now - Device.lastSeen device >? HEARTBEAT_TIMEOUT_MS.

(** The test of [selectAllDevices]. *)
Definition isOnline (now : Z) (device : Device.t) : bool :=
  now - Device.lastSeen device <=? HEARTBEAT_TIMEOUT_MS.

(** What a card of the grid shows of the liveness. *)
Record Card := { cardKey : JsValue; offline : bool; selected : bool }.

Definition has (selectedDevices : list JsValue) (key : JsValue) : bool :=
  bool_decide (key ∈ selectedDevices).

Definition remove (selectedDevices : list JsValue) (key : JsValue) : list JsValue :=
  filter (fun k => k <> key) selectedDevices.

(** What [renderDeviceGrid] takes from the engine: the case mapping and the
    collation of its locale, and [Array.prototype.sort], of which the
    language fixes neither the comparisons made nor their order.  The
    comparator answers with a number or throws ([None]); so does the
    sort. *)
Class Engine := {
  toLowerCase : str -> str;
  localeCompare : str -> str -> Z;
  Array_sort : forall A : Type, (A -> A -> option Z) -> list A -> option (list A)
}.
Arguments Array_sort {_} {A} comparator array.

(** [(device.deviceName || device.deviceId || '').toLowerCase()]; [None] is
    the [TypeError] of a value that is no string and so has no
    [toLowerCase]. *)
Definition sortName `{Engine} (device : Device.t) : option str :=
  match or (or (Device.deviceName device) (Device.deviceId device)) (JsString []) with
  | JsString name => Some (toLowerCase name)
  | _ => None
  end.

(** The comparator of the sort: by name, and for equal names by scene. *)
Definition compareEntries `{Engine} (a b : JsValue * Device.t) : option Z :=
  match sortName a.2 with
  | None => None
  | Some nameA =>
    match sortName b.2 with
    | None => None
    | Some nameB =>
      if bool_decide (nameA <> nameB) then Some (localeCompare nameA nameB)
      else
        match or (Device.scene a.2) (JsString []) with
        | JsString sceneA =>
          Some (localeCompare sceneA (ToString (or (Device.scene b.2) (JsString []))))
        | _ => None
        end
    end
  end.

(** [ordered]: the entries of [clients] in the order of the sort. *)
Definition ordered `{Engine} (clients : Clients) : option Clients :=
  Array_sort compareEntries clients.

(** The loop [ordered.forEach]: a card for every entry; an offline entry
    leaves the selection, nothing leaves [clients]. *)
Fixpoint renderCards (now : Z) (entries : Clients) (selectedDevices : list JsValue)
    : list Card * list JsValue :=
  match entries with
  | [] => ([], selectedDevices)
  | (key, device) :: rest =>
    let isOff := isOffline now device in
    let selectedDevices' := if isOff then remove selectedDevices key else selectedDevices in
    let '(cards, final) := renderCards now rest selectedDevices' in
    ({| cardKey := key; offline := isOff; selected := has selectedDevices' key |} :: cards,
     final)
  end.

(** [renderDeviceGrid()], with the reading [now] of the clock: the cards
    drawn and the selection left.  Keys that are no keys of [clients] leave
    the selection first and the grid is emptied; an empty [clients] gets
    the placeholder and no card.  When the comparator throws, the
    [TypeError] leaves the function ([None]): no card is drawn and the
    selection stays as it was then, offline keys included. *)
Definition renderDeviceGrid `{Engine} (now : Z) (clients : Clients)
    (selectedDevices : list JsValue) : option (list Card) * list JsValue :=
  let validKeys := map fst clients in
  let selectedDevices := filter (fun k => k ∈ validKeys) selectedDevices in
  match clients with
  | [] => (Some [], selectedDevices)
  | _ :: _ =>
    match ordered clients with
    | None => (None, selectedDevices)
    | Some entries =>
      let '(cards, final) := renderCards now entries selectedDevices in
      (Some cards, final)
    end
  end.

End Renderer.

(* ===================================================================== *)
(** * Notions of the specification *)
(* ===================================================================== *)

Module Spec.
Import Text Listener.

(** The instant an envelope's timestamp denotes: Unix milliseconds when the
    value is 10,000,000,000 or greater, Unix seconds when below. *)
Definition instantOf (timestamp : Z) : Z :=
  if 10000000000 <=? timestamp
  then timestamp * TicksPerMillisecond
  else timestamp * TicksPerSecond.

(** The age of an envelope in seconds: wall clock minus that instant. *)
Definition age (utcNow timestamp : Z) : Q := (utcNow - instantOf timestamp) # 10000000.

(** The windows below 2^28 seconds, some eight and a half years, that a
    [float] holds: a significand of 24 bits times a power of two from 2^-25
    upwards, or any value under 2^-24, less than a tick of the clock. *)
Definition singleWindow (w : Q) : Prop :=
  (w < 1 # (2 ^ 24)%positive)%Q
  \/ exists significand scale : Z,
       2 ^ 23 <= significand < 2 ^ 24 /\ 0 <= scale <= 52
       /\ (w == (significand * 2 ^ scale) # (2 ^ 48)%positive)%Q.

(** The age of a remembered command id, in the whole seconds the cache
    stores. *)
Definition entryAge (utcNow stored : Z) : Z := ToUnixTimeSeconds utcNow - stored.

(** The pruning window as the specification words it: the staleness
    window, or one second when staleness checking is disabled. *)
Definition statedWindow (cfg : Settings) : Q :=
  if Qle_bool (staleCommandWindowSeconds cfg) 0 then 1%Q
  else staleCommandWindowSeconds cfg.

(** The pruning window of the code: never below one second. *)
Definition flooredWindow (cfg : Settings) : Q :=
  Math_Max 1 (staleCommandWindowSeconds cfg).

(** Presenting a sequence of envelopes to the duplicate check, each with
    the two clock readings of its call. *)
Fixpoint presentAll (cfg : Settings) (arrivals : list (Z * Z * UdpCommandMessage))
    (processed : gmap (list Z) Z) : list bool * gmap (list Z) Z :=
  match arrivals with
  | [] => ([], processed)
  | (nowInsert, nowPrune, m) :: rest =>
    let '(fresh, processed1) := RegisterCommandId cfg nowInsert nowPrune m processed in
    let '(verdicts, final) := presentAll cfg rest processed1 in
    (fresh :: verdicts, final)
  end.

(** Every remembered id is within the floored window at the instant
    [utcNow]. *)
Definition withinWindowAt (cfg : Settings) (utcNow : Z) (processed : gmap (list Z) Z)
    : Prop :=
  forall k v, processed !! k = Some v ->
    (inject_Z (entryAge utcNow v) <= flooredWindow cfg)%Q.

(** The clock readings of the pruning passes a sequence of arrivals can
    run. *)
Definition pruneReadings (arrivals : list (Z * Z * UdpCommandMessage)) : list Z :=
  map (fun a => a.1.2) arrivals.

(** The cache is within its bound, or everything in it was within the
    window at one of the given pruning instants. *)
Definition boundedOrFresh (cfg : Settings) (readings : list Z)
    (processed : gmap (list Z) Z) : Prop :=
  (size processed <= MaxRememberedCommandIds)%nat
  \/ Exists (fun utcNow => withinWindowAt cfg utcNow processed) readings.

(** The datagram carried an envelope that parsed, was authorized and was
    not stale. *)
Definition passedChecks `{Runtime} (cfg : Settings) (clk : Clock)
    (buffer : option (list Z)) (command : UdpCommandMessage) : Prop :=
  exists bytes, buffer = Some bytes /\ bytes <> []
    /\ ParseMessage (UTF8_GetString bytes) = Some command
    /\ IsAuthorized cfg command = true
    /\ IsStale cfg (atStaleCheck clk) command = Some false.

(** How often a dispatch invoked the subscriber [h]. *)
Fixpoint invocations (h : Callback) (trace : list Effect) : nat :=
  match trace with
  | [] => 0
  | Invoke h' _ :: rest => (if Nat.eqb h h' then 1 else 0) + invocations h rest
  | _ :: rest => invocations h rest
  end.

(** How often the subscriber [h] is registered in a list of subscribers. *)
Fixpoint registrations (h : Callback) (subscribers : list Callback) : nat :=
  match subscribers with
  | [] => 0
  | h' :: rest => (if Nat.eqb h h' then 1 else 0) + registrations h rest
  end.

(** The subscribers a binding invokes. *)
Definition subscribersOf (b : option UdpCommandBinding) : list Callback :=
  match b with
  | Some binding => onCommand binding ++ RuntimeHandlers binding
  | None => []
  end.

(** The host address an announcement resolves to: the payload's, or the
    observed sender's when the payload omits it (null or blank). *)
Definition announcedAddress (payload : option Announcement.t) (remote : option IPEndPoint)
    : option str :=
  match payload with
  | Some p =>
    if IsNullOrWhiteSpace (Announcement.hostAddress p)
    then option_map (fun r => Reporter.IPAddress_ToString (Address r)) remote
    else Announcement.hostAddress p
  | None => option_map (fun r => Reporter.IPAddress_ToString (Address r)) remote
  end.

(** The host port it resolves to: the payload's when positive, otherwise the
    port configured before. *)
Definition announcedPort (payload : option Announcement.t) (st : Reporter.State) : Z :=
  match payload with
  | Some p => if 0 <? Announcement.hostPort p then Announcement.hostPort p
              else Reporter.hostPort st
  | None => Reporter.hostPort st
  end.

(** The host of the discovery scenario. *)
Definition scenarioHost : IPEndPoint := {| Address := IPv4 10 0 0 5; Port := 4949 |}.

(** Two roster entries agree in every field but [lastSeen]. *)
Definition sameExceptLastSeen (a b : Device.t) : Prop :=
  Device.deviceId a = Device.deviceId b
  /\ Device.deviceName a = Device.deviceName b
  /\ Device.platform a = Device.platform b
  /\ Device.buildVersion a = Device.buildVersion b
  /\ Device.ipv4 a = Device.ipv4 b
  /\ Device.scene a = Device.scene b
  /\ Device.commandPort a = Device.commandPort b
  /\ Device.remoteAddress a = Device.remoteAddress b
  /\ Device.remotePort a = Device.remotePort b
  /\ Device.firstSeen a = Device.firstSeen b.

(** The roster key comes from the record or from the packet, not from the
    size of the roster. *)
Definition keyed (packet : Renderer.Packet) (payload : Incoming.t) : Prop :=
  Js.truthy (Incoming.deviceId payload) = true
  \/ Js.truthy (Renderer.address packet) = true.

(** The entry stored for a record: the one [upsertClient] leaves under the
    record's key. *)
Definition entryAfter (portInput : Js.JsValue) (now : Z) (packet : Renderer.Packet)
    (payload : Incoming.t) (clients : Renderer.Clients) : option Device.t :=
  Renderer.Map_get (Renderer.upsertClient portInput now packet payload clients)
                   (Renderer.keyOf clients packet payload).

(** What every engine's [Array.prototype.sort] does, whatever its
    algorithm: it returns the elements it was given; an array of fewer than
    two elements is returned without a comparison; a comparator that never
    throws makes no sort throw; and since every element of a longer array
    is compared at least once, an element that no comparison survives
    makes the sort throw. *)
Definition lawfulSort (E : Renderer.Engine) : Prop :=
  forall (A : Type) (comparator : A -> A -> option Z) (array : list A),
    (forall sorted, Renderer.Array_sort comparator array = Some sorted -> sorted ≡ₚ array)
    /\ ((length array < 2)%nat -> Renderer.Array_sort comparator array = Some array)
    /\ ((forall a b, a ∈ array -> b ∈ array -> is_Some (comparator a b)) ->
        is_Some (Renderer.Array_sort comparator array))
    /\ ((2 <= length array)%nat ->
        (exists a, a ∈ array
                   /\ forall b, comparator a b = None /\ comparator b a = None) ->
        Renderer.Array_sort comparator array = None).

(** [renderDeviceGrid] gets to its cards: there is no entry, or the sort
    returns. *)
Definition drawn `{Renderer.Engine} (clients : Renderer.Clients) : Prop :=
  clients = [] \/ is_Some (Renderer.ordered clients).

(** An entry the comparator can take on either side: the name it shows is a
    string, and so is its scene, if it has one. *)
Definition sortable `{Renderer.Engine} (device : Device.t) : Prop :=
  is_Some (Renderer.sortName device)
  /\ exists scene, Js.or (Device.scene device) (Js.JsString []) = Js.JsString scene.

End Spec.

(* ===================================================================== *)
(** * Sample data *)
(* ===================================================================== *)

Module Samples.
Import Text Listener.

Definition secret : str := lit "s3cret".

Definition listenerSettings : Settings :=
  {| sharedSecret := Some secret;
     staleCommandWindowSeconds := 5;
     sendAcknowledgement := true |}.

Definition openSettings : Settings :=
  {| sharedSecret := None;
     staleCommandWindowSeconds := 5;
     sendAcknowledgement := true |}.

Definition reporterConfig : Reporter.Config :=
  {| Reporter.sharedSecret := Some secret;
     Reporter.commandPort := 3939;
     Reporter.hostAnnouncementAction := Some (lit "HostAnnouncement");
     Reporter.registerAction := Some (lit "RegisterClient");
     Reporter.registerOnEnable := true;
     Reporter.heartbeatEnabled := true |}.

(** The envelope of the specification's signing scenario. *)
Definition beep : UdpCommandMessage :=
  {| cmdId := Some (lit "8f8d2d86");
     action := Some (lit "Beep");
     payload := Some Empty;
     timestamp := 1700000000000;
     signature := None |}.

Definition beepId : str := lit "8f8d2d86".

(** A heartbeat: sent without a command id. *)
Definition heartbeat : UdpCommandMessage :=
  {| cmdId := None;
     action := Some (lit "Heartbeat");
     payload := Some (lit "{}");
     timestamp := 1700000000000;
     signature := None |}.

(** Two retransmissions of [beep], one and two seconds after second 100. *)
Definition retransmissions : list (Z * Z * UdpCommandMessage) :=
  [(1010000000, 1010000000, beep); (1020000000, 1020000000, beep)].

(** A listener whose staleness window is half a second. *)
Definition subsecondSettings : Settings :=
  {| sharedSecret := None;
     staleCommandWindowSeconds := 1 # 2;
     sendAcknowledgement := true |}.

(** A full cache: the ids [1] to [128], all remembered at second 0. *)
Definition fullCache : gmap (list Z) Z :=
  list_to_map (map (fun i => (Int64_ToString (Z.of_nat i), 0)) (seq 1 128)).

(** JSON text is built from pieces: [quoted s] is [s] between quotation
    marks. *)
Definition quoted (s : string) : str := [34] ++ lit s ++ [34].

Definition beepJson : str :=
  lit "{" ++ quoted "cmdId" ++ lit ":" ++ quoted "8f8d2d86" ++ lit ","
    ++ quoted "action" ++ lit ":" ++ quoted "Beep" ++ lit ","
    ++ quoted "timestamp" ++ lit ":1700000000000}".

(** The same envelope with a signature that is not the right one. *)
Definition forgedJson : str :=
  lit "{" ++ quoted "cmdId" ++ lit ":" ++ quoted "8f8d2d86" ++ lit ","
    ++ quoted "action" ++ lit ":" ++ quoted "Beep" ++ lit ","
    ++ quoted "timestamp" ++ lit ":1700000000000,"
    ++ quoted "signature" ++ lit ":" ++ quoted "AAAA" ++ lit "}".

Definition forged : UdpCommandMessage := withSignature beep (Some (lit "AAAA")).

(** The genuine envelope, as the reporter signs it. *)
Definition signedJson : str :=
  lit "{" ++ quoted "cmdId" ++ lit ":" ++ quoted "8f8d2d86" ++ lit ","
    ++ quoted "action" ++ lit ":" ++ quoted "Beep" ++ lit ","
    ++ quoted "timestamp" ++ lit ":1700000000000,"
    ++ quoted "signature" ++ lit ":"
    ++ quoted "TKK5yH1i9n5nHCjImzxJ6OE3y6kCgaRihS16LfhQtII=" ++ lit "}".

Definition signed : UdpCommandMessage :=
  withSignature beep (Some (lit "TKK5yH1i9n5nHCjImzxJ6OE3y6kCgaRihS16LfhQtII=")).

(** A runtime that decodes ASCII and knows the three texts above. *)
Definition sampleRuntime : Runtime :=
  {| UTF8_GetString := fun bytes => bytes;
     FromJson_UdpCommandMessage := fun json =>
       if bool_decide (json = beepJson) then Parsed (Some beep)
       else if bool_decide (json = forgedJson) then Parsed (Some forged)
       else if bool_decide (json = signedJson) then Parsed (Some signed)
       else ArgumentException |}.

Definition sender : IPEndPoint := {| Address := IPv4 10 0 0 5; Port := 4949 |}.

Definition idle : ListenerState :=
  {| _processedCommands := ∅; _pendingCommands := [] |}.

(** Clock readings at 1700000000 s plus the given number of seconds. *)
Definition clockAt (seconds : Z) : Clock :=
  let t := (1700000000 + seconds) * TicksPerSecond in
  {| atStaleCheck := t; atInsert := t; atPrune := t |}.

(** The envelope of [beep] with its action in lower case. *)
Definition lowerBeep : UdpCommandMessage :=
  {| cmdId := Some beepId;
     action := Some (lit "beep");
     payload := None;
     timestamp := 1700000000000;
     signature := None |}.

(** The lookup after [RegisterHandler("Beep", 1)]. *)
Definition oneBinding : BindingLookup :=
  [(lit "Beep",
    {| Action := Some (lit "Beep"); onCommand := []; RuntimeHandlers := [1%nat] |})].

(** A dispatcher with no generic subscriber and no acknowledgement, so that
    its trace shows the specific handlers only. *)
Definition quietDispatcher (lookup : BindingLookup) : Dispatcher :=
  {| settings := {| sharedSecret := None; staleCommandWindowSeconds := 5;
                    sendAcknowledgement := false |};
     onCommandReceived := [];
     CommandReceived := [];
     _bindingLookup := lookup;
     _ackClient := true |}.

(** A reporter that resolved [HOST-PC], cached its endpoint and
    registered. *)
Definition registered : Reporter.State :=
  {| Reporter.hostAddress := Some (lit "HOST-PC");
     Reporter.hostPort := 4949;
     Reporter.discoveryPort := 4949;
     Reporter.cachedEndpoint := Some {| Address := IPv4 10 0 0 5; Port := 4949 |};
     Reporter.cachedHostAddress := Some (lit "HOST-PC");
     Reporter.udpClient := true;
     Reporter.heartbeatRoutine := true;
     Reporter.hasSentRegistration := true;
     Reporter.hasLoggedMissingHost := false |}.

(** The same host announced in lower case. *)
Definition lowerCaseAnnouncement : Announcement.t :=
  {| Announcement.hostName := Some (lit "dashboard");
     Announcement.hostAddress := Some (lit "host-pc");
     Announcement.hostPort := 4949;
     Announcement.commandPort := 3939 |}.

(** A reporter still probing: host [auto], nothing cached, nothing sent. *)
Definition probing : Reporter.State :=
  {| Reporter.hostAddress := Some (lit "auto");
     Reporter.hostPort := 4949;
     Reporter.discoveryPort := 4949;
     Reporter.cachedEndpoint := None;
     Reporter.cachedHostAddress := None;
     Reporter.udpClient := false;
     Reporter.heartbeatRoutine := false;
     Reporter.hasSentRegistration := false;
     Reporter.hasLoggedMissingHost := true |}.

(** The announcement of the discovery scenario. *)
Definition scenarioAnnouncement : Announcement.t :=
  {| Announcement.hostName := Some (lit "dashboard");
     Announcement.hostAddress := Some (lit "10.0.0.5");
     Announcement.hostPort := 4949;
     Announcement.commandPort := 3939 |}.

(** A resolver that knows the address literal of the scenario. *)
Definition sampleNetwork : Reporter.Network :=
  {| Reporter.Dns_GetHostAddresses := fun name =>
       if bool_decide (name = lit "10.0.0.5") then Some [IPv6 (lit "::1"); IPv4 10 0 0 5]
       else None;
     Reporter.FromJson_HostAnnouncementPayload := fun _ => ArgumentException |}.

Definition sampleEnv : Reporter.Env :=
  {| Reporter.utcNowMilliseconds := 1700000000000;
     Reporter.newCmdId := beepId;
     Reporter.payloadJson := Some (lit "{}");
     Reporter.socketAccepts := true |}.

(** A heartbeat record of device [abc] and the packet that carried it. *)
Definition abcRecord : Incoming.t :=
  {| Incoming.deviceId := Js.JsString (lit "abc");
     Incoming.deviceName := Js.JsUndefined;
     Incoming.platform := Js.JsUndefined;
     Incoming.buildVersion := Js.JsUndefined;
     Incoming.ipv4 := Js.JsUndefined;
     Incoming.scene := Js.JsString (lit "Lobby");
     Incoming.commandPort := Js.JsNumber 3939 |}.

Definition abcPacket : Renderer.Packet :=
  {| Renderer.address := Js.JsString (lit "10.0.0.7");
     Renderer.port := Js.JsNumber 50000 |}.

(** A record without a device id in a packet without an address. *)
Definition namelessRecord : Incoming.t :=
  {| Incoming.deviceId := Js.JsUndefined;
     Incoming.deviceName := Js.JsUndefined;
     Incoming.platform := Js.JsUndefined;
     Incoming.buildVersion := Js.JsUndefined;
     Incoming.ipv4 := Js.JsUndefined;
     Incoming.scene := Js.JsUndefined;
     Incoming.commandPort := Js.JsUndefined |}.

Definition namelessPacket : Renderer.Packet :=
  {| Renderer.address := Js.JsUndefined; Renderer.port := Js.JsUndefined |}.

(** The entry of [abc] after a registration that named the device. *)
Definition abcEntry : Device.t :=
  {| Device.deviceId := Js.JsString (lit "abc");
     Device.deviceName := Js.JsString (lit "Quest");
     Device.platform := Js.JsString (lit "Android");
     Device.buildVersion := Js.JsString (lit "1.0");
     Device.ipv4 := Js.JsString (lit "10.0.0.7");
     Device.scene := Js.JsString (lit "Menu");
     Device.commandPort := Js.JsNumber 3939;
     Device.remoteAddress := Js.JsString (lit "10.0.0.7");
     Device.remotePort := Js.JsNumber 40000;
     Device.firstSeen := 1699999990000;
     Device.lastSeen := 1699999990000 |}.

(** An entry whose record gave a number as the device name. *)
Definition numberedEntry : Device.t :=
  {| Device.deviceId := Js.JsString (lit "n7");
     Device.deviceName := Js.JsNumber 7;
     Device.platform := Js.JsString [];
     Device.buildVersion := Js.JsString [];
     Device.ipv4 := Js.JsString (lit "10.0.0.9");
     Device.scene := Js.JsString [];
     Device.commandPort := Js.JsNumber 3939;
     Device.remoteAddress := Js.JsString (lit "10.0.0.9");
     Device.remotePort := Js.JsNumber 40002;
     Device.firstSeen := 1699999999000;
     Device.lastSeen := 1699999999000 |}.

(** An engine for the examples: Basic Latin case mapping, comparison by code
    unit, and a stable insertion sort that stops at the first comparison
    that throws. *)
Definition asciiToLower (c : char) : char :=
  if (0x41 <=? c) && (c <=? 0x5A) then c + 0x20 else c.

Fixpoint compareOrdinal (a b : str) : Z :=
  match a, b with
  | [], [] => 0
  | [], _ :: _ => -1
  | _ :: _, [] => 1
  | x :: a', y :: b' =>
    if x <? y then -1 else if y <? x then 1 else compareOrdinal a' b'
  end.

Fixpoint insertSorted {A : Type} (comparator : A -> A -> option Z) (x : A)
    (sorted : list A) : option (list A) :=
  match sorted with
  | [] => Some [x]
  | y :: rest =>
    match comparator x y with
    | None => None
    | Some c =>
      if c <=? 0 then Some (x :: sorted)
      else
        match insertSorted comparator x rest with
        | None => None
        | Some placed => Some (y :: placed)
        end
    end
  end.

Fixpoint insertionSort {A : Type} (comparator : A -> A -> option Z) (array : list A)
    : option (list A) :=
  match array with
  | [] => Some []
  | x :: rest =>
    match insertionSort comparator rest with
    | None => None
    | Some sorted => insertSorted comparator x sorted
    end
  end.

Definition sampleEngine : Renderer.Engine :=
  {| Renderer.toLowerCase := map asciiToLower;
     Renderer.localeCompare := compareOrdinal;
     Renderer.Array_sort := @insertionSort |}.

(** A window of 2^30 seconds, thirty-four years, which a [float] holds. *)
Definition wideSettings : Settings :=
  {| sharedSecret := None;
     staleCommandWindowSeconds := 1073741824;
     sendAcknowledgement := false |}.

(** An envelope stamped one second before 1970. *)
Definition beforeEpoch : UdpCommandMessage :=
  {| cmdId := None; action := Some (lit "Beep"); payload := None;
     timestamp := -1; signature := None |}.

(** An envelope stamped 1,000,000,000 seconds after 1970. *)
Definition billion : UdpCommandMessage :=
  {| cmdId := None; action := Some (lit "Beep"); payload := None;
     timestamp := 1000000000; signature := None |}.

End Samples.

(* ===================================================================== *)
(** * UdpCommandListener: handlers, life cycle and the main-thread drain *)
(* ===================================================================== *)

Module Handlers.
Import Text Listener.

(** [RuntimeHandlers -= handler]: the last occurrence of the handler leaves
    the invocation list; a list without it stays as it is. *)
Fixpoint removeFirst (h : Callback) (l : list Callback) : list Callback :=
  match l with
  | [] => []
  | x :: rest => if Nat.eqb x h then rest else x :: removeFirst h rest
  end.

Definition removeLast (h : Callback) (l : list Callback) : list Callback :=
  rev (removeFirst h (rev l)).

Definition dropRuntimeHandler (handler : Callback) (b : UdpCommandBinding)
    : UdpCommandBinding :=
  {| Action := Action b; onCommand := onCommand b;
     RuntimeHandlers := removeLast handler (RuntimeHandlers b) |}.

(** [UnregisterHandler(action, handler)] *)
Definition UnregisterHandler `{CaseMap} (action : option str) (handler : Callback)
    (lookup : BindingLookup) : BindingLookup :=
  match action with
  | None | Some [] => lookup
  | Some name =>
    match TryGetValue lookup name with
    | Some _ => update lookup name (dropRuntimeHandler handler)
    | None => lookup
    end
  end.

(** The first serialized binding that is there, has an action that is not
    blank, and whose action equals [key] up to letter case. *)
Fixpoint firstUsable `{CaseMap} (key : str) (bindings : list (option UdpCommandBinding))
    : option UdpCommandBinding :=
  match bindings with
  | [] => None
  | Some binding :: rest =>
    match Action binding with
    | Some name =>
      if negb (IsNullOrWhiteSpace (Some name)) && OrdinalIgnoreCase_eqb name key
      then Some binding
      else firstUsable key rest
    | None => firstUsable key rest
    end
  | None :: rest => firstUsable key rest
  end.

(** No two keys of the dictionary are equal up to letter case. *)
Fixpoint distinctKeys `{CaseMap} (lookup : BindingLookup) : Prop :=
  match lookup with
  | [] => True
  | (k, _) :: rest =>
    Forall (fun kb => OrdinalIgnoreCase_eqb k kb.1 = false) rest /\ distinctKeys rest
  end.

End Handlers.

Module Lifecycle.
Import Text Listener.






(** The loop of [Update()]: the queue is dispatched front to back; [clock i]
    is the reading of the clock while the [i]-th command is dispatched.  A
    command without an action makes the dictionary throw: the exception
    leaves [Update], and the commands behind it stay queued. *)
Fixpoint dispatchFrom `{CaseMap} (d : Dispatcher) (clock : nat -> Z) (i : nat)
    (queue : list PendingCommand) : list Effect * list PendingCommand :=
  match queue with
  | [] => ([], [])
  | pending :: rest =>
    let effects := DispatchCommand d (clock i) pending in
    match action (Message pending) with
    | None => (effects, rest)
    | Some _ =>
      let '(more, behind) := dispatchFrom d clock (S i) rest in
      (effects ++ more, behind)
    end
  end.

Definition Update `{CaseMap} (d : Dispatcher) (clock : nat -> Z) (st : ListenerState)
    : list Effect * ListenerState :=
  let '(effects, behind) := dispatchFrom d clock 0 (_pendingCommands st) in
  (effects, {| _processedCommands := _processedCommands st; _pendingCommands := behind |}).

(** Several turns of [ListenLoop], one datagram each. *)
Fixpoint ListenLoop `{Runtime} (cfg : Settings)
    (arrivals : list (Clock * option (list byte) * IPEndPoint))
    (st : ListenerState) : list Disposition * ListenerState :=
  match arrivals with
  | [] => ([], st)
  | (clk, buffer, remote) :: rest =>
    let '(d, st1) := ListenIteration cfg clk buffer remote st in
    let '(ds, st2) := ListenLoop cfg rest st1 in
    (d :: ds, st2)
  end.

(** What a queued command is known to satisfy. *)
Definition wellFormed (cfg : Settings) (pending : PendingCommand) : Prop :=
  IsNullOrEmpty (action (Message pending)) = false
  /\ IsAuthorized cfg (Message pending) = true
  /\ is_Some (RemoteEndPoint pending).

(** The arrivals that [ListenLoop] reported as enqueued, in their order. *)
Definition isEnqueued (d : Disposition) : bool :=
  match d with Enqueued => true | _ => false end.

Definition enqueuedArrivals (dispositions : list Disposition)
    (arrivals : list (Clock * option (list byte) * IPEndPoint))
    : list (Clock * option (list byte) * IPEndPoint) :=
  map snd (List.filter (fun da => isEnqueued da.1) (combine dispositions arrivals)).


(** The acknowledgements among the effects of a dispatch. *)
Fixpoint acknowledgements (trace : list Effect)
    : list (IPEndPoint * UdpCommandAcknowledgement) :=
  match trace with
  | [] => []
  | Acknowledge target ack :: rest => (target, ack) :: acknowledgements rest
  | _ :: rest => acknowledgements rest
  end.

End Lifecycle.

(** [SingletonBehaviour<T>]: objects are numbered; [Destroy] is recorded. *)
Module Singleton.

Record World := {
  Instance : option nat;
  destroyed : list nat
}.

(** [Awake()] of the object [this]. *)
Definition Awake (this : nat) (w : World) : World :=
  match Instance w with
  | Some other =>
    if negb (Nat.eqb other this)
    then {| Instance := Instance w; destroyed := this :: destroyed w |}
    else {| Instance := Some this; destroyed := destroyed w |}
  | None => {| Instance := Some this; destroyed := destroyed w |}
  end.

(** [OnDestroy()] of the object [this]. *)
Definition OnDestroy (this : nat) (w : World) : World :=
  match Instance w with
  | Some other =>
    if Nat.eqb other this
    then {| Instance := None; destroyed := destroyed w |}
    else w
  | None => w
  end.

(** [IsPrimaryInstance] *)
Definition IsPrimaryInstance (this : nat) (w : World) : bool :=
  match Instance w with
  | Some other => Nat.eqb other this
  | None => false
  end.

Inductive Event :=
| Awakes (this : nat)
| Destroyed (this : nat).

Definition step (w : World) (e : Event) : World :=
  match e with
  | Awakes this => Awake this w
  | Destroyed this => OnDestroy this w
  end.

Definition run (events : list Event) (w : World) : World := fold_left step events w.

End Singleton.

(* ===================================================================== *)
(** * UdpClientReporter: discovery *)
(* ===================================================================== *)

Module Discovery.
Import Text Listener Reporter.

(** The serialized fields [DiscoverHostAsync] reads besides those of
    [Reporter.Config]. *)
Record DiscoverySettings := {
  discoveryAction : option str;
  maxDiscoveryAttempts : Z
}.

(** [IPAddress.Broadcast] *)
Definition Broadcast : IPAddress := IPv4 255 255 255 255.

(** What one turn of the attempt loop meets: the socket cannot be made or
    the probe not sent, the wait for a reply runs out, the receive fails, or
    a datagram arrives. *)
Inductive Attempt :=
| SendThrew
| TimedOut
| ReceiveThrew
| Received (buffer : list byte) (remote : IPEndPoint).

(** The probe of [DiscoverHostAsync]: no command id, no signature. *)
Definition requestMessage (ds : DiscoverySettings) (env : Env) (json : str) : UdpCommandMessage :=
  {| cmdId := None;
     action := discoveryAction ds;
     payload := Some json;
     timestamp := utcNowMilliseconds env;
     signature := None |}.

(** What the loop does with a datagram it received. *)
Definition acceptReply `{CaseMap} `{Runtime} `{Network} (cfg : Config)
    (buffer : list byte) (remote : IPEndPoint) (st : State) : bool * State :=
  match FromJson_UdpCommandMessage (UTF8_GetString buffer) with
  | ArgumentException => (false, st)
  | Parsed None => (false, st)
  | Parsed (Some responseMessage) =>
    if negb (Equals_OrdinalIgnoreCase (action responseMessage) (hostAnnouncementAction cfg))
    then (false, st)
    else
      let announcement :=
        if negb (IsNullOrEmpty (payload responseMessage)) then
          match FromJson_HostAnnouncementPayload (coalesce (payload responseMessage) Empty) with
          | Parsed p => p
          | ArgumentException => None
          end
        else None in
      ApplyHostAnnouncement announcement (Some remote) st
  end.

(** The loop [for (attempt = 0; attempt < maxDiscoveryAttempts; attempt++)],
    with the probes it sent. *)
Fixpoint attempts `{CaseMap} `{Runtime} `{Network} (cfg : Config) (probe : Datagram)
    (remaining : nat) (attempt : nat) (outcome : nat -> Attempt) (st : State)
    : bool * State * list Datagram :=
  match remaining with
  | O => (false, st, [])
  | S remaining' =>
    match outcome attempt with
    | SendThrew => attempts cfg probe remaining' (S attempt) outcome st
    | TimedOut | ReceiveThrew =>
      let '(found, st', out) := attempts cfg probe remaining' (S attempt) outcome st in
      (found, st', probe :: out)
    | Received buffer remote =>
      let '(applied, st1) := acceptReply cfg buffer remote st in
      if applied then (true, st1, [probe])
      else
        let '(found, st', out) := attempts cfg probe remaining' (S attempt) outcome st1 in
        (found, st', probe :: out)
    end
  end.

(** [DiscoverHostAsync()]; [None] is a faulted call: the request cannot be
    serialized, or [discoveryPort] is no port number. *)
Definition DiscoverHostAsync `{CaseMap} `{Runtime} `{Network} (cfg : Config)
    (ds : DiscoverySettings) (env : Env) (outcome : nat -> Attempt) (st : State)
    : option (bool * State * list Datagram) :=
  match payloadJson env with
  | None => None
  | Some json =>
    if (discoveryPort st <? 0) || (65535 <? discoveryPort st) then None
    else
      let broadcastEndpoint := {| Address := Broadcast; Port := discoveryPort st |} in
      let probe := {| target := broadcastEndpoint; sent := requestMessage ds env json |} in
      Some (attempts cfg probe (Z.to_nat (maxDiscoveryAttempts ds)) 0 outcome st)
  end.

(** What a successful discovery leaves behind: a host address that is not
    blank, the discovery port moved to the host port, the missing-host
    warning armed again; the socket and the heartbeat are not touched. *)
Definition discovered (st st' : State) : Prop :=
  IsNullOrWhiteSpace (hostAddress st') = false
  /\ discoveryPort st' = hostPort st'
  /\ hasLoggedMissingHost st' = false
  /\ udpClient st' = udpClient st
  /\ heartbeatRoutine st' = heartbeatRoutine st.

End Discovery.

(* ===================================================================== *)
(** * The dashboard: selection, statistics, log and the send loop *)
(* ===================================================================== *)

Module Dashboard.
Import Text Js Renderer.

(** ** Selection *)

(** [selectedDevices.add(key)]: a [Set] keeps one copy, in insertion
    order. *)
Definition add (selectedDevices : list JsValue) (key : JsValue) : list JsValue :=
  if has selectedDevices key then selectedDevices else selectedDevices ++ [key].

(** [toggleDeviceSelection(key)]; [now] is its own reading of the clock,
    [renderNow] the one [renderDeviceGrid] takes afterwards.  The result is
    the selection the call leaves, also when the rendering throws. *)
Definition toggleDeviceSelection `{Engine} (now renderNow : Z) (key : JsValue)
    (clients : Clients)
    (selectedDevices : list JsValue) : list JsValue :=
  match Map_get clients key with
  | None => (renderDeviceGrid renderNow clients (remove selectedDevices key)).2
  | Some device =>
    if isOffline now device then selectedDevices
    else
      (renderDeviceGrid renderNow clients
         (if has selectedDevices key then remove selectedDevices key
          else add selectedDevices key)).2
  end.

(** [selectAllDevices()] *)
Definition selectAllDevices `{Engine} (now renderNow : Z) (clients : Clients)
    (selectedDevices : list JsValue) : list JsValue :=
  (renderDeviceGrid renderNow clients
     (fold_left (fun selection entry =>
                   if isOnline now entry.2 then add selection entry.1 else selection)
                clients selectedDevices)).2.

(** ** Statistics *)

Record Stats := {
  onlineCount : Z;
  offlineCount : Z;
  selectAllDisabled : bool;
  clearSelectionDisabled : bool
}.

(** [updateDeviceStats()], with the reading [now] of the clock. *)
Definition updateDeviceStats (now : Z) (clients : Clients) (selectedDevices : list JsValue)
    : Stats :=
  let offlineCount :=
    fold_left (fun count entry => if isOffline now entry.2 then count + 1 else count)
              clients 0 in
  let size := Z.of_nat (length clients) in
  let onlineCount := size - offlineCount in
  {| onlineCount := onlineCount;
     offlineCount := offlineCount;
     selectAllDisabled :=
       (size =? 0) || (Z.of_nat (length selectedDevices) >=? onlineCount);
     clearSelectionDisabled := Z.of_nat (length selectedDevices) =? 0 |}.

(** ** Relative time *)

(** The text for a value that is no finite number. *)
Definition unknownText : str := [0x672A; 0x77E5].

(** A count, its unit and the suffix of the source. *)
Definition ago (count : Z) (unit : string) : str :=
  Int64_ToString count ++ lit unit ++ [0x20; 0x524D].

(** [formatRelativeTime(timestamp)] on the values a device entry can hold
    in [lastSeen]; [now] is [Date.now()]. *)
Definition formatRelativeTime (now : Z) (timestamp : JsValue) : str :=
  match timestamp with
  | JsNumber t =>
    let deltaSeconds := Z.max 0 ((now - t) / 1000) in
    if deltaSeconds <? 60 then ago deltaSeconds "s"
    else
      let deltaMinutes := deltaSeconds / 60 in
      if deltaMinutes <? 60 then ago deltaMinutes "m"
      else
        let deltaHours := deltaMinutes / 60 in
        if deltaHours <? 24 then ago deltaHours "h"
        else ago (deltaHours / 24) "d"
  | _ => unknownText
  end.

(** ** The log *)

Definition MAX_LOG_ENTRIES : nat := 200.

(** The loop [while (childElementCount > MAX_LOG_ENTRIES) removeChild(lastChild)];
    [fuel] bounds its turns. *)
Fixpoint dropExcess {A : Type} (fuel : nat) (log : list A) : list A :=
  match fuel with
  | O => log
  | S fuel' =>
    if (MAX_LOG_ENTRIES <? length log)%nat then dropExcess fuel' (removelast log)
    else log
  end.

(** [appendLog]: the children of the log container, newest first. *)
Definition appendLog {A : Type} (entry : A) (log : list A) : list A :=
  dropExcess (S (length log)) (entry :: log).

(** ** Sending to the selected devices *)

(** The white space and line terminators [String.prototype.trim] strips. *)
Definition isJsWhiteSpace (c : char) : bool :=
  ((0x09 <=? c) && (c <=? 0x0D)) || (c =? 0x20) || (c =? 0xA0) || (c =? 0x1680)
  || ((0x2000 <=? c) && (c <=? 0x200A)) || (c =? 0x2028) || (c =? 0x2029)
  || (c =? 0x202F) || (c =? 0x205F) || (c =? 0x3000) || (c =? 0xFEFF).

Fixpoint trimStart (s : str) : str :=
  match s with
  | [] => []
  | c :: rest => if isJsWhiteSpace c then trimStart rest else s
  end.

Definition trim (s : str) : str := rev (trimStart (rev (trimStart s))).

(** [(device.ipv4 || device.remoteAddress || '').trim()]; [None] is the
    [TypeError] of calling [trim] on a value that is no string. *)
Definition hostOf (device : Device.t) : option str :=
  match or (or (Device.ipv4 device) (Device.remoteAddress device)) (JsString []) with
  | JsString s => Some (trim s)
  | _ => None
  end.

(** [Number.isInteger(device.commandPort) ? device.commandPort : port] *)
Definition devicePortOf (port : Z) (device : Device.t) : Z :=
  match Device.commandPort device with
  | JsNumber n => n
  | _ => port
  end.

(** The host and port of one [sendCommand] request; the other fields are
    those of the form for every target. *)
Record Target := { host : str; port : Z }.

(** What the loop appends to the log for a device. *)
Inductive Note :=
| Skipped (device : Device.t)
| Delivered (device : Device.t) (target : Target)
| Failed (device : Device.t) (target : Target).

Record Tally := {
  successCount : nat;
  failures : nat;
  notes : list Note
}.

Inductive LoopResult :=
| Completed (tally : Tally)
| TypeError (tally : Tally).

(** The loop [for (const device of selectedTargets)]; [sendCommand i t]
    tells whether the request for the [i]-th target was fulfilled. *)
Fixpoint sendToTargets (sendCommand : nat -> Target -> bool) (port : Z) (i : nat)
    (targets : list Device.t) (tally : Tally) : LoopResult :=
  match targets with
  | [] => Completed tally
  | device :: rest =>
    match hostOf device with
    | None => TypeError tally
    | Some host =>
      let devicePort := devicePortOf port device in
      if bool_decide (host = [])
      then sendToTargets sendCommand port (S i) rest
             {| successCount := successCount tally;
                failures := S (failures tally);
                notes := notes tally ++ [Skipped device] |}
      else
        let target := {| host := host; port := devicePort |} in
        if sendCommand i target
        then sendToTargets sendCommand port (S i) rest
               {| successCount := S (successCount tally);
                  failures := failures tally;
                  notes := notes tally ++ [Delivered device target] |}
        else sendToTargets sendCommand port (S i) rest
               {| successCount := successCount tally;
                  failures := S (failures tally);
                  notes := notes tally ++ [Failed device target] |}
    end
  end.

Definition tallyOf (r : LoopResult) : Tally :=
  match r with Completed t | TypeError t => t end.

(** The requests the loop made, in order. *)
Fixpoint requests (notes : list Note) : list Target :=
  match notes with
  | [] => []
  | Skipped _ :: rest => requests rest
  | Delivered _ t :: rest | Failed _ t :: rest => t :: requests rest
  end.

(** The request a device is due, if it has an address. *)
Definition requestFor (port : Z) (device : Device.t) : option Target :=
  match hostOf device with
  | Some [] => None
  | Some host => Some {| host := host; port := devicePortOf port device |}
  | None => None
  end.

End Dashboard.

(* ===================================================================== *)
(** * The host process: the [udp:send] handler *)
(* ===================================================================== *)

Module Host.
Import Text Crypto Listener.

(** The request, with the types the renderer gives its fields. *)
Record Request := {
  host : str;
  port : Z;
  action : str;
  payload : str;
  includeCmdId : bool;
  cmdId : str;
  sharedSecret : str;
  timestamp : Z;
  forcePayloadField : bool
}.

(** The message object; a field that was not set is [None]. *)
Record Message := {
  m_action : str;
  m_timestamp : Z;
  m_payload : option str;
  m_cmdId : option str;
  m_signature : option str
}.

Inductive Reply :=
| Sent (targetHost : str) (port : Z) (message : Message)
| Error (text : str).

(** [Number.parseInt(text, 10)]: leading white space is skipped, a sign is
    read, and the digits that follow, as many as there are, are the value;
    [None] is [NaN], of a text that has no digit there.  The value is the
    number nearest to the integer read; one beyond the largest number,
    which is read as [Infinity], stays beyond every bound it is tested
    against. *)
Definition isDigit (c : char) : bool := (48 <=? c) && (c <=? 57).

Fixpoint leadingDigits (s : str) : str :=
  match s with
  | [] => []
  | c :: rest => if isDigit c then c :: leadingDigits rest else []
  end.

Definition digitsValue (digits : str) : Z :=
  fold_left (fun value c => value * 10 + (c - 48)) digits 0.

Definition parseInt10 (text : str) : option Z :=
  let s := Dashboard.trimStart text in
  let '(negative, unsigned) :=
    match s with
    | 45 :: rest => (true, rest)
    | 43 :: rest => (false, rest)
    | _ => (false, s)
    end in
  match leadingDigits unsigned with
  | [] => None
  | digits =>
    let value := roundDouble (digitsValue digits) in
    Some (if negative then - value else value)
  end.

(** The handler up to the socket; [randomId] is
    [randomUUID().slice(0, 8)].  The port is what [Number.parseInt] reads
    in the text of [request.port]; the message goes to that port of the
    trimmed host, its timestamp printed as a number is. *)
Definition udpSend (randomId : str) (request : Request) : Reply :=
  let targetHost := Dashboard.trim (host request) in
  let port := parseInt10 (Js.Number_toString (port request)) in
  let action := Dashboard.trim (action request) in
  let explicitCmdId := Dashboard.trim (cmdId request) in
  if bool_decide (targetHost = []) then Error (lit "Target host is required.")
  else
    match port with
    | None => Error (lit "Port must be between 1 and 65535.")
    | Some port =>
      if (port <? 1) || (65535 <? port)
      then Error (lit "Port must be between 1 and 65535.")
      else if bool_decide (action = []) then Error (lit "Action is required.")
      else
        let payloadField :=
          if (0 <? length (payload request))%nat || forcePayloadField request
          then Some (payload request) else None in
        let cmdIdField :=
          if includeCmdId request
          then Some (if bool_decide (explicitCmdId = []) then randomId else explicitCmdId)
          else None in
        let signatureField :=
          if bool_decide (sharedSecret request = []) then None
          else
            let canonical :=
              action ++ lit "|" ++ coalesce payloadField Empty ++ lit "|"
                ++ Js.Number_toString (timestamp request) in
            Some (ToBase64String (HMACSHA256 (UTF8_GetBytes (sharedSecret request))
                                             (UTF8_GetBytes canonical))) in
        Sent targetHost port
             {| m_action := action; m_timestamp := timestamp request;
                m_payload := payloadField; m_cmdId := cmdIdField;
                m_signature := signatureField |}
    end.

(** A test passed by [count] integers in a row, from [start] on. *)
Fixpoint passedFrom (test : Z -> bool) (start : Z) (count : nat) : bool :=
  match count with
  | O => true
  | S count' => test start && passedFrom test (start + 1) count'
  end.

(** The text of the timestamp in [JSON.stringify(message)]. *)
Definition timestampText (m : Message) : str := Js.Number_toString (m_timestamp m).

(** The envelope [JsonUtility.FromJson] makes of the message; [timestamp]
    is the [long] it reads in the text of the timestamp.  A field the text
    does not have stays [null]. *)
Definition asReceived (timestamp : Z) (m : Message) : UdpCommandMessage :=
  {| Listener.cmdId := m_cmdId m;
     Listener.action := Some (m_action m);
     Listener.payload := m_payload m;
     Listener.timestamp := timestamp;
     Listener.signature := m_signature m |}.

End Host.

Module MoreSamples.
Import Text Listener Samples.





(** A binding made in the inspector, with listener 7 on [onCommand] and
    the runtime handler 1 registered twice. *)
Definition inspectorBinding : UdpCommandBinding :=
  {| Action := Some (lit "Beep"); onCommand := [7%nat];
     RuntimeHandlers := [1%nat; 2%nat; 1%nat] |}.

(** A dispatcher with handler 1 bound to [Beep], acknowledgements on. *)
Definition beepDispatcher : Dispatcher :=
  {| settings := listenerSettings;
     onCommandReceived := [];
     CommandReceived := [];
     _bindingLookup := oneBinding;
     _ackClient := true |}.

(** The payloads of two announcements, and a library that parses them. *)
Definition scenarioPayload : str :=
  lit "{" ++ quoted "hostAddress" ++ lit ":" ++ quoted "10.0.0.5" ++ lit ","
    ++ quoted "hostPort" ++ lit ":4949}".

Definition lowerCasePayload : str :=
  lit "{" ++ quoted "hostAddress" ++ lit ":" ++ quoted "host-pc" ++ lit ","
    ++ quoted "hostPort" ++ lit ":4949}".

Definition announcingNetwork : Reporter.Network :=
  {| Reporter.Dns_GetHostAddresses := fun name =>
       if bool_decide (name = lit "10.0.0.5") then Some [IPv6 (lit "::1"); IPv4 10 0 0 5]
       else None;
     Reporter.FromJson_HostAnnouncementPayload := fun json =>
       if bool_decide (json = scenarioPayload) then Parsed (Some scenarioAnnouncement)
       else if bool_decide (json = lowerCasePayload) then Parsed (Some lowerCaseAnnouncement)
       else ArgumentException |}.

(** A resolver that fails for every name. *)
Definition offlineNetwork : Reporter.Network :=
  {| Reporter.Dns_GetHostAddresses := fun _ => None;
     Reporter.FromJson_HostAnnouncementPayload := fun _ => ArgumentException |}.

(** An announcement without signature and with a timestamp of long ago. *)
Definition unsignedAnnouncement (text : str) : UdpCommandMessage :=
  {| cmdId := None;
     action := Some (lit "hostannouncement");
     payload := Some text;
     timestamp := 0;
     signature := None |}.

(** The text of that announcement with [scenarioPayload] as its payload;
    inside the payload string every quotation mark is escaped. *)
Definition escaped (s : string) : str := [92; 34] ++ lit s ++ [92; 34].

Definition replyJson : str :=
  lit "{" ++ quoted "action" ++ lit ":" ++ quoted "hostannouncement" ++ lit ","
    ++ quoted "payload" ++ lit ":" ++ [34]
    ++ lit "{" ++ escaped "hostAddress" ++ lit ":" ++ escaped "10.0.0.5" ++ lit ","
    ++ escaped "hostPort" ++ lit ":4949}" ++ [34] ++ lit ","
    ++ quoted "timestamp" ++ lit ":0}".

(** A runtime that reads [replyJson] as the unsigned announcement of the
    scenario. *)
Definition discoveryRuntime : Runtime :=
  {| UTF8_GetString := fun bytes => bytes;
     FromJson_UdpCommandMessage := fun json =>
       if bool_decide (json = replyJson) then Parsed (Some (unsignedAnnouncement scenarioPayload))
       else ArgumentException |}.

Definition discoverySettings : Discovery.DiscoverySettings :=
  {| Discovery.discoveryAction := Some (lit "DiscoverHost");
     Discovery.maxDiscoveryAttempts := 3 |}.

(** Some machine on the network that is not the dashboard. *)
Definition stranger : IPEndPoint := {| Address := IPv4 192 168 1 66; Port := 5555 |}.

Definition silence : nat -> Discovery.Attempt := fun _ => Discovery.TimedOut.

Definition strangerAnswers : nat -> Discovery.Attempt :=
  fun attempt =>
    match attempt with
    | O => Discovery.Received replyJson stranger
    | _ => Discovery.TimedOut
    end.

(** A reporter that knows its host by address and has resolved nothing. *)
Definition configured : Reporter.State :=
  {| Reporter.hostAddress := Some (lit "10.0.0.5");
     Reporter.hostPort := 4949;
     Reporter.discoveryPort := 4949;
     Reporter.cachedEndpoint := None;
     Reporter.cachedHostAddress := None;
     Reporter.udpClient := false;
     Reporter.heartbeatRoutine := false;
     Reporter.hasSentRegistration := false;
     Reporter.hasLoggedMissingHost := false |}.

(** A second device, heard of ten seconds after [abc]. *)
Definition xyzEntry : Device.t :=
  {| Device.deviceId := Js.JsString (lit "xyz");
     Device.deviceName := Js.JsString (lit "Pico");
     Device.platform := Js.JsString (lit "Android");
     Device.buildVersion := Js.JsString (lit "1.0");
     Device.ipv4 := Js.JsString (lit " 10.0.0.8 ");
     Device.scene := Js.JsString (lit "Lobby");
     Device.commandPort := Js.JsNumber 4000;
     Device.remoteAddress := Js.JsString (lit "10.0.0.8");
     Device.remotePort := Js.JsNumber 40001;
     Device.firstSeen := 1700000000000;
     Device.lastSeen := 1700000000000 |}.

(** A device that reported a number as its address. *)
Definition oddEntry : Device.t :=
  {| Device.deviceId := Js.JsString (lit "odd");
     Device.deviceName := Js.JsString (lit "odd");
     Device.platform := Js.JsString [];
     Device.buildVersion := Js.JsString [];
     Device.ipv4 := Js.JsNumber 5;
     Device.scene := Js.JsString [];
     Device.commandPort := Js.JsNumber 3939;
     Device.remoteAddress := Js.JsString (lit "10.0.0.9");
     Device.remotePort := Js.JsNumber 40002;
     Device.firstSeen := 1700000000000;
     Device.lastSeen := 1700000000000 |}.

Definition roster : Renderer.Clients :=
  [(Js.JsString (lit "abc"), abcEntry); (Js.JsString (lit "xyz"), xyzEntry)].

(** The roster after a record that gave the number 7 as its device name. *)
Definition numberedRoster : Renderer.Clients :=
  [(Js.JsString (lit "abc"), abcEntry); (Js.JsString (lit "n7"), numberedEntry)].

(** Five seconds after [xyz] was heard of, fifteen after [abc]. *)
Definition dashboardNow : Z := 1700000005000.

(** A request whose port is the number 10^21 and whose timestamp is 2^60,
    as a record that gave [1e21] as its command port and a form that gave
    a long timestamp make it. *)
Definition largeRequest : Host.Request :=
  {| Host.host := lit "10.0.0.8";
     Host.port := 10 ^ 21;
     Host.action := lit "Beep";
     Host.payload := [];
     Host.includeCmdId := false;
     Host.cmdId := [];
     Host.sharedSecret := secret;
     Host.timestamp := 2 ^ 60;
     Host.forcePayloadField := false |}.

(** A request of the form: action and host padded with blanks. *)
Definition beepRequest : Host.Request :=
  {| Host.host := lit " 10.0.0.8 ";
     Host.port := 3939;
     Host.action := lit " Beep ";
     Host.payload := [];
     Host.includeCmdId := true;
     Host.cmdId := [];
     Host.sharedSecret := secret;
     Host.timestamp := 1700000000000;
     Host.forcePayloadField := false |}.

End MoreSamples.

(* ===================================================================== *)
(** * Sanity checks of the library part against known values *)
(* ===================================================================== *)

Module Checks.
Import Text Crypto.

(** FIPS 180-4, the digest of the three bytes of [abc]. *)
Example SHA256_abc :
  SHA256 (UTF8_GetBytes (lit "abc")) =
  [0xBA; 0x78; 0x16; 0xBF; 0x8F; 0x01; 0xCF; 0xEA; 0x41; 0x41; 0x40; 0xDE;
   0x5D; 0xAE; 0x22; 0x23; 0xB0; 0x03; 0x61; 0xA3; 0x96; 0x17; 0x7A; 0x9C;
   0xB4; 0x10; 0xFF; 0x61; 0xF2; 0x00; 0x15; 0xAD].
Proof. vm_compute. reflexivity. Qed.

(** RFC 4231, test case 2. *)
Example HMACSHA256_rfc4231_2 :
  HMACSHA256 (UTF8_GetBytes (lit "Jefe"))
             (UTF8_GetBytes (lit "what do ya want for nothing?")) =
  [0x5B; 0xDC; 0xC1; 0x46; 0xBF; 0x60; 0x75; 0x4E; 0x6A; 0x04; 0x24; 0x26;
   0x08; 0x95; 0x75; 0xC7; 0x5A; 0x00; 0x3F; 0x08; 0x9D; 0x27; 0x39; 0x83;
   0x9D; 0xEC; 0x58; 0xB9; 0x64; 0xEC; 0x38; 0x43].
Proof. vm_compute. reflexivity. Qed.

(** RFC 4648, section 10. *)
Example ToBase64String_foobar :
  ToBase64String (UTF8_GetBytes (lit "foobar")) = lit "Zm9vYmFy"
  /\ ToBase64String (UTF8_GetBytes (lit "fooba")) = lit "Zm9vYmE="
  /\ ToBase64String (UTF8_GetBytes (lit "foob")) = lit "Zm9vYg==".
Proof. vm_compute. repeat split. Qed.

(** A two-byte character, a surrogate pair and a lone surrogate. *)
Example UTF8_GetBytes_samples :
  UTF8_GetBytes [0xE9; 0xD83D; 0xDE00; 0xD800; 0x41] =
  [0xC3; 0xA9; 0xF0; 0x9F; 0x98; 0x80; 0xEF; 0xBF; 0xBD; 0x41].
Proof. vm_compute. reflexivity. Qed.

End Checks.

(* ===================================================================== *)
(** * Authentication *)
(* ===================================================================== *)

Section Authentication.
Import Text Crypto Listener.

Lemma accumulate_zero (a : str) : forall (b : str) (r : Z),
  length a = length b ->
  accumulate r a b = 0 <-> r = 0 /\ a = b.
Proof.
  induction a as [|x a IH]; intros [|y b] r Hlen; simpl in *; try discriminate.
  - intuition.
  - injection Hlen as Hlen. rewrite (IH b _ Hlen), Z.lor_eq_0_iff, Z.lxor_eq_0_iff.
    split.
    + intros [[-> ->] ->]. auto.
    + intros [-> Heq]. injection Heq as -> ->. auto.
Qed.

(** The comparison of [CryptographicEquals] accepts exactly equal strings. *)
Lemma CryptographicEquals_spec (a b : option str) :
  CryptographicEquals a b = true <-> exists s, a = Some s /\ b = Some s.
Proof.
  destruct a as [a|], b as [b|]; simpl;
    try (split; [discriminate | intros (s & ? & ?); discriminate]).
  destruct (Nat.eqb (length a) (length b)) eqn:Hlen; simpl.
  - apply Nat.eqb_eq in Hlen. rewrite Z.eqb_eq, (accumulate_zero a b 0 Hlen).
    split.
    + intros [_ ->]. eauto.
    + intros (s & [= ->] & [= ->]). auto.
  - apply Nat.eqb_neq in Hlen. split; [discriminate|].
    intros (s & [= ->] & [= ->]). contradiction.
Qed.

Lemma ToBase64String_nonempty (bs : list byte) :
  bs <> [] -> ToBase64String bs <> [].
Proof. destruct bs as [|a [|b [|c rest]]]; simpl; congruence. Qed.

Lemma SHA256_nonempty (msg : list byte) : SHA256 msg <> [].
Proof. unfold SHA256, digestBytes, bytesOfWord. simpl. discriminate. Qed.

Lemma HMACSHA256_nonempty (key data : list byte) : HMACSHA256 key data <> [].
Proof. unfold HMACSHA256. apply SHA256_nonempty. Qed.

(** Signer and verifier build the same canonical string. *)
Lemma ComputeSignature_canonical (rc : Reporter.Config) (m : UdpCommandMessage) :
  Reporter.ComputeSignature rc m =
  ToBase64String
    (HMACSHA256 (UTF8_GetBytes (coalesce (Reporter.sharedSecret rc) Empty))
                (UTF8_GetBytes (canonical m))).
Proof. reflexivity. Qed.

Lemma ComputeSignature_withSignature rc m sig :
  Reporter.ComputeSignature rc (withSignature m sig) = Reporter.ComputeSignature rc m.
Proof. reflexivity. Qed.

Lemma ComputeSignature_nonempty rc m :
  IsNullOrEmpty (Some (Reporter.ComputeSignature rc m)) = false.
Proof.
  pose proof (ToBase64String_nonempty _
    (HMACSHA256_nonempty (UTF8_GetBytes (coalesce (Reporter.sharedSecret rc) Empty))
                         (UTF8_GetBytes (canonical m)))) as Hne.
  rewrite ComputeSignature_canonical. simpl.
  destruct (ToBase64String _); congruence.
Qed.

(** With a secret configured, [IsAuthorized] holds exactly of the envelopes
    that carry the signature the sender computes with that secret. *)
Lemma IsAuthorized_iff (cfg : Settings) (rc : Reporter.Config) (m : UdpCommandMessage) :
  IsNullOrEmpty (sharedSecret cfg) = false ->
  Reporter.sharedSecret rc = sharedSecret cfg ->
  IsAuthorized cfg m = true <-> signature m = Some (Reporter.ComputeSignature rc m).
Proof.
  intros Hsecret Hsame. unfold IsAuthorized. rewrite Hsecret.
  rewrite ComputeSignature_canonical, Hsame.
  destruct (IsNullOrEmpty (signature m)) eqn:Hsig.
  - split; [discriminate|]. intros Heq. rewrite Heq in Hsig.
    rewrite <- Hsame, <- ComputeSignature_canonical, ComputeSignature_nonempty in Hsig.
    discriminate.
  - rewrite CryptographicEquals_spec. split.
    + intros (s & [= <-] & ->). reflexivity.
    + intros ->. eauto.
Qed.

(** C1. For every envelope and every non-empty shared secret, the envelope
    that carries the signature [ComputeSignature] produces (the base64 of the
    HMAC-SHA256 of [action|payload|timestamp], an absent payload
    counting as empty) is accepted by [IsAuthorized]; an envelope with any
    other signature, or none, is rejected. *)
Theorem IsAuthorized_accepts_exactly_ComputeSignature
    (cfg : Settings) (rc : Reporter.Config) (secret : str) (m : UdpCommandMessage) :
  secret <> Empty ->
  sharedSecret cfg = Some secret ->
  Reporter.sharedSecret rc = Some secret ->
  Reporter.ComputeSignature rc m =
    ToBase64String (HMACSHA256 (UTF8_GetBytes secret)
      (UTF8_GetBytes (interpolated (action m) ++ lit "|" ++ coalesce (payload m) Empty
                        ++ lit "|" ++ Int64_ToString (timestamp m))))
  /\ IsAuthorized cfg (withSignature m (Some (Reporter.ComputeSignature rc m))) = true
  /\ forall sig : option str,
       sig <> Some (Reporter.ComputeSignature rc m) ->
       IsAuthorized cfg (withSignature m sig) = false.
Proof.
  intros Hne Hcfg Hrc.
  assert (Hsecret : IsNullOrEmpty (sharedSecret cfg) = false).
  { rewrite Hcfg. destruct secret; [contradiction | reflexivity]. }
  assert (Hsame : Reporter.sharedSecret rc = sharedSecret cfg) by congruence.
  split; [|split].
  - rewrite ComputeSignature_canonical, Hrc. reflexivity.
  - apply (IsAuthorized_iff cfg rc _ Hsecret Hsame).
    rewrite ComputeSignature_withSignature. reflexivity.
  - intros sig Hsig. apply Bool.not_true_is_false. intros Hauth.
    apply (IsAuthorized_iff cfg rc _ Hsecret Hsame) in Hauth.
    rewrite ComputeSignature_withSignature in Hauth. simpl in Hauth. contradiction.
Qed.

(** C2. Without a shared secret every envelope is authorized, whatever its
    signature field; with a non-empty secret an envelope whose signature is
    absent or empty is not. *)
Theorem IsAuthorized_secret_optional (cfg : Settings) (m : UdpCommandMessage) :
  (IsNullOrEmpty (sharedSecret cfg) = true -> IsAuthorized cfg m = true)
  /\ (IsNullOrEmpty (sharedSecret cfg) = false ->
      IsNullOrEmpty (signature m) = true -> IsAuthorized cfg m = false).
Proof.
  unfold IsAuthorized. split.
  - intros ->. reflexivity.
  - intros -> ->. reflexivity.
Qed.

End Authentication.

Section AuthenticationWitnesses.
Import Text Crypto Listener Samples.

Lemma IsAuthorized_accepts_exactly_ComputeSignature_witness :
  secret <> Empty
  /\ sharedSecret listenerSettings = Some secret
  /\ Reporter.sharedSecret reporterConfig = Some secret
  /\ Reporter.ComputeSignature reporterConfig beep =
       ToBase64String (HMACSHA256 (UTF8_GetBytes secret)
         (UTF8_GetBytes (interpolated (action beep) ++ lit "|" ++ coalesce (payload beep) Empty
                           ++ lit "|" ++ Int64_ToString (timestamp beep))))
  /\ IsAuthorized listenerSettings
       (withSignature beep (Some (Reporter.ComputeSignature reporterConfig beep))) = true
  /\ forall sig : option str,
       sig <> Some (Reporter.ComputeSignature reporterConfig beep) ->
       IsAuthorized listenerSettings (withSignature beep sig) = false.
Proof.
  assert (H1 : secret <> Empty) by (vm_compute; discriminate).
  assert (H2 : sharedSecret listenerSettings = Some secret) by reflexivity.
  assert (H3 : Reporter.sharedSecret reporterConfig = Some secret) by reflexivity.
  split; [exact H1 | split; [exact H2 | split; [exact H3 |]]].
  exact (IsAuthorized_accepts_exactly_ComputeSignature
           listenerSettings reporterConfig secret beep H1 H2 H3).
Defined.

Lemma IsAuthorized_secret_optional_witness :
  (IsNullOrEmpty (sharedSecret openSettings) = true /\ IsAuthorized openSettings beep = true)
  /\ (IsNullOrEmpty (sharedSecret listenerSettings) = false
      /\ IsNullOrEmpty (signature beep) = true
      /\ IsAuthorized listenerSettings beep = false).
Proof.
  split.
  - split; [reflexivity|].
    exact (proj1 (IsAuthorized_secret_optional openSettings beep) eq_refl).
  - split; [reflexivity | split; [reflexivity|]].
    exact (proj2 (IsAuthorized_secret_optional listenerSettings beep) eq_refl eq_refl).
Defined.

(** The signing scenario of the specification: the canonical string and the
    signature of the [Beep] envelope under the secret [s3cret]. *)
Example beep_signature :
  canonical beep = lit "Beep||1700000000000"
  /\ Reporter.ComputeSignature reporterConfig beep
     = lit "TKK5yH1i9n5nHCjImzxJ6OE3y6kCgaRihS16LfhQtII=".
Proof. vm_compute. split; reflexivity. Qed.

End AuthenticationWitnesses.

(* ===================================================================== *)
(** * Staleness *)
(* ===================================================================== *)

Section Staleness.
Import Text Listener.

Lemma Qle_bool_false (x y : Q) : Qle_bool x y = false <-> (y < x)%Q.
Proof.
  rewrite <- Bool.not_true_iff_false, Qle_bool_iff. split.
  - apply Qnot_le_lt.
  - apply Qlt_not_le.
Qed.

(** The instant [IsStale] computes is the one the specification names,
    whenever the library accepts the value. *)
Lemma stamp_instantOf (t stamp : Z) :
  (if t >? 9999999999 then FromUnixTimeMilliseconds t else FromUnixTimeSeconds t)
    = Some stamp ->
  stamp = Spec.instantOf t.
Proof.
  unfold Spec.instantOf, FromUnixTimeMilliseconds, FromUnixTimeSeconds.
  destruct (Z.gtb_spec t 9999999999), (Z.leb_spec 10000000000 t); try lia;
    match goal with |- context [if ?c then _ else _] => destruct c end;
    congruence.
Qed.

(** A positive timestamp is refused by the library only when it lies beyond
    the year 9999, hence after every reading of the clock. *)
Lemma stamp_rejected_future (t utcNow : Z) :
  0 < t -> utcNow <= MaxUnixTicks ->
  (if t >? 9999999999 then FromUnixTimeMilliseconds t else FromUnixTimeSeconds t) = None ->
  MaxUnixMilliseconds < t /\ (Spec.age utcNow t < 0)%Q.
Proof.
  intros Hpos Hnow.
  unfold Spec.age, Spec.instantOf, FromUnixTimeMilliseconds, FromUnixTimeSeconds,
    MinUnixMilliseconds, MaxUnixMilliseconds, MinUnixSeconds, MaxUnixSeconds,
    MaxUnixTicks, TicksPerMillisecond, TicksPerSecond in *.
  destruct (Z.gtb_spec t 9999999999), (Z.leb_spec 10000000000 t); try lia.
  - destruct (Z.leb_spec (-62135596800000) t), (Z.leb_spec t 253402300799999);
      simpl; try discriminate; try lia.
    intros _. split; [lia|]. unfold Qlt. simpl. lia.
  - destruct (Z.leb_spec (-62135596800) t), (Z.leb_spec t 253402300799);
      simpl; try discriminate; lia.
Qed.

Lemma stamp_accepted (t : Z) :
  0 < t -> t <= MaxUnixMilliseconds ->
  (if t >? 9999999999 then FromUnixTimeMilliseconds t else FromUnixTimeSeconds t)
    = Some (Spec.instantOf t).
Proof.
  intros Hpos Hmax.
  unfold Spec.instantOf, FromUnixTimeMilliseconds, FromUnixTimeSeconds,
    MinUnixMilliseconds, MaxUnixMilliseconds, MinUnixSeconds, MaxUnixSeconds in *.
  destruct (Z.gtb_spec t 9999999999), (Z.leb_spec 10000000000 t); try lia.
  - destruct (Z.leb_spec (-62135596800000) t), (Z.leb_spec t 253402300799999);
      simpl; try reflexivity; lia.
  - destruct (Z.leb_spec (-62135596800) t), (Z.leb_spec t 253402300799);
      simpl; try reflexivity; lia.
Qed.

(** ** Rounding to [double] *)

Lemma round53_small (x : Z) : x < 2 ^ 53 -> round53 x = x.
Proof.
  intros Hx. unfold round53.
  destruct (Z.leb_spec (Z.log2 x - 52) 0) as [_|Hk]; [reflexivity|].
  exfalso. destruct (Z.le_gt_cases x 0) as [Hneg|Hpos].
  - rewrite Z.log2_nonpos in Hk by exact Hneg. lia.
  - apply (Z.log2_lt_pow2 x 53 Hpos) in Hx. lia.
Qed.

(** Above 2^53 the quotient kept has exactly 53 bits. *)
Lemma round53_quotient (x : Z) :
  0 < Z.log2 x - 52 ->
  0 < 2 ^ (Z.log2 x - 52)
  /\ 2 * 2 ^ (Z.log2 x - 52 - 1) = 2 ^ (Z.log2 x - 52)
  /\ 2 ^ 52 <= x / 2 ^ (Z.log2 x - 52) < 2 ^ 53
  /\ 0 <= x mod 2 ^ (Z.log2 x - 52) < 2 ^ (Z.log2 x - 52).
Proof.
  intros Hk. set (k := Z.log2 x - 52) in *.
  assert (Hpos : 0 < x).
  { destruct (Z.le_gt_cases x 0) as [Hneg|Hpos]; [|exact Hpos].
    subst k. rewrite Z.log2_nonpos in Hk by exact Hneg. lia. }
  assert (HP : 0 < 2 ^ k) by (apply Z.pow_pos_nonneg; lia).
  destruct (Z.log2_spec x Hpos) as [Hlow Hhigh].
  replace (Z.log2 x) with (52 + k) in Hlow by (subst k; lia).
  replace (Z.succ (Z.log2 x)) with (53 + k) in Hhigh by (subst k; lia).
  rewrite Z.pow_add_r in Hlow, Hhigh by lia.
  split; [exact HP|]. split.
  - rewrite <- (Z.pow_succ_r 2 (k - 1)) by lia. f_equal. lia.
  - split; [|apply Z.mod_pos_bound; exact HP].
    split.
    + apply Z.div_le_lower_bound; [exact HP | lia].
    + apply Z.div_lt_upper_bound; [exact HP | lia].
Qed.

Lemma round53_range (x : Z) :
  0 < Z.log2 x - 52 ->
  2 ^ 52 * 2 ^ (Z.log2 x - 52) <= round53 x <= 2 ^ 53 * 2 ^ (Z.log2 x - 52).
Proof.
  intros Hk. destruct (round53_quotient x Hk) as (HP & _ & Hq & _).
  unfold round53. destruct (Z.leb_spec (Z.log2 x - 52) 0); [lia|]. cbv zeta.
  set (P := 2 ^ (Z.log2 x - 52)) in *. set (q := x / P) in *.
  destruct (_ <? _); [nia|]. destruct (_ <? _); [nia|]. destruct (Z.even q); nia.
Qed.

Lemma round53_nonneg (x : Z) : 0 <= x -> 0 <= round53 x.
Proof.
  intros Hx. destruct (Z.lt_ge_cases x (2 ^ 53)) as [Hsmall|Hbig].
  - rewrite round53_small by exact Hsmall. exact Hx.
  - assert (Hk : 0 < Z.log2 x - 52).
    { assert (53 <= Z.log2 x) by (apply Z.log2_le_pow2; lia). lia. }
    pose proof (round53_range x Hk). destruct (round53_quotient x Hk) as (HP & _). nia.
Qed.

(** Rounding keeps the order. *)
Lemma round53_mono (x y : Z) : 0 <= x <= y -> round53 x <= round53 y.
Proof.
  intros [Hx Hxy].
  destruct (Z.lt_ge_cases y (2 ^ 53)) as [Hy|Hy].
  { rewrite !round53_small by lia. exact Hxy. }
  assert (Hky : 0 < Z.log2 y - 52).
  { assert (53 <= Z.log2 y) by (apply Z.log2_le_pow2; lia). lia. }
  pose proof (round53_range y Hky) as Hry.
  destruct (round53_quotient y Hky) as (HPy & Hhalfy & Hqy & Hremy).
  destruct (Z.lt_ge_cases x (2 ^ 53)) as [Hsmall|Hbig].
  { rewrite (round53_small x Hsmall).
    assert (2 <= 2 ^ (Z.log2 y - 52)).
    { change 2 with (2 ^ 1) at 1. apply Z.pow_le_mono_r; lia. }
    nia. }
  assert (Hkx : 0 < Z.log2 x - 52).
  { assert (53 <= Z.log2 x) by (apply Z.log2_le_pow2; lia). lia. }
  pose proof (round53_range x Hkx) as Hrx.
  assert (Hlog : Z.log2 x <= Z.log2 y) by (apply Z.log2_le_mono; exact Hxy).
  destruct (Z.eq_dec (Z.log2 x) (Z.log2 y)) as [Hsame|Hless].
  - destruct (round53_quotient x Hkx) as (HPx & Hhalfx & Hqx & Hremx).
    unfold round53. rewrite <- Hsame in *.
    destruct (Z.leb_spec (Z.log2 x - 52) 0); [lia|]. cbv zeta.
    set (P := 2 ^ (Z.log2 x - 52)) in *. set (half := 2 ^ (Z.log2 x - 52 - 1)) in *.
    pose proof (Z.div_mod x P ltac:(lia)) as Hdx.
    pose proof (Z.div_mod y P ltac:(lia)) as Hdy.
    set (qx := x / P) in *. set (rx := x mod P) in *.
    set (qy := y / P) in *. set (ry := y mod P) in *.
    apply Z.mul_le_mono_nonneg_r; [lia|].
    assert (Hq : qx <= qy) by (subst qx qy; apply Z.div_le_mono; lia).
    destruct (Z.eq_dec qx qy) as [Heq|Hne].
    + rewrite <- Heq in *. assert (rx <= ry) by nia.
      destruct (Z.ltb_spec rx half), (Z.ltb_spec half rx),
        (Z.ltb_spec ry half), (Z.ltb_spec half ry), (Z.even qx); lia.
    + assert (qx + 1 <= qy) by lia.
      destruct (Z.ltb_spec rx half), (Z.ltb_spec half rx),
        (Z.ltb_spec ry half), (Z.ltb_spec half ry), (Z.even qx), (Z.even qy); lia.
  - assert (Hstep : 2 * 2 ^ (Z.log2 x - 52) <= 2 ^ (Z.log2 y - 52)).
    { rewrite <- (Z.pow_succ_r 2 (Z.log2 x - 52)) by lia.
      apply Z.pow_le_mono_r; lia. }
    nia.
Qed.

(** A number of at most 53 significant bits is its own rounding. *)
Lemma round53_exact (a j : Z) :
  0 < a < 2 ^ 53 -> 0 <= j -> round53 (a * 2 ^ j) = a * 2 ^ j.
Proof.
  intros [Ha Hbits] Hj. unfold round53.
  rewrite (Z.log2_mul_pow2 a j Ha Hj).
  destruct (Z.leb_spec (j + Z.log2 a - 52) 0) as [_|Hk]; [reflexivity|]. cbv zeta.
  set (k := j + Z.log2 a - 52) in *.
  assert (Hlog : Z.log2 a < 53) by (apply Z.log2_lt_pow2; lia).
  assert (Hsplit : a * 2 ^ j = a * 2 ^ (j - k) * 2 ^ k).
  { rewrite <- Z.mul_assoc, <- Z.pow_add_r by lia. do 2 f_equal. lia. }
  assert (HP : 0 < 2 ^ k) by (apply Z.pow_pos_nonneg; lia).
  assert (Hhalf : 0 < 2 ^ (k - 1)) by (apply Z.pow_pos_nonneg; lia).
  rewrite Hsplit, Z.div_mul, Z.mod_mul by lia.
  destruct (Z.ltb_spec 0 (2 ^ (k - 1))); [reflexivity | lia].
Qed.

Lemma roundDouble_nonneg (x : Z) : 0 <= x -> roundDouble x = round53 x.
Proof. intros Hx. unfold roundDouble. destruct (Z.ltb_spec x 0); [lia | reflexivity]. Qed.

Lemma roundDouble_nonpos (x : Z) : x <= 0 -> roundDouble x <= 0.
Proof.
  intros Hx. unfold roundDouble. destruct (Z.ltb_spec x 0).
  - pose proof (round53_nonneg (- x)). lia.
  - rewrite round53_small; lia.
Qed.

(** ** [TotalSeconds] *)

Lemma TotalSecondsNumerator_nonpos (ticks : Z) :
  ticks <= 0 -> TotalSecondsNumerator ticks <= 0.
Proof.
  intros Hneg. unfold TotalSecondsNumerator, Int64_ToDouble.
  apply roundDouble_nonpos. pose proof (roundDouble_nonpos ticks Hneg).
  unfold SecondsPerTick_numerator. nia.
Qed.

Lemma TotalSecondsNumerator_mono (a b : Z) :
  0 <= a <= b -> TotalSecondsNumerator a <= TotalSecondsNumerator b.
Proof.
  intros [Ha Hab]. unfold TotalSecondsNumerator, Int64_ToDouble.
  rewrite (roundDouble_nonneg a), (roundDouble_nonneg b) by lia.
  pose proof (round53_nonneg a Ha). pose proof (round53_mono a b ltac:(lia)).
  rewrite !roundDouble_nonneg by (unfold SecondsPerTick_numerator; nia).
  apply round53_mono. unfold SecondsPerTick_numerator. nia.
Qed.

Lemma TotalSecondsNumerator_small (a : Z) :
  0 <= a < 2 ^ 53 ->
  TotalSecondsNumerator a = round53 (a * SecondsPerTick_numerator).
Proof.
  intros [Ha Hsmall]. unfold TotalSecondsNumerator, Int64_ToDouble.
  rewrite (roundDouble_nonneg a Ha), (round53_small a Hsmall).
  apply roundDouble_nonneg. unfold SecondsPerTick_numerator. lia.
Qed.

(** For a window of single precision below 2^28 seconds the two roundings
    do not move any age across the window: the [double] exceeds the window
    exactly when the ticks exceed it. *)
Lemma TotalSecondsNumerator_exceeds (significand scale a : Z) :
  2 ^ 23 <= significand < 2 ^ 24 -> 0 <= scale <= 52 ->
  significand * 2 ^ scale * 2 ^ 28 < TotalSecondsNumerator a
  <-> significand * 2 ^ scale * 10000000 < a * 2 ^ 48.
Proof.
  intros Hsig Hscale.
  assert (Hp : 1 <= 2 ^ scale <= 2 ^ 52).
  { split; [|apply Z.pow_le_mono_r; lia].
    assert (0 < 2 ^ scale) by (apply Z.pow_pos_nonneg; lia). lia. }
  set (p := 2 ^ scale) in *.
  assert (Hsp : 2 ^ 23 <= significand * p < 2 ^ 76) by nia.
  assert (Hwindow : round53 (significand * p * 2 ^ 28) = significand * p * 2 ^ 28).
  { subst p. rewrite <- Z.mul_assoc, <- Z.pow_add_r by lia.
    apply round53_exact; lia. }
  assert (Hnext : round53 ((significand * 2 ^ 28 + 1) * p)
                  = (significand * 2 ^ 28 + 1) * p).
  { subst p. apply round53_exact; lia. }
  split.
  - (* the double exceeds the window: so do the ticks *)
    intros Hexceeds. apply Z.nle_gt. intros Hwithin.
    destruct (Z.le_gt_cases a 0) as [Hneg|Hpos].
    + pose proof (TotalSecondsNumerator_nonpos a Hneg). nia.
    + assert (Hsmall : a < 2 ^ 53) by lia.
      rewrite (TotalSecondsNumerator_small a ltac:(lia)) in Hexceeds.
      assert (Hle : round53 (a * SecondsPerTick_numerator)
                    <= round53 (significand * p * 2 ^ 28)).
      { apply round53_mono. unfold SecondsPerTick_numerator. lia. }
      lia.
  - (* the ticks exceed the window: so does the double *)
    intros Hexceeds.
    set (first := significand * p * 10000000 / 2 ^ 48 + 1).
    pose proof (Z.div_mod (significand * p * 10000000) (2 ^ 48) ltac:(lia)) as Hdiv.
    pose proof (Z.mod_pos_bound (significand * p * 10000000) (2 ^ 48) ltac:(lia)) as Hrem.
    assert (Hfirst : 0 < first <= a) by (subst first; lia).
    assert (Hbound : first < 2 ^ 53) by (subst first; lia).
    (* the ticks differ from the window by a whole step of its grid *)
    assert (Hgrid : (scale <= 41 /\ first * 2 ^ 48
                                    >= significand * p * 10000000 + 2 ^ 7 * p)
                    \/ (41 <= scale /\ first * 2 ^ 48
                                       >= significand * p * 10000000 + 2 ^ 48)).
    { destruct (Z.le_gt_cases scale 41) as [Hlow|Hhigh].
      - left. split; [exact Hlow|].
        assert (Hfactor : 2 ^ 48 = 2 ^ (41 - scale) * (2 ^ 7 * p)).
        { subst p. rewrite <- Z.pow_add_r, <- Z.pow_add_r by lia. f_equal. lia. }
        assert (Hq : 0 < 2 ^ (41 - scale)) by (apply Z.pow_pos_nonneg; lia).
        set (q := 2 ^ (41 - scale)) in *.
        assert (Hstrict : significand * 78125 < first * q).
        { apply (Z.mul_lt_mono_pos_r (2 ^ 7 * p)); [lia|].
          replace (first * q * (2 ^ 7 * p)) with (first * 2 ^ 48) by (rewrite Hfactor; ring).
          subst first. lia. }
        replace (first * 2 ^ 48) with (first * q * (2 ^ 7 * p)) by (rewrite Hfactor; ring).
        nia.
      - right. split; [lia|].
        assert (Hfactor : p = 2 ^ 41 * 2 ^ (scale - 41)).
        { subst p. rewrite <- Z.pow_add_r by lia. f_equal. lia. }
        assert (Hq : 0 < 2 ^ (scale - 41)) by (apply Z.pow_pos_nonneg; lia).
        set (q := 2 ^ (scale - 41)) in *.
        assert (Hstrict : significand * 78125 * q < first).
        { apply (Z.mul_lt_mono_pos_r (2 ^ 48)); [lia|]. subst first. nia. }
        nia. }
    assert (Hproduct : (significand * 2 ^ 28 + 1) * p
                       <= first * SecondsPerTick_numerator).
    { assert (Hupper : first * 2 ^ 48 <= significand * p * 10000000 + 2 ^ 48)
        by (subst first; lia).
      assert (Hwide : significand * p < 2 ^ 24 * p) by nia.
      unfold SecondsPerTick_numerator. clearbody first.
      destruct Hgrid as [[Hlow Hgrid]|[Hhigh Hgrid]]; lia. }
    assert (Hchain : (significand * 2 ^ 28 + 1) * p <= TotalSecondsNumerator a).
    { rewrite <- Hnext.
      transitivity (TotalSecondsNumerator first).
      - rewrite (TotalSecondsNumerator_small first ltac:(lia)).
        apply round53_mono. lia.
      - apply TotalSecondsNumerator_mono. lia. }
    lia.
Qed.

Lemma TotalSeconds_nonpos (ticks : Z) : ticks <= 0 -> (TotalSeconds ticks <= 0)%Q.
Proof.
  intros Hneg. pose proof (TotalSecondsNumerator_nonpos ticks Hneg).
  unfold TotalSeconds, Qle. simpl. lia.
Qed.

Lemma TotalSeconds_exceeds_single (w : Q) (a : Z) :
  (0 < w)%Q -> Spec.singleWindow w ->
  (w < TotalSeconds a)%Q <-> (w < a # 10000000)%Q.
Proof.
  intros Hpos [Htiny|(significand & scale & Hsig & Hscale & Hw)].
  - (* less than a tick: every positive age exceeds it, rounded or not *)
    destruct (Z.le_gt_cases a 0) as [Hneg|Hage].
    + split; intros Hlt; exfalso; apply (Qlt_irrefl 0);
        apply Qlt_trans with w; try exact Hpos;
        eapply Qlt_le_trans; try exact Hlt.
      * apply TotalSeconds_nonpos. exact Hneg.
      * unfold Qle. simpl. lia.
    + assert (Hone : TotalSecondsNumerator 1 <= TotalSecondsNumerator a)
        by (apply TotalSecondsNumerator_mono; lia).
      change (TotalSecondsNumerator 1) with SecondsPerTick_numerator in Hone.
      unfold SecondsPerTick_numerator in Hone.
      split; intros _; apply Qlt_trans with (1 # (2 ^ 24)%positive); try exact Htiny;
        unfold TotalSeconds, SecondsPerTick_denominator, Qlt; simpl; lia.
  - rewrite Hw.
    unfold TotalSeconds, SecondsPerTick_denominator, Qlt. simpl Qnum. simpl Qden.
    rewrite <- (TotalSecondsNumerator_exceeds significand scale a Hsig Hscale).
    change (Z.pos (2 ^ 76)) with (2 ^ 28 * 2 ^ 48).
    change (Z.pos (2 ^ 48)) with (2 ^ 48).
    change (Z.pos 10000000) with 10000000.
    split; intros H; nia.
Qed.

(** ** [IsStale] *)

(** With a positive window and a positive timestamp, [IsStale] answers by
    comparing the age as [TotalSeconds] gives it with the window. *)
Lemma IsStale_enabled (cfg : Settings) (utcNow : Z) (m : UdpCommandMessage) :
  (0 < staleCommandWindowSeconds cfg)%Q -> 0 < timestamp m ->
  IsStale cfg utcNow m =
  match (if timestamp m >? 9999999999
         then FromUnixTimeMilliseconds (timestamp m)
         else FromUnixTimeSeconds (timestamp m)) with
  | None => None
  | Some _ =>
    Some (negb (Qle_bool (TotalSeconds (utcNow - Spec.instantOf (timestamp m)))
                 (staleCommandWindowSeconds cfg)))
  end.
Proof.
  intros HW Hpos. unfold IsStale.
  apply Qle_bool_false in HW. rewrite HW.
  destruct (Z.leb_spec (timestamp m) 0) as [|_]; [lia|]. simpl.
  destruct (if timestamp m >? 9999999999 then _ else _) as [stamp|] eqn:Hstamp;
    [|reflexivity].
  apply stamp_instantOf in Hstamp. subst stamp. reflexivity.
Qed.

(** A timestamp of zero, the value of a field the sender left out, or below
    counts as not set: such an envelope is never stale. *)
Lemma IsStale_unset_timestamp (cfg : Settings) (utcNow : Z) (m : UdpCommandMessage) :
  timestamp m <= 0 -> IsStale cfg utcNow m = Some false.
Proof.
  intros Hunset. unfold IsStale.
  destruct (Z.leb_spec (timestamp m) 0) as [_|]; [|lia].
  rewrite Bool.orb_true_r. reflexivity.
Qed.

(** The verdict of [IsStale] for a positive window and timestamp: stale
    exactly when the [double] of the age exceeds the window. *)
Lemma IsStale_iff_TotalSeconds (cfg : Settings) (utcNow : Z) (m : UdpCommandMessage) :
  (0 < staleCommandWindowSeconds cfg)%Q -> 0 < timestamp m -> utcNow <= MaxUnixTicks ->
  IsStale cfg utcNow m = Some true
  <-> (staleCommandWindowSeconds cfg
         < TotalSeconds (utcNow - Spec.instantOf (timestamp m)))%Q.
Proof.
  intros HW Hpos Hnow. rewrite (IsStale_enabled cfg utcNow m HW Hpos).
  destruct (if timestamp m >? 9999999999 then _ else _) as [stamp|] eqn:Hstamp.
  - split.
    + intros [= Hb]. apply Bool.negb_true_iff, Qle_bool_false in Hb. exact Hb.
    + intros Hlt. apply Qle_bool_false in Hlt. rewrite Hlt. reflexivity.
  - destruct (stamp_rejected_future _ _ Hpos Hnow Hstamp) as [_ Hneg].
    split; [discriminate|]. intros Hlt. exfalso.
    apply (Qlt_irrefl 0). apply Qlt_trans with (staleCommandWindowSeconds cfg); [exact HW|].
    eapply Qlt_le_trans; [exact Hlt|]. apply TotalSeconds_nonpos.
    unfold Spec.age, Qlt in Hneg. simpl in Hneg. lia.
Qed.

(** C4, as the code has it. For an envelope whose timestamp is positive and
    a positive window W, [IsStale] rejects exactly when the age exceeds W,
    the age being the clock minus the timestamp read as Unix milliseconds
    from 10,000,000,000 upwards and as Unix seconds below, and taken as the
    [double] that [TotalSeconds] returns.  For every window below 2^28
    seconds that a [float] holds, that is exactly when the age itself
    exceeds W: an age equal to W is let through, and so is every smaller
    age of a timestamp the calendar can hold.  An envelope whose timestamp
    is zero or negative is never stale, and with W zero or negative nothing
    is. *)
Theorem IsStale_beyond_window_as_double
    (cfg : Settings) (utcNow : Z) (m : UdpCommandMessage) :
  ((0 < staleCommandWindowSeconds cfg)%Q -> 0 < timestamp m -> utcNow <= MaxUnixTicks ->
     (IsStale cfg utcNow m = Some true
        <-> (staleCommandWindowSeconds cfg
               < TotalSeconds (utcNow - Spec.instantOf (timestamp m)))%Q)
     /\ (Spec.singleWindow (staleCommandWindowSeconds cfg) ->
         (IsStale cfg utcNow m = Some true
            <-> (staleCommandWindowSeconds cfg < Spec.age utcNow (timestamp m))%Q)
         /\ ((Spec.age utcNow (timestamp m) == staleCommandWindowSeconds cfg)%Q ->
             IsStale cfg utcNow m = Some false)
         /\ ((Spec.age utcNow (timestamp m) <= staleCommandWindowSeconds cfg)%Q ->
             timestamp m <= MaxUnixMilliseconds ->
             IsStale cfg utcNow m = Some false)))
  /\ (timestamp m <= 0 -> IsStale cfg utcNow m = Some false)
  /\ ((staleCommandWindowSeconds cfg <= 0)%Q ->
      forall now' m', IsStale cfg now' m' = Some false).
Proof.
  split; [|split].
  - intros HW Hpos Hnow.
    pose proof (IsStale_iff_TotalSeconds cfg utcNow m HW Hpos Hnow) as Hdouble.
    split; [exact Hdouble|]. intros Hsingle.
    pose proof (TotalSeconds_exceeds_single _ (utcNow - Spec.instantOf (timestamp m))
                  HW Hsingle) as Hexact.
    fold (Spec.age utcNow (timestamp m)) in Hexact.
    assert (Hiff : IsStale cfg utcNow m = Some true
                   <-> (staleCommandWindowSeconds cfg < Spec.age utcNow (timestamp m))%Q)
      by (rewrite Hdouble; exact Hexact).
    assert (Hwithin : (Spec.age utcNow (timestamp m) <= staleCommandWindowSeconds cfg)%Q ->
                      timestamp m <= MaxUnixMilliseconds ->
                      IsStale cfg utcNow m = Some false).
    { intros Hle Hmax. rewrite (IsStale_enabled cfg utcNow m HW Hpos).
      rewrite (stamp_accepted _ Hpos Hmax). f_equal.
      apply Bool.negb_false_iff, Bool.not_false_iff_true. intros Hb. apply Qle_bool_false in Hb.
      apply Hexact in Hb. exact (Qlt_not_le _ _ Hb Hle). }
    split; [exact Hiff | split; [|exact Hwithin]].
    intros Heq. apply Hwithin.
    + rewrite Heq. apply Qle_refl.
    + destruct (Z.le_gt_cases (timestamp m) MaxUnixMilliseconds) as [Hmax|Hbig];
        [exact Hmax|]. exfalso.
      assert (Hnone : (if timestamp m >? 9999999999
                       then FromUnixTimeMilliseconds (timestamp m)
                       else FromUnixTimeSeconds (timestamp m)) = None).
      { unfold FromUnixTimeMilliseconds, MaxUnixMilliseconds in *.
        destruct (Z.gtb_spec (timestamp m) 9999999999); [|lia].
        destruct (Z.leb_spec (timestamp m) 253402300799999); [lia|].
        rewrite Bool.andb_false_r. reflexivity. }
      destruct (stamp_rejected_future _ _ Hpos Hnow Hnone) as [_ Hneg].
      rewrite Heq in Hneg. apply (Qlt_irrefl 0).
      apply Qlt_trans with (staleCommandWindowSeconds cfg); assumption.
  - apply IsStale_unset_timestamp.
  - intros HW now' m'. unfold IsStale. apply Qle_bool_iff in HW. rewrite HW. reflexivity.
Qed.

End Staleness.

Section StalenessWitnesses.
Import Text Listener Samples.

(** C4 as stated fails twice.  A negative timestamp is a timestamp, and its
    envelope is older than any window, yet it is never stale; and with a
    window of 2^30 seconds an envelope older than the window by one tick of
    the clock is let through, its age rounding to the window. *)
Lemma IsStale_admits_older_than_window :
  ((0 < staleCommandWindowSeconds listenerSettings)%Q
   /\ timestamp beforeEpoch <> 0
   /\ (staleCommandWindowSeconds listenerSettings
         < Spec.age 17000000050000000 (timestamp beforeEpoch))%Q
   /\ IsStale listenerSettings 17000000050000000 beforeEpoch = Some false)
  /\ ((0 < staleCommandWindowSeconds wideSettings)%Q
      /\ 0 < timestamp billion
      /\ 20737418240000001 <= MaxUnixTicks
      /\ (staleCommandWindowSeconds wideSettings
            < Spec.age 20737418240000001 (timestamp billion))%Q
      /\ IsStale wideSettings 20737418240000001 billion = Some false).
Proof.
  split.
  - repeat split; try discriminate.
  - repeat split; try discriminate.
Qed.

(** A timestamp five seconds old against a five-second window, in
    milliseconds. *)
Lemma IsStale_beyond_window_as_double_witness :
  ((0 < staleCommandWindowSeconds listenerSettings)%Q
   /\ 0 < timestamp beep
   /\ 17000000050000000 <= MaxUnixTicks
   /\ Spec.singleWindow (staleCommandWindowSeconds listenerSettings)
   /\ (IsStale listenerSettings 17000000050000000 beep = Some true
        <-> (staleCommandWindowSeconds listenerSettings
               < Spec.age 17000000050000000 (timestamp beep))%Q)
   /\ ((Spec.age 17000000050000000 (timestamp beep)
          == staleCommandWindowSeconds listenerSettings)%Q
       /\ IsStale listenerSettings 17000000050000000 beep = Some false))
  /\ (timestamp beforeEpoch <= 0
      /\ IsStale listenerSettings 17000000050000000 beforeEpoch = Some false)
  /\ ((staleCommandWindowSeconds
         {| sharedSecret := None; staleCommandWindowSeconds := 0;
            sendAcknowledgement := false |} <= 0)%Q
      /\ IsStale {| sharedSecret := None; staleCommandWindowSeconds := 0;
                    sendAcknowledgement := false |} 17000000050000000 beep = Some false).
Proof.
  assert (HW : (0 < staleCommandWindowSeconds listenerSettings)%Q) by reflexivity.
  assert (Hpos : 0 < timestamp beep) by reflexivity.
  assert (Hnow : 17000000050000000 <= MaxUnixTicks) by (vm_compute; discriminate).
  assert (Hsingle : Spec.singleWindow (staleCommandWindowSeconds listenerSettings)).
  { right. exists (5 * 2 ^ 21), 27. repeat split; try discriminate. }
  assert (Heq : (Spec.age 17000000050000000 (timestamp beep)
                   == staleCommandWindowSeconds listenerSettings)%Q) by reflexivity.
  assert (Hunset : timestamp beforeEpoch <= 0) by discriminate.
  assert (H0 : (staleCommandWindowSeconds
                  {| sharedSecret := None; staleCommandWindowSeconds := 0;
                     sendAcknowledgement := false |} <= 0)%Q)
    by (vm_compute; discriminate).
  split; [|split].
  - destruct (proj1 (IsStale_beyond_window_as_double listenerSettings 17000000050000000 beep)
                HW Hpos Hnow) as (_ & Hexact).
    destruct (Hexact Hsingle) as (Hiff & Hat & _).
    split; [exact HW | split; [exact Hpos | split; [exact Hnow | split; [exact Hsingle |]]]].
    split; [exact Hiff|]. split; [exact Heq | exact (Hat Heq)].
  - split; [exact Hunset|].
    exact (proj1 (proj2 (IsStale_beyond_window_as_double listenerSettings
                           17000000050000000 beforeEpoch)) Hunset).
  - split; [exact H0|].
    exact (proj2 (proj2 (IsStale_beyond_window_as_double _ 0 beep)) H0
             17000000050000000 beep).
Defined.

(** The boundary of the unit heuristic: 9,999,999,999 is still seconds,
    10,000,000,000 already milliseconds. *)
Example instantOf_boundary :
  Spec.instantOf 9999999999 = 9999999999 * TicksPerSecond
  /\ Spec.instantOf 10000000000 = 10000000000 * TicksPerMillisecond.
Proof. split; reflexivity. Qed.

(** [TotalSeconds] at work: ten million ticks are one second, and 2^30
    seconds and a tick are 2^30 seconds. *)
Example TotalSeconds_rounds :
  (TotalSeconds 10000000 == 1)%Q
  /\ (TotalSeconds 10737418240000001 == 1073741824)%Q
  /\ (TotalSeconds 3 == 2833419889721787 # (2 ^ 73)%positive)%Q.
Proof. repeat split. Qed.

(** The rounding written out in [TotalSeconds] is the library's binary64
    product, here at spans of a tick, five seconds, 2^30 seconds and a
    tick, 2^53 + 1 ticks, the longest span and a negative one. *)
Example TotalSeconds_is_binary64 :
  Forall (fun ticks =>
            match binary64_value (TotalSeconds_binary64 ticks) with
            | Some seconds => (seconds == TotalSeconds ticks)%Q
            | None => False
            end)
    [0; 1; 3; 50000000; 10737418240000001; 9007199254740993;
     4611686018427400249; 9223372036854775807; -3; -10737418240000001].
Proof. repeat constructor. Qed.

(** And so it is for two hundred spans in a row from zero, around
    2^30 seconds, around 2^53 ticks, where [(double)ticks] starts to round,
    from 2^62 ticks on and below zero. *)
Example TotalSeconds_is_binary64_in_a_row :
  Forall (fun start =>
            Host.passedFrom
              (fun ticks =>
                 match binary64_value (TotalSeconds_binary64 ticks) with
                 | Some seconds => Qeq_bool seconds (TotalSeconds ticks)
                 | None => false
                 end)
              start 200 = true)
    [0; 10737418239999900; 9007199254740892; 4611686018427387904; -200].
Proof. repeat constructor; vm_compute; reflexivity. Qed.

End StalenessWitnesses.

(* ===================================================================== *)
(** * Duplicate suppression and the bounded cache *)
(* ===================================================================== *)

Section Deduplication.
Import Text Listener.

Implicit Types (cfg : Settings) (processed : gmap (list Z) Z) (id k : list Z).

(** ** The pruning pass *)

Lemma PruneProcessedCommands_lookup_Some cfg utcNow processed k v :
  PruneProcessedCommands cfg utcNow processed !! k = Some v
  <-> processed !! k = Some v /\ pruneCutoff cfg utcNow <= v.
Proof.
  unfold PruneProcessedCommands. rewrite lookup_foldr_delete_Some. split.
  - intros [Hout Hin]. split; [exact Hin|].
    destruct (Z_lt_le_dec v (pruneCutoff cfg utcNow)) as [Hlt|Hle]; [|exact Hle].
    exfalso. apply Hout. apply list_elem_of_fmap. exists (k, v). split; [reflexivity|].
    apply list_elem_of_filter. split; [exact Hlt|]. apply elem_of_map_to_list. exact Hin.
  - intros [Hin Hle]. split; [|exact Hin].
    intros Hmem. apply list_elem_of_fmap in Hmem as ([k' v'] & Hk & Hmem).
    simpl in Hk. subst k'.
    apply list_elem_of_filter in Hmem as [Hlt Hmem].
    apply elem_of_map_to_list in Hmem. simpl in Hlt.
    rewrite Hin in Hmem. injection Hmem as <-. lia.
Qed.

Lemma PruneProcessedCommands_lookup_None cfg utcNow processed k :
  PruneProcessedCommands cfg utcNow processed !! k = None
  <-> (processed !! k = None
       \/ exists v, processed !! k = Some v /\ v < pruneCutoff cfg utcNow).
Proof.
  destruct (PruneProcessedCommands cfg utcNow processed !! k) as [v|] eqn:Hp.
  - apply PruneProcessedCommands_lookup_Some in Hp as [Hin Hle].
    split; [discriminate|]. intros [Hnone | (v' & Hv' & Hlt)]; [congruence|].
    rewrite Hin in Hv'. injection Hv' as <-. lia.
  - split; [|reflexivity]. intros _.
    destruct (processed !! k) as [v|] eqn:Hin; [|left; reflexivity].
    right. exists v. split; [reflexivity|].
    destruct (Z_lt_le_dec v (pruneCutoff cfg utcNow)) as [Hlt|Hle]; [exact Hlt|].
    assert (Hsome : PruneProcessedCommands cfg utcNow processed !! k = Some v)
      by (apply PruneProcessedCommands_lookup_Some; auto).
    congruence.
Qed.

Lemma PruneProcessedCommands_size cfg utcNow processed :
  (size (PruneProcessedCommands cfg utcNow processed) <= size processed)%nat.
Proof.
  apply map_subseteq_size, map_subseteq_spec. intros k v Hk.
  apply PruneProcessedCommands_lookup_Some in Hk. tauto.
Qed.

(** ** The window in whole seconds *)

Lemma Math_Max_floor (w : Q) : (1 <= Math_Max 1 w)%Q.
Proof.
  unfold Math_Max. destruct (Qle_bool 1 w) eqn:H.
  - apply Qle_bool_iff. exact H.
  - apply Qle_refl.
Qed.

Lemma truncate_floor (x : Q) (a : Z) :
  (0 <= x)%Q -> a <= truncate x <-> (inject_Z a <= x)%Q.
Proof.
  destruct x as [n d]. unfold truncate, Qle, inject_Z. simpl. intros Hn.
  rewrite Z.quot_div_nonneg by lia. split.
  - intros Ha. assert (Hd := Z.mul_div_le n (Z.pos d) ltac:(lia)). nia.
  - intros Ha. apply Z.div_le_lower_bound; lia.
Qed.

Lemma cutoff_is_age cfg utcNow v :
  pruneCutoff cfg utcNow <= v
  <-> (inject_Z (Spec.entryAge utcNow v) <= Spec.flooredWindow cfg)%Q.
Proof.
  unfold Spec.flooredWindow. rewrite <- truncate_floor.
  - unfold pruneCutoff, Spec.entryAge. lia.
  - apply Qle_trans with 1%Q; [discriminate | apply Math_Max_floor].
Qed.

Lemma flooredWindow_stated cfg :
  ((staleCommandWindowSeconds cfg <= 0)%Q \/ (1 <= staleCommandWindowSeconds cfg)%Q) ->
  Spec.flooredWindow cfg = Spec.statedWindow cfg.
Proof.
  unfold Spec.flooredWindow, Spec.statedWindow, Math_Max.
  intros [Hle|Hge].
  - assert (H0 : Qle_bool (staleCommandWindowSeconds cfg) 0 = true)
      by (apply Qle_bool_iff; exact Hle).
    rewrite H0.
    assert (H1 : Qle_bool 1 (staleCommandWindowSeconds cfg) = false).
    { apply Qle_bool_false. apply Qle_lt_trans with 0%Q; [exact Hle | reflexivity]. }
    rewrite H1. reflexivity.
  - assert (H1 : Qle_bool 1 (staleCommandWindowSeconds cfg) = true)
      by (apply Qle_bool_iff; exact Hge).
    rewrite H1.
    assert (H0 : Qle_bool (staleCommandWindowSeconds cfg) 0 = false).
    { apply Qle_bool_false. apply Qlt_le_trans with 1%Q; [reflexivity | exact Hge]. }
    rewrite H0. reflexivity.
Qed.

(** ** One call of [RegisterCommandId] *)

Lemma RegisterCommandId_absent cfg t1 t2 (m : UdpCommandMessage) processed :
  IsNullOrEmpty (cmdId m) = true ->
  RegisterCommandId cfg t1 t2 m processed = (true, processed).
Proof.
  unfold RegisterCommandId. destruct (cmdId m) as [[|c id]|]; simpl; try discriminate;
    reflexivity.
Qed.

Lemma RegisterCommandId_known cfg t1 t2 (m : UdpCommandMessage) processed id :
  cmdId m = Some id -> id <> Empty -> is_Some (processed !! id) ->
  RegisterCommandId cfg t1 t2 m processed = (false, processed).
Proof.
  intros Hid Hne Hin. unfold RegisterCommandId. rewrite Hid.
  destruct id as [|c id]; [contradiction|].
  rewrite bool_decide_eq_true_2 by exact Hin. reflexivity.
Qed.

Lemma RegisterCommandId_new cfg t1 t2 (m : UdpCommandMessage) processed id :
  cmdId m = Some id -> id <> Empty -> processed !! id = None ->
  RegisterCommandId cfg t1 t2 m processed =
  (true,
   if (MaxRememberedCommandIds <? size (<[id := ToUnixTimeSeconds t1]> processed))%nat
   then PruneProcessedCommands cfg t2 (<[id := ToUnixTimeSeconds t1]> processed)
   else <[id := ToUnixTimeSeconds t1]> processed).
Proof.
  intros Hid Hne Hin. unfold RegisterCommandId. rewrite Hid.
  destruct id as [|c id]; [contradiction|].
  rewrite bool_decide_eq_false_2 by (rewrite Hin; apply is_Some_None).
  destruct (_ <? _)%nat; reflexivity.
Qed.

(** Whatever envelope is presented, a remembered id stays with its value
    unless the pruning pass of that very call drops it. *)
Lemma RegisterCommandId_keeps_or_prunes cfg t1 t2 (m : UdpCommandMessage) processed k v :
  processed !! k = Some v ->
  (RegisterCommandId cfg t1 t2 m processed).2 !! k = Some v
  \/ ((RegisterCommandId cfg t1 t2 m processed).2 !! k = None
      /\ v < pruneCutoff cfg t2).
Proof.
  intros Hk. unfold RegisterCommandId.
  destruct (cmdId m) as [[|c id]|]; simpl; auto.
  destruct (bool_decide (is_Some (processed !! (c :: id)))) eqn:Hknown; simpl; auto.
  apply bool_decide_eq_false in Hknown.
  assert (Hne : c :: id <> k) by (intros <-; apply Hknown; eauto).
  assert (Hins : <[c :: id := ToUnixTimeSeconds t1]> processed !! k = Some v)
    by (rewrite lookup_insert_ne; auto).
  destruct (_ <? _)%nat; simpl; auto.
  destruct (Z_lt_le_dec v (pruneCutoff cfg t2)) as [Hlt|Hle].
  - right. split; [|exact Hlt]. apply PruneProcessedCommands_lookup_None. eauto.
  - left. apply PruneProcessedCommands_lookup_Some. auto.
Qed.

(** ** A run of envelopes with one id *)

Lemma presentAll_known cfg id processed (arrivals : list (Z * Z * UdpCommandMessage)) :
  id <> Empty -> is_Some (processed !! id) ->
  Forall (fun a => cmdId a.2 = Some id) arrivals ->
  Spec.presentAll cfg arrivals processed = (repeat false (length arrivals), processed).
Proof.
  intros Hne Hin Hall. induction Hall as [|[[t1 t2] m] rest Hm _ IH]; [reflexivity|].
  simpl in *. rewrite (RegisterCommandId_known cfg t1 t2 m processed id Hm Hne Hin).
  rewrite IH. reflexivity.
Qed.

(** C5. Of the envelopes that share a non-empty cmdId, [RegisterCommandId]
    admits the first, storing the id with the clock reading, and rejects every
    later one while the id is in the cache, leaving the cache as it is; the id
    leaves the cache only through a pruning pass.  An envelope without a
    cmdId passes and stores nothing. *)
Theorem RegisterCommandId_admits_first_rejects_repeats
    cfg id processed (t1 t2 : Z) (m : UdpCommandMessage)
    (later : list (Z * Z * UdpCommandMessage)) :
  (cmdId m = Some id -> id <> Empty ->
   Forall (fun a => cmdId a.2 = Some id) later ->
     (processed !! id = None ->
        (<[id := ToUnixTimeSeconds t1]> processed) !! id = Some (ToUnixTimeSeconds t1)
        /\ RegisterCommandId cfg t1 t2 m processed =
             (true,
              if (MaxRememberedCommandIds <? size (<[id := ToUnixTimeSeconds t1]> processed))%nat
              then PruneProcessedCommands cfg t2 (<[id := ToUnixTimeSeconds t1]> processed)
              else <[id := ToUnixTimeSeconds t1]> processed)
        /\ exists verdicts final,
             Spec.presentAll cfg ((t1, t2, m) :: later) processed = (true :: verdicts, final)
             /\ (is_Some ((RegisterCommandId cfg t1 t2 m processed).2 !! id) ->
                 verdicts = repeat false (length later)
                 /\ final = (RegisterCommandId cfg t1 t2 m processed).2))
     /\ (is_Some (processed !! id) ->
         RegisterCommandId cfg t1 t2 m processed = (false, processed)
         /\ Spec.presentAll cfg ((t1, t2, m) :: later) processed
            = (repeat false (S (length later)), processed))
     /\ (forall v (other : UdpCommandMessage) u1 u2,
           processed !! id = Some v ->
           (RegisterCommandId cfg u1 u2 other processed).2 !! id = Some v
           \/ ((RegisterCommandId cfg u1 u2 other processed).2 !! id = None
               /\ v < pruneCutoff cfg u2)))
  /\ (IsNullOrEmpty (cmdId m) = true ->
      RegisterCommandId cfg t1 t2 m processed = (true, processed)).
Proof.
  split; [|apply RegisterCommandId_absent].
  intros Hid Hne Hlater. split; [|split].
  - intros Hnew. split; [apply lookup_insert_eq|].
    pose proof (RegisterCommandId_new cfg t1 t2 m processed id Hid Hne Hnew) as Hreg.
    split; [exact Hreg|].
    simpl. destruct (RegisterCommandId cfg t1 t2 m processed) as [fresh processed1] eqn:Hcall.
    injection Hreg as -> Hp1.
    destruct (Spec.presentAll cfg later processed1) as [verdicts final] eqn:Hrest.
    exists verdicts, final. split; [reflexivity|].
    simpl. intros Hstill.
    rewrite (presentAll_known cfg id processed1 later Hne Hstill Hlater) in Hrest.
    injection Hrest as <- <-. auto.
  - intros Hknown. split; [apply (RegisterCommandId_known _ _ _ _ _ id); assumption|].
    apply (presentAll_known cfg id processed ((t1, t2, m) :: later) Hne Hknown).
    constructor; assumption.
  - intros v other u1 u2 Hv. apply RegisterCommandId_keeps_or_prunes. exact Hv.
Qed.

End Deduplication.

Section DeduplicationWitnesses.
Import Text Listener Samples.

Lemma RegisterCommandId_admits_first_rejects_repeats_witness :
  (cmdId beep = Some beepId /\ beepId <> Empty
   /\ Forall (fun a => cmdId a.2 = Some beepId) retransmissions
   /\ (∅ : gmap (list Z) Z) !! beepId = None
   /\ RegisterCommandId listenerSettings 1000000000 1000000000 beep ∅
      = (true, {[ beepId := 100 ]})
   /\ Spec.presentAll listenerSettings ((1000000000, 1000000000, beep) :: retransmissions) ∅
      = ([true; false; false], {[ beepId := 100 ]}))
  /\ (is_Some (({[ beepId := 100 ]} : gmap (list Z) Z) !! beepId)
      /\ RegisterCommandId listenerSettings 1010000000 1010000000 beep {[ beepId := 100 ]}
         = (false, {[ beepId := 100 ]}))
  /\ (IsNullOrEmpty (cmdId heartbeat) = true
      /\ RegisterCommandId listenerSettings 1000000000 1000000000 heartbeat ∅ = (true, ∅)).
Proof.
  assert (Hid : cmdId beep = Some beepId) by reflexivity.
  assert (Hne : beepId <> Empty) by (vm_compute; discriminate).
  assert (Hall : Forall (fun a => cmdId a.2 = Some beepId) retransmissions)
    by (repeat constructor).
  assert (Hnew : (∅ : gmap (list Z) Z) !! beepId = None) by reflexivity.
  assert (Hold : is_Some (({[ beepId := 100 ]} : gmap (list Z) Z) !! beepId))
    by (exists 100; vm_compute; reflexivity).
  split; [|split].
  - destruct (proj1 (RegisterCommandId_admits_first_rejects_repeats
                       listenerSettings beepId ∅ 1000000000 1000000000 beep retransmissions)
                Hid Hne Hall) as (Hfirst & _ & _).
    destruct (Hfirst Hnew) as (_ & Hcall & verdicts & final & Hrun & Hstill).
    split; [exact Hid | split; [exact Hne | split; [exact Hall | split; [exact Hnew |]]]].
    split.
    + rewrite Hcall. vm_compute. reflexivity.
    + rewrite Hrun. rewrite Hcall in Hstill.
      destruct Hstill as [-> ->]; [exists 100; vm_compute; reflexivity|].
      vm_compute. reflexivity.
  - split; [exact Hold|].
    destruct (proj1 (RegisterCommandId_admits_first_rejects_repeats
                       listenerSettings beepId {[ beepId := 100 ]}
                       1010000000 1010000000 beep [])
                Hid Hne (List.Forall_nil _)) as (_ & Hrepeat & _).
    exact (proj1 (Hrepeat Hold)).
  - split; [reflexivity|].
    exact (proj2 (RegisterCommandId_admits_first_rejects_repeats
                    listenerSettings beepId ∅ 1000000000 1000000000 heartbeat [])
             eq_refl).
Defined.

End DeduplicationWitnesses.

Section BoundedCache.
Import Text Listener.

Implicit Types (cfg : Settings) (processed : gmap (list Z) Z) (id k : list Z).

Lemma RegisterCommandId_size cfg t1 t2 (m : UdpCommandMessage) processed :
  (size (RegisterCommandId cfg t1 t2 m processed).2 <= S (size processed))%nat.
Proof.
  unfold RegisterCommandId.
  destruct (cmdId m) as [[|c id]|]; simpl; try lia.
  destruct (bool_decide_reflect (is_Some (processed !! (c :: id)))) as [|Hnew];
    simpl; [lia|].
  assert (Hsize : size (<[c :: id := ToUnixTimeSeconds t1]> processed) = S (size processed)).
  { apply map_size_insert_None. destruct (processed !! (c :: id)) eqn:E; [|reflexivity].
    exfalso. apply Hnew. eauto. }
  destruct (_ <? _)%nat; simpl.
  - rewrite <- Hsize. apply PruneProcessedCommands_size.
  - lia.
Qed.

Lemma PruneProcessedCommands_withinWindow cfg utcNow processed :
  Spec.withinWindowAt cfg utcNow (PruneProcessedCommands cfg utcNow processed).
Proof.
  intros k v Hk. apply PruneProcessedCommands_lookup_Some in Hk as [_ Hk].
  apply cutoff_is_age. exact Hk.
Qed.

(** A call that changes the cache and leaves it above the bound has run the
    pruning pass. *)
Lemma RegisterCommandId_overflow cfg t1 t2 (m : UdpCommandMessage) processed :
  (MaxRememberedCommandIds < size (RegisterCommandId cfg t1 t2 m processed).2)%nat ->
  (RegisterCommandId cfg t1 t2 m processed).2 <> processed ->
  Spec.withinWindowAt cfg t2 (RegisterCommandId cfg t1 t2 m processed).2.
Proof.
  unfold RegisterCommandId.
  destruct (cmdId m) as [[|c id]|]; simpl; try congruence.
  destruct (bool_decide (is_Some (processed !! (c :: id)))); simpl; try congruence.
  destruct (Nat.ltb_spec MaxRememberedCommandIds
              (size (<[c :: id := ToUnixTimeSeconds t1]> processed))); simpl.
  - intros _ _. apply PruneProcessedCommands_withinWindow.
  - lia.
Qed.

Lemma RegisterCommandId_boundedOrFresh cfg t1 t2 (m : UdpCommandMessage) processed
    (readings : list Z) :
  Spec.boundedOrFresh cfg readings processed ->
  Spec.boundedOrFresh cfg (t2 :: readings) (RegisterCommandId cfg t1 t2 m processed).2.
Proof.
  intros Hinv.
  assert (Hkeep : Spec.boundedOrFresh cfg (t2 :: readings) processed).
  { destruct Hinv as [Hsmall|Hfresh]; [left; exact Hsmall|].
    right. apply Exists_cons_tl. exact Hfresh. }
  unfold RegisterCommandId.
  destruct (cmdId m) as [[|c id]|]; simpl; auto.
  destruct (bool_decide (is_Some (processed !! (c :: id)))); simpl; auto.
  destruct (Nat.ltb_spec MaxRememberedCommandIds
              (size (<[c :: id := ToUnixTimeSeconds t1]> processed))); simpl.
  - right. apply Exists_cons_hd. apply PruneProcessedCommands_withinWindow.
  - left. assumption.
Qed.

Lemma boundedOrFresh_more cfg (readings readings' : list Z) processed :
  (forall t, In t readings -> In t readings') ->
  Spec.boundedOrFresh cfg readings processed ->
  Spec.boundedOrFresh cfg readings' processed.
Proof.
  intros Hsub [Hsmall|Hfresh]; [left; exact Hsmall|]. right.
  apply List.Exists_exists in Hfresh as (t & Hin & Ht).
  apply List.Exists_exists. exists t. auto.
Qed.

Lemma presentAll_boundedOrFresh cfg (arrivals : list (Z * Z * UdpCommandMessage)) :
  forall processed (readings : list Z),
  Spec.boundedOrFresh cfg readings processed ->
  Spec.boundedOrFresh cfg (Spec.pruneReadings arrivals ++ readings)
    (Spec.presentAll cfg arrivals processed).2.
Proof.
  induction arrivals as [|[[t1 t2] m] rest IH]; intros processed readings Hinv;
    [exact Hinv|].
  simpl.
  pose proof (RegisterCommandId_boundedOrFresh cfg t1 t2 m processed readings Hinv)
    as Hstep.
  destruct (RegisterCommandId cfg t1 t2 m processed) as [fresh processed1].
  specialize (IH processed1 (t2 :: readings) Hstep).
  destruct (Spec.presentAll cfg rest processed1) as [verdicts final]. simpl in *.
  apply (boundedOrFresh_more cfg (Spec.pruneReadings rest ++ t2 :: readings)); [|exact IH].
  intros t Hin. apply in_app_or in Hin as [Hin|[<-|Hin]].
  - right. apply in_or_app. left. exact Hin.
  - left. reflexivity.
  - right. apply in_or_app. right. exact Hin.
Qed.

(** C6, as the code has it.  When an insertion raises the count above 128
    the pruning pass runs; it drops exactly the entries older than the
    window floored at one second, [max(1, W)], so every retained entry has
    age at most that window.  A call adds at most one entry, and a cache
    that a call leaves above 128 entries holds nothing older than that
    window: starting empty, the cache is within the bound or was wholly
    within the window at one of its pruning passes.  The floor is the stated
    window whenever W is at least one second or staleness checking is
    disabled. *)
Theorem processedCommands_pruned_to_floored_window
    cfg (t1 t2 : Z) (m : UdpCommandMessage) processed :
  (forall id, cmdId m = Some id -> id <> Empty -> processed !! id = None ->
     (MaxRememberedCommandIds < size (<[id := ToUnixTimeSeconds t1]> processed))%nat ->
     (RegisterCommandId cfg t1 t2 m processed).2
     = PruneProcessedCommands cfg t2 (<[id := ToUnixTimeSeconds t1]> processed))
  /\ (forall c k v,
        PruneProcessedCommands cfg t2 c !! k = Some v
        <-> c !! k = Some v
            /\ (inject_Z (Spec.entryAge t2 v) <= Spec.flooredWindow cfg)%Q)
  /\ (size (RegisterCommandId cfg t1 t2 m processed).2 <= S (size processed))%nat
  /\ ((MaxRememberedCommandIds < size (RegisterCommandId cfg t1 t2 m processed).2)%nat ->
      (RegisterCommandId cfg t1 t2 m processed).2 <> processed ->
      Spec.withinWindowAt cfg t2 (RegisterCommandId cfg t1 t2 m processed).2)
  /\ (forall arrivals,
        Spec.boundedOrFresh cfg (Spec.pruneReadings arrivals)
          (Spec.presentAll cfg arrivals ∅).2)
  /\ ((staleCommandWindowSeconds cfg <= 0)%Q \/ (1 <= staleCommandWindowSeconds cfg)%Q ->
      Spec.flooredWindow cfg = Spec.statedWindow cfg).
Proof.
  split; [|split; [|split; [|split; [|split]]]].
  - intros id Hid Hne Hnew Hover.
    rewrite (RegisterCommandId_new cfg t1 t2 m processed id Hid Hne Hnew). simpl.
    apply Nat.ltb_lt in Hover. rewrite Hover. reflexivity.
  - intros c k v. rewrite PruneProcessedCommands_lookup_Some, cutoff_is_age. reflexivity.
  - apply RegisterCommandId_size.
  - apply RegisterCommandId_overflow.
  - intros arrivals.
    rewrite <- (app_nil_r (Spec.pruneReadings arrivals)).
    apply presentAll_boundedOrFresh. left.
    rewrite map_size_empty. unfold MaxRememberedCommandIds. lia.
  - apply flooredWindow_stated.
Qed.

End BoundedCache.

Section BoundedCacheWitnesses.
Import Text Listener Samples.

(** C6, refuted as stated: with a staleness window of half a second, the
    129th id arrives one second after the 128 remembered ones; the pruning
    pass runs and keeps them all, although each is older than the window. *)
Lemma pruning_keeps_entries_older_than_subsecond_window :
  (0 < staleCommandWindowSeconds subsecondSettings)%Q
  /\ cmdId beep = Some beepId
  /\ fullCache !! beepId = None
  /\ (MaxRememberedCommandIds < size (<[beepId := ToUnixTimeSeconds 10000000]> fullCache))%nat
  /\ (RegisterCommandId subsecondSettings 10000000 10000000 beep fullCache).2 !! lit "1"
     = Some 0
  /\ (Spec.statedWindow subsecondSettings < inject_Z (Spec.entryAge 10000000 0))%Q
  /\ size (RegisterCommandId subsecondSettings 10000000 10000000 beep fullCache).2 = 129%nat.
Proof.
  split; [reflexivity | split; [reflexivity |]].
  split; [vm_compute; reflexivity |].
  split; [vm_compute; lia |].
  split; [vm_compute; reflexivity |].
  split; vm_compute; reflexivity.
Qed.

Lemma processedCommands_pruned_to_floored_window_witness :
  (cmdId beep = Some beepId /\ beepId <> Empty /\ fullCache !! beepId = None
   /\ (MaxRememberedCommandIds < size (<[beepId := ToUnixTimeSeconds 70000000]> fullCache))%nat
   /\ (RegisterCommandId listenerSettings 70000000 70000000 beep fullCache).2
      = {[ beepId := 7 ]})
  /\ ((staleCommandWindowSeconds listenerSettings <= 0)%Q
        \/ (1 <= staleCommandWindowSeconds listenerSettings)%Q)
  /\ Spec.flooredWindow listenerSettings = Spec.statedWindow listenerSettings
  /\ (MaxRememberedCommandIds
       < size (RegisterCommandId subsecondSettings 10000000 10000000 beep fullCache).2)%nat
  /\ (RegisterCommandId subsecondSettings 10000000 10000000 beep fullCache).2 <> fullCache
  /\ Spec.withinWindowAt subsecondSettings 10000000
       (RegisterCommandId subsecondSettings 10000000 10000000 beep fullCache).2.
Proof.
  assert (Hid : cmdId beep = Some beepId) by reflexivity.
  assert (Hne : beepId <> Empty) by (vm_compute; discriminate).
  assert (Hnew : fullCache !! beepId = None) by (vm_compute; reflexivity).
  assert (Hover : (MaxRememberedCommandIds
                   < size (<[beepId := ToUnixTimeSeconds 70000000]> fullCache))%nat)
    by (vm_compute; lia).
  assert (Hwin : (staleCommandWindowSeconds listenerSettings <= 0)%Q
                 \/ (1 <= staleCommandWindowSeconds listenerSettings)%Q)
    by (right; vm_compute; discriminate).
  assert (Hbig : (MaxRememberedCommandIds
       < size (RegisterCommandId subsecondSettings 10000000 10000000 beep fullCache).2)%nat)
    by (vm_compute; lia).
  assert (Hchanged :
    (RegisterCommandId subsecondSettings 10000000 10000000 beep fullCache).2 <> fullCache).
  { intros Heq.
    assert (Hin : (RegisterCommandId subsecondSettings 10000000 10000000 beep fullCache).2
                    !! beepId = Some 1) by (vm_compute; reflexivity).
    rewrite Heq, Hnew in Hin. discriminate. }
  destruct (processedCommands_pruned_to_floored_window
              listenerSettings 70000000 70000000 beep fullCache)
    as (Htrigger & _ & _ & _ & _ & Hfloor).
  destruct (processedCommands_pruned_to_floored_window
              subsecondSettings 10000000 10000000 beep fullCache)
    as (_ & _ & _ & Hfresh & _ & _).
  split; [|split; [exact Hwin | split; [exact (Hfloor Hwin) |
           split; [exact Hbig | split; [exact Hchanged | exact (Hfresh Hbig Hchanged)]]]]].
  split; [exact Hid | split; [exact Hne | split; [exact Hnew | split; [exact Hover |]]]].
  rewrite (Htrigger beepId Hid Hne Hnew Hover). vm_compute. reflexivity.
Defined.

End BoundedCacheWitnesses.

(* ===================================================================== *)
(** * The receive loop: what a dropped datagram leaves behind *)
(* ===================================================================== *)

Section ReceiveLoop.
Import Text Listener.
Context `{rt : Runtime}.

Implicit Types (cfg : Settings) (st : ListenerState) (clk : Clock).

Lemma ListenIteration_passed cfg clk buffer ep st (command : UdpCommandMessage) :
  Spec.passedChecks cfg clk buffer command ->
  ListenIteration cfg clk buffer ep st =
  let r := RegisterCommandId cfg (atInsert clk) (atPrune clk) command (_processedCommands st) in
  if negb r.1
  then (Duplicate, {| _processedCommands := r.2; _pendingCommands := _pendingCommands st |})
  else (Enqueued,
        {| _processedCommands := r.2;
           _pendingCommands :=
             _pendingCommands st ++ [{| Message := command; RemoteEndPoint := Some ep |}] |}).
Proof.
  intros (bytes & -> & Hne & Hparse & Hauth & Hfresh).
  unfold ListenIteration. destruct bytes as [|b bytes]; [contradiction|].
  rewrite Hparse, Hauth, Hfresh. simpl.
  destruct (RegisterCommandId _ _ _ _ _) as [fresh processed]. reflexivity.
Qed.

Lemma ListenIteration_not_passed cfg clk buffer ep st :
  (forall command, ~ Spec.passedChecks cfg clk buffer command) ->
  (ListenIteration cfg clk buffer ep st).2 = st.
Proof.
  intros Hnone. unfold ListenIteration.
  destruct buffer as [[|b bytes]|]; try reflexivity.
  destruct (ParseMessage _) as [command|] eqn:Hparse; [|reflexivity].
  destruct (IsAuthorized cfg command) eqn:Hauth; [|reflexivity]. simpl.
  destruct (IsStale _ _ _) as [[|]|] eqn:Hfresh; try reflexivity.
  exfalso. apply (Hnone command). exists (b :: bytes). repeat split; auto; discriminate.
Qed.

(** Whether a datagram passes the three checks is decided by running
    them. *)
Lemma passedChecks_decided cfg clk (buffer : option (list Z)) :
  (exists command, Spec.passedChecks cfg clk buffer command)
  \/ (forall command, ~ Spec.passedChecks cfg clk buffer command).
Proof.
  unfold Spec.passedChecks.
  destruct buffer as [[|b bytes]|].
  1,3: right; intros c (bytes' & Hb & Hne & _); simplify_eq; congruence.
  destruct (ParseMessage (UTF8_GetString (b :: bytes))) as [command|] eqn:Hparse.
  2: { right. intros c (bytes' & Hb & _ & Hp & _). simplify_eq; congruence. }
  destruct (IsAuthorized cfg command) eqn:Hauth.
  2: { right. intros c (bytes' & Hb & _ & Hp & Ha & _). simplify_eq; congruence. }
  destruct (IsStale cfg (atStaleCheck clk) command) as [[|]|] eqn:Hfresh.
  1,3: right; intros c (bytes' & Hb & _ & Hp & _ & Hs); simplify_eq; congruence.
  left. exists command, (b :: bytes). repeat split; auto; discriminate.
Qed.

(** The three kinds of drop, read off the iteration. *)
Lemma ListenIteration_dropped cfg clk buffer ep st :
  ((ListenIteration cfg clk buffer ep st).1 = Malformed
   <-> exists bytes, buffer = Some bytes /\ bytes <> []
         /\ ParseMessage (UTF8_GetString bytes) = None)
  /\ ((ListenIteration cfg clk buffer ep st).1 = Unauthorized
      <-> exists bytes command, buffer = Some bytes /\ bytes <> []
            /\ ParseMessage (UTF8_GetString bytes) = Some command
            /\ IsAuthorized cfg command = false)
  /\ ((ListenIteration cfg clk buffer ep st).1 = Stale
      <-> exists bytes command, buffer = Some bytes /\ bytes <> []
            /\ ParseMessage (UTF8_GetString bytes) = Some command
            /\ IsAuthorized cfg command = true
            /\ IsStale cfg (atStaleCheck clk) command = Some true).
Proof.
  unfold ListenIteration.
  destruct buffer as [[|b bytes]|]; simpl;
    [ | destruct (ParseMessage _) as [command|] eqn:Hparse;
        [ destruct (IsAuthorized cfg command) eqn:Hauth; simpl;
          [ destruct (IsStale _ _ _) as [[|]|] eqn:Hfresh; simpl;
            [ | destruct (RegisterCommandId _ _ _ _ _) as [[|] processed]; simpl | ]
          | ]
        | ]
      | ];
    repeat split; try discriminate;
    try (intros H; decompose [ex and] H; clear H; simplify_eq; congruence);
    intros _;
    try (exists (b :: bytes), command; repeat split; auto; discriminate);
    exists (b :: bytes); repeat split; auto; discriminate.
Qed.

(** C10. A datagram dropped as malformed, unauthorized or stale leaves the
    listener, and so the cache of processed command ids, exactly as it was;
    an id enters the cache only with an envelope that parsed, was authorized
    and was not stale; and after such a drop a valid envelope whose cmdId
    is not in the cache is enqueued, whatever was dropped before it. *)
Theorem dropped_datagram_leaves_cache cfg clk buffer ep st :
  (((ListenIteration cfg clk buffer ep st).1 = Malformed
    <-> exists bytes, buffer = Some bytes /\ bytes <> []
          /\ ParseMessage (UTF8_GetString bytes) = None)
   /\ ((ListenIteration cfg clk buffer ep st).1 = Unauthorized
       <-> exists bytes command, buffer = Some bytes /\ bytes <> []
             /\ ParseMessage (UTF8_GetString bytes) = Some command
             /\ IsAuthorized cfg command = false)
   /\ ((ListenIteration cfg clk buffer ep st).1 = Stale
       <-> exists bytes command, buffer = Some bytes /\ bytes <> []
             /\ ParseMessage (UTF8_GetString bytes) = Some command
             /\ IsAuthorized cfg command = true
             /\ IsStale cfg (atStaleCheck clk) command = Some true))
  /\ ((ListenIteration cfg clk buffer ep st).1 = Malformed
      \/ (ListenIteration cfg clk buffer ep st).1 = Unauthorized
      \/ (ListenIteration cfg clk buffer ep st).1 = Stale ->
      (ListenIteration cfg clk buffer ep st).2 = st)
  /\ (forall id,
        _processedCommands st !! id = None ->
        is_Some (_processedCommands (ListenIteration cfg clk buffer ep st).2 !! id) ->
        exists command, Spec.passedChecks cfg clk buffer command /\ cmdId command = Some id)
  /\ (forall clk' buffer' ep' (command : UdpCommandMessage) id,
        (ListenIteration cfg clk buffer ep st).1 = Malformed
        \/ (ListenIteration cfg clk buffer ep st).1 = Unauthorized
        \/ (ListenIteration cfg clk buffer ep st).1 = Stale ->
        Spec.passedChecks cfg clk' buffer' command ->
        cmdId command = Some id ->
        _processedCommands st !! id = None ->
        (ListenIteration cfg clk' buffer' ep' (ListenIteration cfg clk buffer ep st).2).1
        = Enqueued).
Proof.
  assert (Hdrop : (ListenIteration cfg clk buffer ep st).1 = Malformed
      \/ (ListenIteration cfg clk buffer ep st).1 = Unauthorized
      \/ (ListenIteration cfg clk buffer ep st).1 = Stale ->
      (ListenIteration cfg clk buffer ep st).2 = st).
  { intros Hd. apply ListenIteration_not_passed. intros command Hpass.
    rewrite (ListenIteration_passed _ _ _ _ _ _ Hpass) in Hd. simpl in Hd.
    destruct (negb _); simpl in Hd; intuition discriminate. }
  split; [apply ListenIteration_dropped|]. split; [exact Hdrop|]. split.
  - intros id Hbefore Hafter.
    destruct (passedChecks_decided cfg clk buffer) as [(command & Hpass) | Hnone].
    + exists command. split; [exact Hpass|].
      rewrite (ListenIteration_passed _ _ _ _ _ _ Hpass) in Hafter. simpl in Hafter.
      assert (Hreg : is_Some ((RegisterCommandId cfg (atInsert clk) (atPrune clk) command
                                 (_processedCommands st)).2 !! id))
        by (destruct (negb _); exact Hafter).
      clear Hafter. unfold RegisterCommandId in Hreg.
      destruct (cmdId command) as [[|c cid]|]; simpl in Hreg;
        try (rewrite Hbefore in Hreg; destruct Hreg; discriminate).
      destruct (bool_decide _); simpl in Hreg;
        [rewrite Hbefore in Hreg; destruct Hreg; discriminate|].
      destruct (decide ((c :: cid) = id)) as [->|Hother]; [reflexivity|].
      exfalso. destruct Hreg as [v Hv].
      assert (Hins : <[c :: cid := ToUnixTimeSeconds (atInsert clk)]>
                       (_processedCommands st) !! id = None)
        by (rewrite lookup_insert_ne; auto).
      destruct (_ <? _)%nat; simpl in Hv; [|congruence].
      apply PruneProcessedCommands_lookup_Some in Hv as [Hv _]. congruence.
    + rewrite (ListenIteration_not_passed _ _ _ _ _ Hnone) in Hafter.
      rewrite Hbefore in Hafter. destruct Hafter; discriminate.
  - intros clk' buffer' ep' command id Hd Hpass Hid Hnew.
    rewrite (Hdrop Hd), (ListenIteration_passed _ _ _ _ _ _ Hpass). simpl.
    destruct (decide (id = Empty)) as [->|Hne].
    + rewrite RegisterCommandId_absent by (rewrite Hid; reflexivity). reflexivity.
    + rewrite (RegisterCommandId_new cfg _ _ command _ id Hid Hne Hnew). reflexivity.
Qed.

End ReceiveLoop.

Section ReceiveLoopWitnesses.
Import Text Listener Samples.

(** A forged envelope is dropped as unauthorized; the genuine one, sent a
    second later with the same cmdId, is enqueued. *)
Lemma dropped_datagram_leaves_cache_witness :
  (ListenIteration (H := sampleRuntime) listenerSettings (clockAt 0)
     (Some forgedJson) sender idle).1 = Unauthorized
  /\ (ListenIteration (H := sampleRuntime) listenerSettings (clockAt 0)
        (Some forgedJson) sender idle).2 = idle
  /\ Spec.passedChecks (H := sampleRuntime) listenerSettings (clockAt 1)
       (Some signedJson) signed
  /\ cmdId signed = Some beepId
  /\ _processedCommands idle !! beepId = None
  /\ (ListenIteration (H := sampleRuntime) listenerSettings (clockAt 1)
        (Some signedJson) sender
        (ListenIteration (H := sampleRuntime) listenerSettings (clockAt 0)
           (Some forgedJson) sender idle).2).1 = Enqueued.
Proof.
  assert (Hd : (ListenIteration (H := sampleRuntime) listenerSettings (clockAt 0)
                  (Some forgedJson) sender idle).1 = Unauthorized)
    by (vm_compute; reflexivity).
  assert (Hpass : Spec.passedChecks (H := sampleRuntime) listenerSettings (clockAt 1)
                    (Some signedJson) signed).
  { exists signedJson. split; [reflexivity|]. split; [vm_compute; discriminate|].
    split; [vm_compute; reflexivity|]. split; vm_compute; reflexivity. }
  assert (Hid : cmdId signed = Some beepId) by reflexivity.
  assert (Hnew : _processedCommands idle !! beepId = None) by reflexivity.
  destruct (dropped_datagram_leaves_cache (rt := sampleRuntime)
              listenerSettings (clockAt 0) (Some forgedJson) sender idle)
    as (_ & Hsame & _ & Hretry).
  split; [exact Hd|].
  split; [exact (Hsame (or_intror (or_introl Hd)))|].
  split; [exact Hpass|]. split; [exact Hid|]. split; [exact Hnew|].
  exact (Hretry (clockAt 1) (Some signedJson) sender signed beepId
           (or_intror (or_introl Hd)) Hpass Hid Hnew).
Defined.

End ReceiveLoopWitnesses.

(* ===================================================================== *)
(** * Dispatch *)
(* ===================================================================== *)

Section Dispatch.
Import Text Listener.
Context `{cm : CaseMap}.

Implicit Types (lookup : BindingLookup) (name key : list Z) (h : Callback).

Lemma OrdinalIgnoreCase_eqb_refl name : OrdinalIgnoreCase_eqb name name = true.
Proof. unfold OrdinalIgnoreCase_eqb, str_eqb. apply bool_decide_eq_true_2. reflexivity. Qed.

Lemma OrdinalIgnoreCase_eqb_trans key name name' :
  OrdinalIgnoreCase_eqb name name' = true ->
  OrdinalIgnoreCase_eqb key name' = OrdinalIgnoreCase_eqb key name.
Proof.
  unfold OrdinalIgnoreCase_eqb, str_eqb. intros Heq.
  apply bool_decide_eq_true in Heq. rewrite Heq. reflexivity.
Qed.

(** The lookup does not tell apart names that differ in letter case. *)
Lemma TryGetValue_ignores_case lookup name name' :
  OrdinalIgnoreCase_eqb name name' = true ->
  TryGetValue lookup name' = TryGetValue lookup name.
Proof.
  intros Heq. induction lookup as [|[k b] rest IH]; [reflexivity|]. simpl.
  rewrite (OrdinalIgnoreCase_eqb_trans k name name' Heq), IH. reflexivity.
Qed.

(** It returns the first binding whose key matches, ignoring case. *)
Lemma TryGetValue_first_match lookup name (b : UdpCommandBinding) :
  TryGetValue lookup name = Some b
  <-> exists before k after,
        lookup = before ++ (k, b) :: after
        /\ OrdinalIgnoreCase_eqb k name = true
        /\ Forall (fun kb => OrdinalIgnoreCase_eqb kb.1 name = false) before.
Proof.
  induction lookup as [|[k0 b0] rest IH]; simpl.
  - split; [discriminate|]. intros (before & k & after & Heq & _).
    destruct before; discriminate.
  - destruct (OrdinalIgnoreCase_eqb k0 name) eqn:Hk0.
    + split.
      * intros [= <-]. exists [], k0, rest. repeat split; auto.
      * intros (before & k & after & Heq & Hk & Hnone).
        destruct before as [|[k1 b1] before]; simpl in Heq.
        -- injection Heq as _ ->. reflexivity.
        -- injection Heq as -> -> _. inversion Hnone as [|? ? Hhead _]; subst.
           simpl in Hhead. congruence.
    + rewrite IH. split.
      * intros (before & k & after & -> & Hk & Hnone).
        exists ((k0, b0) :: before), k, after. repeat split; auto.
      * intros (before & k & after & Heq & Hk & Hnone).
        destruct before as [|[k1 b1] before]; simpl in Heq.
        -- injection Heq as -> _ _. congruence.
        -- injection Heq as _ _ ->. inversion Hnone; subst.
           exists before, k, after. repeat split; auto.
Qed.

Lemma TryGetValue_update lookup name (f : UdpCommandBinding -> UdpCommandBinding) :
  TryGetValue (update lookup name f) name = f <$> TryGetValue lookup name.
Proof.
  induction lookup as [|[k b] rest IH]; [reflexivity|]. simpl.
  destruct (OrdinalIgnoreCase_eqb k name) eqn:Hk; simpl; rewrite Hk; auto.
Qed.

Lemma update_length lookup name (f : UdpCommandBinding -> UdpCommandBinding) :
  length (update lookup name f) = length lookup.
Proof.
  induction lookup as [|[k b] rest IH]; [reflexivity|]. simpl.
  destruct (OrdinalIgnoreCase_eqb k name); simpl; auto.
Qed.

Lemma TryGetValue_snoc_new lookup name (b : UdpCommandBinding) :
  TryGetValue lookup name = None ->
  TryGetValue (lookup ++ [(name, b)]) name = Some b.
Proof.
  induction lookup as [|[k b0] rest IH]; simpl.
  - intros _. rewrite OrdinalIgnoreCase_eqb_refl. reflexivity.
  - destruct (OrdinalIgnoreCase_eqb k name); [discriminate | exact IH].
Qed.

(** After registering under [name], the lookup finds a binding holding the
    handler. *)
Lemma RegisterHandler_found lookup lookup1 name h :
  RegisterHandler (Some name) (Some h) lookup = Registered lookup1 ->
  exists b, TryGetValue lookup1 name = Some b /\ In h (RuntimeHandlers b).
Proof.
  unfold RegisterHandler. destruct name as [|c name]; [discriminate|].
  destruct (TryGetValue lookup (c :: name)) as [b0|] eqn:Hfind; intros [= <-].
  - exists (addRuntimeHandler h b0). rewrite TryGetValue_update, Hfind. split; [reflexivity|].
    simpl. apply in_or_app. right. left. reflexivity.
  - eexists. split; [apply TryGetValue_snoc_new; exact Hfind|].
    simpl. left. reflexivity.
Qed.

Lemma RegisterHandler_known lookup lookup1 name h (b : UdpCommandBinding) :
  TryGetValue lookup name = Some b ->
  RegisterHandler (Some name) (Some h) lookup = Registered lookup1 ->
  length lookup1 = length lookup.
Proof.
  unfold RegisterHandler. destruct name as [|c name]; [discriminate|].
  intros ->. intros [= <-]. apply update_length.
Qed.

(** ** Counting invocations *)

Lemma invocations_app h (t1 t2 : list Effect) :
  Spec.invocations h (t1 ++ t2) = (Spec.invocations h t1 + Spec.invocations h t2)%nat.
Proof.
  induction t1 as [|e t1 IH]; [reflexivity|]. simpl.
  destruct e; simpl; rewrite IH; lia.
Qed.

Lemma invocations_subscribers h (m : UdpCommandMessage) (subscribers : list Callback) :
  Spec.invocations h (map (fun x => Invoke x m) subscribers)
  = Spec.registrations h subscribers.
Proof.
  induction subscribers as [|x rest IH]; [reflexivity|]. simpl. rewrite IH. reflexivity.
Qed.

Lemma invocations_acknowledgement h (d : Dispatcher) now pending target :
  Spec.invocations h (SendAcknowledgement d now pending target) = 0%nat.
Proof. unfold SendAcknowledgement. destruct (_ackClient d); reflexivity. Qed.

Lemma DispatchCommand_invocations (d : Dispatcher) (now : Z) (pending : PendingCommand)
    name h :
  action (Message pending) = Some name ->
  Spec.invocations h (DispatchCommand d now pending)
  = (Spec.registrations h (onCommandReceived d)
     + Spec.registrations h (CommandReceived d)
     + Spec.registrations h (Spec.subscribersOf (TryGetValue (_bindingLookup d) name)))%nat.
Proof.
  intros Hname. unfold DispatchCommand. rewrite Hname.
  rewrite !invocations_app, !invocations_subscribers.
  assert (Hack : Spec.invocations h
            (match sendAcknowledgement (settings d), RemoteEndPoint pending with
             | true, Some target => SendAcknowledgement d now pending target
             | _, _ => []
             end) = 0%nat).
  { destruct (sendAcknowledgement (settings d)), (RemoteEndPoint pending);
      try reflexivity. apply invocations_acknowledgement. }
  rewrite Hack.
  destruct (TryGetValue (_bindingLookup d) name) as [b|]; simpl.
  - unfold Binding_Invoke. rewrite invocations_subscribers. lia.
  - lia.
Qed.

(** C3, as the code has it.  [DispatchCommand] looks the binding up by
    ordinal comparison that ignores letter case: it takes the first binding whose
    key equals the action up to case, so an action that differs from a
    registered one only in case reaches that binding, and two registrations
    that differ only in case share one binding.  Each subscriber is invoked
    once per registration, among the generic subscribers and in the binding
    found: a handler registered once under the action, and nowhere else, runs
    exactly once per dispatched envelope. *)
Theorem DispatchCommand_matches_action_ignoring_case
    (d : Dispatcher) (now : Z) (pending : PendingCommand) name :
  action (Message pending) = Some name ->
  (forall b, TryGetValue (_bindingLookup d) name = Some b
     <-> exists before k after,
           _bindingLookup d = before ++ (k, b) :: after
           /\ OrdinalIgnoreCase_eqb k name = true
           /\ Forall (fun kb => OrdinalIgnoreCase_eqb kb.1 name = false) before)
  /\ (forall name', OrdinalIgnoreCase_eqb name name' = true ->
        TryGetValue (_bindingLookup d) name' = TryGetValue (_bindingLookup d) name)
  /\ (forall h,
        Spec.invocations h (DispatchCommand d now pending)
        = (Spec.registrations h (onCommandReceived d)
           + Spec.registrations h (CommandReceived d)
           + Spec.registrations h
               (Spec.subscribersOf (TryGetValue (_bindingLookup d) name)))%nat)
  /\ (forall h,
        Spec.registrations h (onCommandReceived d) = 0%nat ->
        Spec.registrations h (CommandReceived d) = 0%nat ->
        Spec.registrations h (Spec.subscribersOf (TryGetValue (_bindingLookup d) name)) = 1%nat ->
        Spec.invocations h (DispatchCommand d now pending) = 1%nat)
  /\ (forall h name' lookup1,
        OrdinalIgnoreCase_eqb name name' = true ->
        RegisterHandler (Some name) (Some h) (_bindingLookup d) = Registered lookup1 ->
        (exists b, TryGetValue lookup1 name' = Some b /\ In h (RuntimeHandlers b))
        /\ forall h' lookup2,
             RegisterHandler (Some name') (Some h') lookup1 = Registered lookup2 ->
             length lookup2 = length lookup1).
Proof.
  intros Hname. split; [|split; [|split; [|split]]].
  - intros b. apply TryGetValue_first_match.
  - intros name' Heq. apply TryGetValue_ignores_case. exact Heq.
  - intros h. apply DispatchCommand_invocations. exact Hname.
  - intros h H1 H2 H3.
    rewrite (DispatchCommand_invocations d now pending name h Hname), H1, H2, H3.
    reflexivity.
  - intros h name' lookup1 Heq Hreg.
    destruct (RegisterHandler_found _ _ _ _ Hreg) as (b & Hfind & Hin).
    rewrite <- (TryGetValue_ignores_case lookup1 name name' Heq) in Hfind.
    split; [eauto|].
    intros h' lookup2 Hreg2. eapply RegisterHandler_known; eauto.
Qed.

End Dispatch.

Section DispatchWitnesses.
Import Text Listener Samples.

(** C3, refuted as stated: a handler registered for [Beep] and one registered
    for [beep] end up in one binding, and an envelope whose action is [beep]
    invokes the handler registered for [Beep]. *)
Lemma DispatchCommand_ignores_letter_case :
  lit "Beep" <> lit "beep"
  /\ RegisterHandler (H := AsciiCaseMap) (Some (lit "Beep")) (Some 1%nat) []
     = Registered oneBinding
  /\ RegisterHandler (H := AsciiCaseMap) (Some (lit "beep")) (Some 2%nat) oneBinding
     = Registered [(lit "Beep",
              {| Action := Some (lit "Beep"); onCommand := [];
                 RuntimeHandlers := [1%nat; 2%nat] |})]
  /\ action lowerBeep = Some (lit "beep")
  /\ DispatchCommand (H := AsciiCaseMap) (quietDispatcher oneBinding) 1700000000000
       {| Message := lowerBeep; RemoteEndPoint := Some sender |}
     = [Invoke 1%nat lowerBeep].
Proof.
  split; [vm_compute; discriminate|].
  repeat split; vm_compute; reflexivity.
Qed.

(** The serialized bindings go the same way: of two that differ only in
    letter case, [BuildBindingLookup] keeps the first. *)
Example BuildBindingLookup_keeps_first_of_case_variants :
  BuildBindingLookup (H := AsciiCaseMap)
    [Some {| Action := Some (lit "Beep"); onCommand := [1%nat]; RuntimeHandlers := [] |};
     None;
     Some {| Action := Some (lit "BEEP"); onCommand := [2%nat]; RuntimeHandlers := [] |}]
  = [(lit "Beep",
      {| Action := Some (lit "Beep"); onCommand := [1%nat]; RuntimeHandlers := [] |})].
Proof. vm_compute. reflexivity. Qed.

Lemma DispatchCommand_matches_action_ignoring_case_witness :
  action lowerBeep = Some (lit "beep")
  /\ OrdinalIgnoreCase_eqb (H := AsciiCaseMap) (lit "beep") (lit "BEEP") = true
  /\ TryGetValue (H := AsciiCaseMap) oneBinding (lit "BEEP")
     = TryGetValue (H := AsciiCaseMap) oneBinding (lit "beep")
  /\ Spec.invocations 1%nat
       (DispatchCommand (H := AsciiCaseMap) (quietDispatcher oneBinding) 1700000000000
          {| Message := lowerBeep; RemoteEndPoint := Some sender |}) = 1%nat.
Proof.
  assert (Hname : action lowerBeep = Some (lit "beep")) by reflexivity.
  assert (Heq : OrdinalIgnoreCase_eqb (H := AsciiCaseMap) (lit "beep") (lit "BEEP") = true)
    by (vm_compute; reflexivity).
  destruct (DispatchCommand_matches_action_ignoring_case (cm := AsciiCaseMap)
              (quietDispatcher oneBinding) 1700000000000
              {| Message := lowerBeep; RemoteEndPoint := Some sender |}
              (lit "beep") Hname) as (_ & Hcase & _ & Honce & _).
  split; [exact Hname | split; [exact Heq | split; [exact (Hcase _ Heq) |]]].
  apply Honce; vm_compute; reflexivity.
Defined.

End DispatchWitnesses.

(* ===================================================================== *)
(** * Applying a host announcement *)
(* ===================================================================== *)

Section HostAnnouncement.
Import Text Listener.
Context `{cm : CaseMap} `{net : Reporter.Network}.

Implicit Types (st : Reporter.State) (payload : option Announcement.t)
  (remote : option IPEndPoint).

(** The address the code resolves is the one the specification names. *)
Lemma ApplyHostAnnouncement_unfold payload remote st :
  Reporter.ApplyHostAnnouncement payload remote st =
  let address := Spec.announcedAddress payload remote in
  let port := Spec.announcedPort payload st in
  if IsNullOrWhiteSpace address then (false, st)
  else
    let st1 := Reporter.setHost address port st in
    let st2 :=
      if negb (Equals_OrdinalIgnoreCase (Reporter.hostAddress st) address)
         || negb (port =? Reporter.hostPort st)
      then Reporter.setSentRegistration false (Reporter.ResetCachedEndpoint st1)
      else st1 in
    (true, Reporter.setLoggedMissingHost false st2).
Proof.
  unfold Reporter.ApplyHostAnnouncement, Spec.announcedAddress, Spec.announcedPort.
  destruct payload as [p|]; simpl.
  - rewrite Z.gtb_ltb.
    destruct (IsNullOrWhiteSpace (Announcement.hostAddress p)); simpl;
      destruct remote; reflexivity.
  - destruct remote; reflexivity.
Qed.

Lemma OrdinalIgnoreCase_eqb_length (a b : list Z) :
  length a <> length b -> OrdinalIgnoreCase_eqb a b = false.
Proof.
  intros Hlen. unfold OrdinalIgnoreCase_eqb, str_eqb. apply bool_decide_eq_false_2.
  intros Heq. apply Hlen. rewrite <- (length_map ToUpperInvariant a), Heq.
  apply length_map.
Qed.

(** A host named [10.0.0.5] counts as resolved. *)
Lemma IsHostResolved_scenario st :
  Reporter.hostAddress st = Some (lit "10.0.0.5") -> Reporter.IsHostResolved st = true.
Proof.
  intros Hhost. unfold Reporter.IsHostResolved. rewrite Hhost. simpl.
  rewrite OrdinalIgnoreCase_eqb_length; [reflexivity | simpl; lia].
Qed.

(** With nothing cached, a reporter whose host is [10.0.0.5:4949] resolves
    that endpoint, provided the resolver returns the literal's own IPv4
    address first. *)
Lemma TryResolveEndpoint_scenario st (addresses : list IPAddress) :
  Reporter.Dns_GetHostAddresses (lit "10.0.0.5") = Some addresses ->
  List.find Reporter.isInterNetwork addresses = Some (IPv4 10 0 0 5) ->
  Reporter.hostAddress st = Some (lit "10.0.0.5") ->
  Reporter.hostPort st = 4949 ->
  Reporter.cachedEndpoint st = None ->
  Reporter.TryResolveEndpoint st
  = (Some Spec.scenarioHost,
     Reporter.setCache (Some Spec.scenarioHost) (Some (lit "10.0.0.5")) st).
Proof.
  intros Hdns Hfind Hhost Hport Hcache. unfold Reporter.TryResolveEndpoint.
  rewrite (IsHostResolved_scenario st Hhost), Hcache. simpl.
  unfold Reporter.resolveByName. rewrite Hhost. simpl coalesce.
  rewrite Hdns, Hfind, Hport. reflexivity.
Qed.

(** The registration sent from such a state goes to that endpoint. *)
Lemma RegisterClient_scenario (cfg : Reporter.Config) (env : Reporter.Env) st
    (addresses : list IPAddress) (json : list Z) :
  Reporter.Dns_GetHostAddresses (lit "10.0.0.5") = Some addresses ->
  List.find Reporter.isInterNetwork addresses = Some (IPv4 10 0 0 5) ->
  Reporter.hostAddress st = Some (lit "10.0.0.5") ->
  Reporter.hostPort st = 4949 ->
  Reporter.cachedEndpoint st = None ->
  Reporter.payloadJson env = Some json ->
  exists message,
    (Reporter.RegisterClient cfg env st).2
    = [{| Reporter.target := Spec.scenarioHost; Reporter.sent := message |}]
    /\ action message = Reporter.registerAction cfg
    /\ (Reporter.socketAccepts env = true ->
        Reporter.hasSentRegistration (Reporter.RegisterClient cfg env st).1 = true).
Proof.
  intros Hdns Hfind Hhost Hport Hcache Hjson.
  unfold Reporter.RegisterClient, Reporter.SendCommand, Reporter.EnsureHostReady.
  rewrite (IsHostResolved_scenario st Hhost). simpl.
  assert (Hres : Reporter.IsHostResolved (Reporter.setLoggedMissingHost false st) = true)
    by (apply IsHostResolved_scenario; exact Hhost).
  rewrite Hres. simpl.
  assert (Hres2 : Reporter.IsHostResolved
            (Reporter.setLoggedMissingHost false (Reporter.setLoggedMissingHost false st))
          = true) by (apply IsHostResolved_scenario; exact Hhost).
  rewrite (TryResolveEndpoint_scenario _ addresses Hdns Hfind)
    by (simpl; assumption).
  rewrite Hjson.
  destruct (negb (IsNullOrEmpty (Reporter.sharedSecret cfg)));
    destruct (Reporter.socketAccepts env); simpl; eexists; repeat split;
    try reflexivity; discriminate.
Qed.

(** An unsolicited announcement of 10.0.0.5:4949, reaching a reporter that
    has not registered yet, makes it register with that host at once. *)
Lemma HandleCommandReceived_registers_with_announced_host
    (cfg : Reporter.Config) (env : Reporter.Env) st (m : UdpCommandMessage)
    (text : list Z) (p : Announcement.t) (addresses : list IPAddress) (json : list Z) :
  IsNullOrEmpty (action m) = false ->
  Equals_OrdinalIgnoreCase (action m) (Reporter.hostAnnouncementAction cfg) = true ->
  payload m = Some text -> text <> Empty ->
  Reporter.FromJson_HostAnnouncementPayload text = Parsed (Some p) ->
  Announcement.hostAddress p = Some (lit "10.0.0.5") ->
  Announcement.hostPort p = 4949 ->
  Reporter.cachedEndpoint st = None ->
  Reporter.hasSentRegistration st = false ->
  Reporter.registerOnEnable cfg = true ->
  Reporter.Dns_GetHostAddresses (lit "10.0.0.5") = Some addresses ->
  List.find Reporter.isInterNetwork addresses = Some (IPv4 10 0 0 5) ->
  Reporter.payloadJson env = Some json ->
  exists message,
    (Reporter.HandleCommandReceived cfg env (Some m) st).2
    = [{| Reporter.target := Spec.scenarioHost; Reporter.sent := message |}]
    /\ action message = Reporter.registerAction cfg.
Proof.
  intros Haction Hkind Hpayload Htext Hparse Haddr Hport Hcache Hsent Hreg Hdns Hfind Hjson.
  unfold Reporter.HandleCommandReceived. rewrite Haction, Hkind, Hpayload. simpl.
  destruct text as [|c text]; [contradiction|]. simpl. rewrite Hparse.
  rewrite ApplyHostAnnouncement_unfold. cbv zeta.
  assert (Hannounced : Spec.announcedAddress (Some p) None = Some (lit "10.0.0.5")).
  { unfold Spec.announcedAddress. rewrite Haddr. reflexivity. }
  assert (Hp : Spec.announcedPort (Some p) st = 4949).
  { unfold Spec.announcedPort. rewrite Hport. reflexivity. }
  rewrite Hannounced, Hp. simpl IsNullOrWhiteSpace. cbv iota.
  match goal with
  | |- context [Reporter.MaybeStartReporting cfg env false ?s] => set (st' := s)
  end.
  assert (Hhost' : Reporter.hostAddress st' = Some (lit "10.0.0.5")).
  { subst st'. simpl. destruct (_ || _); reflexivity. }
  assert (Hport' : Reporter.hostPort st' = 4949).
  { subst st'. simpl. destruct (_ || _); reflexivity. }
  assert (Hcache' : Reporter.cachedEndpoint st' = None).
  { subst st'. simpl. destruct (_ || _); simpl; [reflexivity | exact Hcache]. }
  assert (Hsent' : Reporter.hasSentRegistration st' = false).
  { subst st'. simpl. destruct (_ || _); simpl; [reflexivity | exact Hsent]. }
  clearbody st'.
  unfold Reporter.MaybeStartReporting.
  rewrite (IsHostResolved_scenario st' Hhost'). simpl.
  rewrite Hsent', Hreg. simpl.
  destruct (RegisterClient_scenario cfg env (Reporter.setLoggedMissingHost false st')
              addresses json Hdns Hfind) as (message & Hout & Hact & _); auto.
  exists message. split; [|exact Hact].
  destruct (Reporter.RegisterClient cfg env (Reporter.setLoggedMissingHost false st'))
    as [st2 out]. simpl in *. exact Hout.
Qed.

(** C7, as the code has it.  An announcement applies nothing when neither
    the payload nor the sender gives an address.  Otherwise the host address
    becomes the payload's hostAddress, or the sender's address when the
    payload omits it; the host port becomes the payload's hostPort when
    positive and stays as configured otherwise; and the cached endpoint is
    dropped and the registration-sent flag cleared exactly when the port
    differs from the configured one or the address differs from it by more
    than letter case.  An announcement of 10.0.0.5 and port 4949 to a reporter
    with no cached endpoint makes 10.0.0.5:4949 the endpoint, and the next
    registration is sent there. *)
Theorem ApplyHostAnnouncement_sets_host payload remote st :
  (IsNullOrWhiteSpace (Spec.announcedAddress payload remote) = true ->
   Reporter.ApplyHostAnnouncement payload remote st = (false, st))
  /\ (IsNullOrWhiteSpace (Spec.announcedAddress payload remote) = false ->
      (Reporter.ApplyHostAnnouncement payload remote st).1 = true
      /\ Reporter.hostAddress (Reporter.ApplyHostAnnouncement payload remote st).2
         = Spec.announcedAddress payload remote
      /\ Reporter.hostPort (Reporter.ApplyHostAnnouncement payload remote st).2
         = Spec.announcedPort payload st
      /\ ((Equals_OrdinalIgnoreCase (Reporter.hostAddress st)
             (Spec.announcedAddress payload remote) = false
           \/ Spec.announcedPort payload st <> Reporter.hostPort st) ->
          Reporter.cachedEndpoint (Reporter.ApplyHostAnnouncement payload remote st).2 = None
          /\ Reporter.hasSentRegistration
               (Reporter.ApplyHostAnnouncement payload remote st).2 = false)
      /\ (Equals_OrdinalIgnoreCase (Reporter.hostAddress st)
            (Spec.announcedAddress payload remote) = true ->
          Spec.announcedPort payload st = Reporter.hostPort st ->
          Reporter.cachedEndpoint (Reporter.ApplyHostAnnouncement payload remote st).2
          = Reporter.cachedEndpoint st
          /\ Reporter.hasSentRegistration
               (Reporter.ApplyHostAnnouncement payload remote st).2
             = Reporter.hasSentRegistration st))
  /\ (forall p (cfg : Reporter.Config) (env : Reporter.Env) addresses json,
        payload = Some p ->
        Announcement.hostAddress p = Some (lit "10.0.0.5") ->
        Announcement.hostPort p = 4949 ->
        Reporter.cachedEndpoint st = None ->
        Reporter.Dns_GetHostAddresses (lit "10.0.0.5") = Some addresses ->
        List.find Reporter.isInterNetwork addresses = Some (IPv4 10 0 0 5) ->
        Reporter.payloadJson env = Some json ->
        (Reporter.TryResolveEndpoint
           (Reporter.ApplyHostAnnouncement payload remote st).2).1
        = Some Spec.scenarioHost
        /\ exists message,
             (Reporter.RegisterClient cfg env
                (Reporter.ApplyHostAnnouncement payload remote st).2).2
             = [{| Reporter.target := Spec.scenarioHost; Reporter.sent := message |}]
             /\ action message = Reporter.registerAction cfg).
Proof.
  rewrite ApplyHostAnnouncement_unfold. cbv zeta.
  split; [|split].
  - intros ->. reflexivity.
  - intros Hblank. rewrite Hblank.
    destruct (Equals_OrdinalIgnoreCase (Reporter.hostAddress st)
                (Spec.announcedAddress payload remote)) eqn:Haddr;
      destruct (Z.eqb_spec (Spec.announcedPort payload st) (Reporter.hostPort st))
        as [Hport|Hport]; simpl; repeat split; try reflexivity; try congruence;
      intros; intuition congruence.
  - intros p cfg env addresses json -> Haddr Hport Hcache Hdns Hfind Hjson.
    assert (Hannounced : Spec.announcedAddress (Some p) remote = Some (lit "10.0.0.5")).
    { unfold Spec.announcedAddress. rewrite Haddr. reflexivity. }
    assert (Hp : Spec.announcedPort (Some p) st = 4949).
    { unfold Spec.announcedPort. rewrite Hport. reflexivity. }
    rewrite Hannounced, Hp. simpl IsNullOrWhiteSpace. cbv iota.
    set (st' := (true, _).2).
    assert (Hhost' : Reporter.hostAddress st' = Some (lit "10.0.0.5")).
    { subst st'. simpl. destruct (_ || _); reflexivity. }
    assert (Hport' : Reporter.hostPort st' = 4949).
    { subst st'. simpl. destruct (_ || _); reflexivity. }
    assert (Hcache' : Reporter.cachedEndpoint st' = None).
    { subst st'. simpl. destruct (_ || _); simpl; [reflexivity | exact Hcache]. }
    split.
    + rewrite (TryResolveEndpoint_scenario st' addresses Hdns Hfind Hhost' Hport' Hcache').
      reflexivity.
    + destruct (RegisterClient_scenario cfg env st' addresses json
                  Hdns Hfind Hhost' Hport' Hcache' Hjson) as (message & Hout & Hact & _).
      exists message. split; assumption.
Qed.

End HostAnnouncement.

Section HostAnnouncementWitnesses.
Import Text Listener Samples.

(** C7, refuted as stated: the announced address [host-pc] differs from
    the configured [HOST-PC] and replaces it, yet the cached endpoint stays
    and the registration-sent flag stays set. *)
Lemma ApplyHostAnnouncement_keeps_cache_on_case_change :
  Reporter.hostAddress registered = Some (lit "HOST-PC")
  /\ Announcement.hostAddress lowerCaseAnnouncement = Some (lit "host-pc")
  /\ lit "host-pc" <> lit "HOST-PC"
  /\ (Reporter.ApplyHostAnnouncement (H := AsciiCaseMap)
        (Some lowerCaseAnnouncement) None registered).1 = true
  /\ Reporter.hostAddress
       (Reporter.ApplyHostAnnouncement (H := AsciiCaseMap)
          (Some lowerCaseAnnouncement) None registered).2 = Some (lit "host-pc")
  /\ Reporter.cachedEndpoint
       (Reporter.ApplyHostAnnouncement (H := AsciiCaseMap)
          (Some lowerCaseAnnouncement) None registered).2
     = Some {| Address := IPv4 10 0 0 5; Port := 4949 |}
  /\ Reporter.hasSentRegistration
       (Reporter.ApplyHostAnnouncement (H := AsciiCaseMap)
          (Some lowerCaseAnnouncement) None registered).2 = true.
Proof.
  split; [reflexivity | split; [reflexivity | split; [vm_compute; discriminate|]]].
  repeat split; vm_compute; reflexivity.
Qed.

Lemma ApplyHostAnnouncement_sets_host_witness :
  IsNullOrWhiteSpace (Spec.announcedAddress (Some scenarioAnnouncement) (Some sender)) = false
  /\ Reporter.cachedEndpoint probing = None
  /\ Reporter.Dns_GetHostAddresses (Network := sampleNetwork) (lit "10.0.0.5")
     = Some [IPv6 (lit "::1"); IPv4 10 0 0 5]
  /\ Reporter.hostAddress
       (Reporter.ApplyHostAnnouncement (H := AsciiCaseMap)
          (Some scenarioAnnouncement) (Some sender) probing).2 = Some (lit "10.0.0.5")
  /\ Reporter.hasSentRegistration
       (Reporter.ApplyHostAnnouncement (H := AsciiCaseMap)
          (Some scenarioAnnouncement) (Some sender) probing).2 = false
  /\ (Reporter.TryResolveEndpoint (H := AsciiCaseMap) (H0 := sampleNetwork)
        (Reporter.ApplyHostAnnouncement (H := AsciiCaseMap)
           (Some scenarioAnnouncement) (Some sender) probing).2).1
     = Some Spec.scenarioHost
  /\ (IsNullOrWhiteSpace (Spec.announcedAddress None None) = true
      /\ Reporter.ApplyHostAnnouncement (H := AsciiCaseMap) None None probing
         = (false, probing)).
Proof.
  assert (Hset : IsNullOrWhiteSpace
                   (Spec.announcedAddress (Some scenarioAnnouncement) (Some sender)) = false)
    by (vm_compute; reflexivity).
  assert (Hcache : Reporter.cachedEndpoint probing = None) by reflexivity.
  assert (Hdns : Reporter.Dns_GetHostAddresses (Network := sampleNetwork) (lit "10.0.0.5")
                 = Some [IPv6 (lit "::1"); IPv4 10 0 0 5]) by (vm_compute; reflexivity).
  assert (Hdiff : Equals_OrdinalIgnoreCase (H := AsciiCaseMap) (Reporter.hostAddress probing)
                    (Spec.announcedAddress (Some scenarioAnnouncement) (Some sender)) = false
                  \/ Spec.announcedPort (Some scenarioAnnouncement) probing
                     <> Reporter.hostPort probing)
    by (left; vm_compute; reflexivity).
  assert (Hnone : IsNullOrWhiteSpace (Spec.announcedAddress None None) = true)
    by reflexivity.
  destruct (ApplyHostAnnouncement_sets_host (cm := AsciiCaseMap) (net := sampleNetwork)
              (Some scenarioAnnouncement) (Some sender) probing)
    as (_ & Happly & Hscenario).
  destruct (Happly Hset) as (_ & Haddr & _ & Hreset & _).
  destruct (Hscenario scenarioAnnouncement reporterConfig sampleEnv
              [IPv6 (lit "::1"); IPv4 10 0 0 5] (lit "{}")
              eq_refl eq_refl eq_refl Hcache Hdns eq_refl eq_refl) as (Hendpoint & _).
  split; [exact Hset | split; [exact Hcache | split; [exact Hdns |]]].
  split; [exact Haddr|]. split; [exact (proj2 (Hreset Hdiff))|].
  split; [exact Hendpoint|]. split; [exact Hnone|].
  exact (proj1 (ApplyHostAnnouncement_sets_host (cm := AsciiCaseMap) (net := sampleNetwork)
                  None None probing) Hnone).
Defined.

End HostAnnouncementWitnesses.

(* ===================================================================== *)
(** * The roster *)
(* ===================================================================== *)

Section Roster.
Import Text Js Renderer.
Context {E : Engine}.

Implicit Types (clients : Clients) (packet : Packet) (payload : Incoming.t)
  (key v : JsValue) (d : Device.t).

Lemma Map_get_set clients key d : Map_get (Map_set clients key d) key = Some d.
Proof.
  induction clients as [|[k d0] rest IH]; simpl.
  - rewrite bool_decide_eq_true_2 by reflexivity. reflexivity.
  - destruct (bool_decide_reflect (k = key)) as [->|Hne]; simpl.
    + rewrite bool_decide_eq_true_2 by reflexivity. reflexivity.
    + rewrite bool_decide_eq_false_2 by exact Hne. exact IH.
Qed.

(** A key taken from the record or the packet does not depend on the
    roster. *)
Lemma keyOf_keyed clients clients' packet payload :
  Spec.keyed packet payload ->
  keyOf clients' packet payload = keyOf clients packet payload.
Proof.
  unfold Spec.keyed, keyOf, or. intros [Hid|Haddr].
  - rewrite Hid. simpl. rewrite Hid. reflexivity.
  - destruct (truthy (Incoming.deviceId payload)) eqn:Hid.
    + rewrite Hid. reflexivity.
    + rewrite Haddr. reflexivity.
Qed.

Lemma upsertClient_entry portInput now packet payload clients :
  Spec.entryAfter portInput now packet payload clients
  = Some (updatedDevice portInput now packet payload
            (match Map_get clients (keyOf clients packet payload) with
             | Some d => d
             | None => freshDevice now (keyOf clients packet payload) packet payload
             end)).
Proof. unfold Spec.entryAfter, upsertClient. apply Map_get_set. Qed.

(** ** One field at a time *)

Lemma assign_twice v old : assign v (assign v old) = assign v old.
Proof. unfold assign. destruct (present v); reflexivity. Qed.

Lemma or_truthy a b : truthy b = true -> truthy (or a b) = true.
Proof. unfold or. destruct (truthy a) eqn:Ha; auto. Qed.

Lemma or_fixed a b : truthy a = true -> or a b = a.
Proof. unfold or. intros ->. reflexivity. Qed.

Lemma named_twice v old id :
  let first := if negb (truthy (assign v old)) then id else assign v old in
  (if negb (truthy (assign v first)) then id else assign v first) = first.
Proof.
  unfold assign. destruct (present v) eqn:Hv; simpl; [reflexivity|].
  destruct (truthy old) eqn:Hold; simpl.
  - rewrite Hold. reflexivity.
  - destruct (truthy id) eqn:Hid; reflexivity.
Qed.

Lemma fallback_twice v old fallback :
  or (assign v (or (assign v old) fallback)) fallback = or (assign v old) fallback.
Proof.
  unfold assign, or. destruct (present v) eqn:Hv; [reflexivity|].
  destruct (truthy old) eqn:Hold.
  - rewrite Hold. reflexivity.
  - destruct (truthy fallback) eqn:Hf; reflexivity.
Qed.

Lemma scene_twice v old :
  or (assign v (or (assign v old) old)) (or (assign v old) old) = or (assign v old) old.
Proof.
  unfold assign, or. destruct (present v) eqn:Hv.
  - destruct (truthy v) eqn:Htv; [reflexivity|].
    destruct (truthy old); reflexivity.
  - destruct (truthy old) eqn:Hold; rewrite ?Hold; reflexivity.
Qed.

Lemma port_twice v old portInput :
  or (or (assign v (or (or (assign v old) portInput) (JsNumber 3939))) portInput)
     (JsNumber 3939)
  = or (or (assign v old) portInput) (JsNumber 3939).
Proof.
  unfold assign. destruct (present v) eqn:Hv; [reflexivity|].
  assert (Htruthy : truthy (or (or old portInput) (JsNumber 3939)) = true)
    by (apply or_truthy; reflexivity).
  rewrite (or_fixed _ portInput Htruthy). apply or_fixed. exact Htruthy.
Qed.

(** Applying a record to the entry it has just produced changes [lastSeen]
    only. *)
Lemma updatedDevice_twice portInput now1 now2 packet payload d :
  Spec.sameExceptLastSeen
    (updatedDevice portInput now1 packet payload d)
    (updatedDevice portInput now2 packet payload
       (updatedDevice portInput now1 packet payload d)).
Proof.
  unfold Spec.sameExceptLastSeen, updatedDevice. cbn [Device.deviceId Device.deviceName
    Device.platform Device.buildVersion Device.ipv4 Device.scene Device.commandPort
    Device.remoteAddress Device.remotePort Device.firstSeen Device.lastSeen].
  rewrite !assign_twice.
  repeat split.
  - symmetry. apply named_twice.
  - symmetry. apply fallback_twice.
  - symmetry. apply scene_twice.
  - symmetry. apply port_twice.
Qed.

(** C8, as the code has it.  For a record keyed by its deviceId or by the
    packet's address, with the dashboard's port field unchanged, applying the
    record a second time right after the first leaves every field of the
    entry as it was except [lastSeen], which is set to the clock reading of the
    second application: it advances when the clock has advanced.  In each
    single application a field the record leaves undefined or null keeps the
    value the entry had (for deviceName, ipv4 and commandPort, whose
    empty values are filled in by a default, when that value is not empty),
    while [lastSeen], [remoteAddress] and [remotePort] are always set from
    the clock and the packet. *)
Theorem upsertClient_same_record_twice
    (portInput : JsValue) (now1 now2 : Z) packet payload clients :
  (Spec.keyed packet payload ->
   exists first second,
     Spec.entryAfter portInput now1 packet payload clients = Some first
     /\ Spec.entryAfter portInput now2 packet payload
          (upsertClient portInput now1 packet payload clients) = Some second
     /\ Spec.sameExceptLastSeen first second
     /\ Device.lastSeen first = now1
     /\ Device.lastSeen second = now2
     /\ (now1 < now2 -> Device.lastSeen first < Device.lastSeen second))
  /\ (forall current updated,
        Map_get clients (keyOf clients packet payload) = Some current ->
        Spec.entryAfter portInput now1 packet payload clients = Some updated ->
        (present (Incoming.deviceId payload) = false ->
         Device.deviceId updated = Device.deviceId current)
        /\ (present (Incoming.platform payload) = false ->
            Device.platform updated = Device.platform current)
        /\ (present (Incoming.buildVersion payload) = false ->
            Device.buildVersion updated = Device.buildVersion current)
        /\ (present (Incoming.scene payload) = false ->
            Device.scene updated = Device.scene current)
        /\ (present (Incoming.deviceName payload) = false ->
            truthy (Device.deviceName current) = true ->
            Device.deviceName updated = Device.deviceName current)
        /\ (present (Incoming.ipv4 payload) = false ->
            truthy (Device.ipv4 current) = true ->
            Device.ipv4 updated = Device.ipv4 current)
        /\ (present (Incoming.commandPort payload) = false ->
            truthy (Device.commandPort current) = true ->
            Device.commandPort updated = Device.commandPort current)
        /\ Device.firstSeen updated = Device.firstSeen current
        /\ Device.lastSeen updated = now1
        /\ Device.remoteAddress updated = address packet
        /\ Device.remotePort updated = port packet).
Proof.
  split.
  - intros Hkeyed. rewrite !upsertClient_entry.
    rewrite (keyOf_keyed clients (upsertClient portInput now1 packet payload clients)
               packet payload Hkeyed).
    unfold upsertClient at 1. rewrite Map_get_set.
    do 2 eexists. split; [reflexivity|]. split; [reflexivity|].
    split; [apply updatedDevice_twice|]. simpl. auto.
  - intros current updated Hcur. rewrite upsertClient_entry, Hcur. intros [= <-].
    unfold updatedDevice, assign. simpl.
    repeat split.
    + intros ->. reflexivity.
    + intros ->. reflexivity.
    + intros ->. reflexivity.
    + intros ->. unfold or. destruct (truthy (Device.scene current)); reflexivity.
    + intros -> ->. reflexivity.
    + intros -> Ht. apply or_fixed. exact Ht.
    + intros -> Ht. rewrite (or_fixed _ portInput Ht). apply or_fixed. exact Ht.
Qed.

Lemma renderCards_cards now entries :
  forall selectedDevices,
  map cardKey (renderCards now entries selectedDevices).1 = map fst entries
  /\ map offline (renderCards now entries selectedDevices).1
     = map (fun entry => isOffline now entry.2) entries.
Proof.
  induction entries as [|[key device] rest IH]; intros sel; [split; reflexivity|].
  simpl.
  specialize (IH (if isOffline now device then remove sel key else sel)).
  destruct (renderCards now rest _) as [cards final]. simpl in *.
  destruct IH as [-> ->]. split; reflexivity.
Qed.

(** What [renderDeviceGrid] draws: nothing when the sort throws, and else a
    card for every entry of the sorted array. *)
Lemma renderDeviceGrid_cards now clients selectedDevices :
  match (renderDeviceGrid now clients selectedDevices).1 with
  | Some cards =>
    exists entries,
      (clients = [] /\ entries = [] \/ ordered clients = Some entries)
      /\ cards = (renderCards now entries
                    (filter (fun k => k ∈ map fst clients) selectedDevices)).1
      /\ (renderDeviceGrid now clients selectedDevices).2
         = (renderCards now entries
              (filter (fun k => k ∈ map fst clients) selectedDevices)).2
  | None =>
    clients <> [] /\ ordered clients = None
    /\ (renderDeviceGrid now clients selectedDevices).2
       = filter (fun k => k ∈ map fst clients) selectedDevices
  end.
Proof.
  unfold renderDeviceGrid. destruct clients as [|entry rest].
  - simpl. exists []. auto.
  - destruct (ordered (entry :: rest)) as [entries|] eqn:Hsort.
    + destruct (renderCards now entries _) as [cards final] eqn:Hcards. cbn [fst snd].
      exists entries. rewrite Hcards. split; [right; reflexivity | split; reflexivity].
    + simpl. auto.
Qed.

(** C9. An entry is shown online exactly when [now - lastSeen] is at most
    the timeout of 10,000 ms; the test reads nothing of the entry but
    [lastSeen] and is made anew for every card of every rendering.  A
    rendering draws a card for every entry of the sorted array, which holds
    the entries of the roster, every one and no other, and removes none; a
    rendering whose sort throws draws no card at all.  So an entry that
    receives no further record is shown offline at every reading of the
    clock later than [lastSeen] plus the timeout. *)
Theorem online_iff_within_timeout (now : Z) d :
  HEARTBEAT_TIMEOUT_MS = 10 * 1000
  /\ (isOffline now d = false <-> now - Device.lastSeen d <= HEARTBEAT_TIMEOUT_MS)
  /\ isOnline now d = negb (isOffline now d)
  /\ (forall d', Device.lastSeen d' = Device.lastSeen d -> isOffline now d' = isOffline now d)
  /\ (forall clients selectedDevices,
        match (renderDeviceGrid now clients selectedDevices).1 with
        | Some cards =>
          exists entries,
            (clients = [] /\ entries = [] \/ ordered clients = Some entries)
            /\ (Spec.lawfulSort E -> entries ≡ₚ clients)
            /\ map cardKey cards = map fst entries
            /\ map offline cards = map (fun entry => isOffline now entry.2) entries
        | None => clients <> [] /\ ordered clients = None
        end)
  /\ (forall earlier later,
        isOffline earlier d = false ->
        Device.lastSeen d + HEARTBEAT_TIMEOUT_MS < later ->
        isOffline later d = true).
Proof.
  unfold isOffline, isOnline, HEARTBEAT_TIMEOUT_MS.
  split; [reflexivity|]. split; [|split; [|split; [|split]]].
  - destruct (Z.gtb_spec (now - Device.lastSeen d) 10000); split; intros; try lia;
      congruence.
  - destruct (Z.gtb_spec (now - Device.lastSeen d) 10000),
      (Z.leb_spec (now - Device.lastSeen d) 10000); simpl; try reflexivity; lia.
  - intros d' ->. reflexivity.
  - intros clients selectedDevices.
    pose proof (renderDeviceGrid_cards now clients selectedDevices) as Hdrawn.
    destruct (renderDeviceGrid now clients selectedDevices).1 as [cards|].
    + destruct Hdrawn as (entries & Hsorted & -> & _).
      exists entries. split; [exact Hsorted|]. split.
      * intros Hlaw. destruct Hsorted as [[-> ->]|Hsorted]; [reflexivity|].
        exact (proj1 (Hlaw _ compareEntries clients) entries Hsorted).
      * apply renderCards_cards.
    + destruct Hdrawn as (Hsome & Hthrown & _). auto.
  - intros earlier later _ Hlate.
    destruct (Z.gtb_spec (later - Device.lastSeen d) 10000); [reflexivity | lia].
Qed.

End Roster.

Section SampleEngine.
Import Text Js Renderer Samples.

Section InsertionSort.
Context {A : Type} (comparator : A -> A -> option Z).

Lemma insertSorted_Permutation (x : A) (sorted placed : list A) :
  insertSorted comparator x sorted = Some placed -> placed ≡ₚ x :: sorted.
Proof.
  revert placed. induction sorted as [|y rest IH]; simpl; intros placed.
  - intros [= <-]. reflexivity.
  - destruct (comparator x y) as [c|]; [|discriminate].
    destruct (c <=? 0); [intros [= <-]; reflexivity|].
    destruct (insertSorted comparator x rest) as [tail|]; [|discriminate].
    intros [= <-]. rewrite (IH tail eq_refl). apply Permutation_swap.
Qed.

Lemma insertionSort_Permutation (array sorted : list A) :
  insertionSort comparator array = Some sorted -> sorted ≡ₚ array.
Proof.
  revert sorted. induction array as [|x rest IH]; simpl; intros sorted.
  - intros [= <-]. reflexivity.
  - destruct (insertionSort comparator rest) as [tail|]; [|discriminate].
    intros Hplaced. apply insertSorted_Permutation in Hplaced.
    rewrite Hplaced, (IH tail eq_refl). reflexivity.
Qed.

Lemma insertSorted_total (x : A) (sorted : list A) :
  (forall y, y ∈ sorted -> is_Some (comparator x y)) ->
  is_Some (insertSorted comparator x sorted).
Proof.
  induction sorted as [|y rest IH]; simpl; intros Hall; [eauto|].
  destruct (Hall y (list_elem_of_here _ _)) as [c ->].
  destruct (c <=? 0); [eauto|].
  destruct IH as [tail ->]; [|eauto].
  intros z Hz. apply Hall. right. exact Hz.
Qed.

Lemma insertionSort_total (array : list A) :
  (forall a b, a ∈ array -> b ∈ array -> is_Some (comparator a b)) ->
  is_Some (insertionSort comparator array).
Proof.
  induction array as [|x rest IH]; simpl; intros Hall; [eauto|].
  destruct IH as [sorted Hsorted].
  { intros a b Ha Hb. apply Hall; right; assumption. }
  rewrite Hsorted. apply insertSorted_total. intros y Hy.
  apply Hall; [left|]. right.
  rewrite <- (insertionSort_Permutation rest sorted Hsorted). exact Hy.
Qed.

Lemma insertionSort_throws (array : list A) :
  (2 <= length array)%nat ->
  (exists a, a ∈ array /\ forall b, comparator a b = None /\ comparator b a = None) ->
  insertionSort comparator array = None.
Proof.
  induction array as [|x rest IH]; simpl; intros Hlen (a & Ha & Hbad); [lia|].
  destruct (insertionSort comparator rest) as [sorted|] eqn:Hsorted; [|reflexivity].
  pose proof (insertionSort_Permutation rest sorted Hsorted) as Hperm.
  destruct sorted as [|y tail].
  { apply Permutation_nil_l in Hperm. subst rest. simpl in Hlen. lia. }
  simpl. apply elem_of_cons in Ha as [->|Ha].
  - rewrite (proj1 (Hbad y)). reflexivity.
  - destruct rest as [|r1 [|r2 rest']]; [simpl in Hlen; lia | |].
    + apply list_elem_of_singleton in Ha. subst r1.
      simpl in Hsorted. assert (Hy : y = a) by congruence. subst y.
      rewrite (proj2 (Hbad x)). reflexivity.
    + discriminate IH; [simpl; lia | eauto].
Qed.

End InsertionSort.

(** The engine of the examples sorts as every engine does. *)
Lemma sampleEngine_lawful : Spec.lawfulSort sampleEngine.
Proof.
  intros A comparator array. simpl. repeat split.
  - apply insertionSort_Permutation.
  - destruct array as [|x [|y rest]]; simpl; try reflexivity; lia.
  - apply insertionSort_total.
  - apply insertionSort_throws.
Qed.

End SampleEngine.

Section RosterWitnesses.
Import Text Js Renderer Samples MoreSamples.

(** C8, refuted as stated: two applications of one record within the same
    millisecond leave [lastSeen] where it was. *)
Lemma upsertClient_lastSeen_can_stand_still :
  exists first second,
    Spec.entryAfter JsNaN 1700000000000 abcPacket abcRecord [] = Some first
    /\ Spec.entryAfter JsNaN 1700000000000 abcPacket abcRecord
         (upsertClient JsNaN 1700000000000 abcPacket abcRecord []) = Some second
    /\ Device.lastSeen first = 1700000000000
    /\ Device.lastSeen second = 1700000000000
    /\ ~ (Device.lastSeen first < Device.lastSeen second).
Proof.
  do 2 eexists. split; [vm_compute; reflexivity|]. split; [vm_compute; reflexivity|].
  split; [reflexivity|]. split; [reflexivity|]. simpl. lia.
Qed.

(** A record that names no device, from a packet without an address, is
    keyed by the size of the roster: its second application makes a second
    entry, under another generated id. *)
Example upsertClient_generated_key_moves :
  exists first second,
    Spec.entryAfter JsNaN 1700000000000 namelessPacket namelessRecord [] = Some first
    /\ Spec.entryAfter JsNaN 1700000000001 namelessPacket namelessRecord
         (upsertClient JsNaN 1700000000000 namelessPacket namelessRecord [])
       = Some second
    /\ Device.deviceId first = JsString (lit "client-1")
    /\ Device.deviceId second = JsString (lit "client-2").
Proof.
  do 2 eexists. split; [vm_compute; reflexivity|]. split; [vm_compute; reflexivity|].
  split; reflexivity.
Qed.

Lemma upsertClient_same_record_twice_witness :
  Spec.keyed abcPacket abcRecord
  /\ (exists first second,
        Spec.entryAfter JsNaN 1700000000000 abcPacket abcRecord [] = Some first
        /\ Spec.entryAfter JsNaN 1700000011000 abcPacket abcRecord
             (upsertClient JsNaN 1700000000000 abcPacket abcRecord []) = Some second
        /\ Spec.sameExceptLastSeen first second
        /\ Device.lastSeen first < Device.lastSeen second)
  /\ (let clients := [(JsString (lit "abc"), abcEntry)] in
      Map_get clients (keyOf clients abcPacket abcRecord) = Some abcEntry
      /\ exists updated,
           Spec.entryAfter JsNaN 1700000000000 abcPacket abcRecord clients = Some updated
           /\ Device.deviceName updated = JsString (lit "Quest")
           /\ Device.scene updated = JsString (lit "Lobby")
           /\ Device.remotePort updated = JsNumber 50000).
Proof.
  assert (Hkeyed : Spec.keyed abcPacket abcRecord) by (left; reflexivity).
  split; [exact Hkeyed|]. split.
  - destruct (proj1 (upsertClient_same_record_twice JsNaN 1700000000000 1700000011000
                       abcPacket abcRecord []) Hkeyed)
      as (first & second & H1 & H2 & Hsame & _ & _ & Hadv).
    exists first, second.
    split; [exact H1 | split; [exact H2 | split; [exact Hsame | apply Hadv; reflexivity]]].
  - cbv zeta. split; [vm_compute; reflexivity|].
    eexists. split; [vm_compute; reflexivity|].
    pose proof (proj2 (upsertClient_same_record_twice JsNaN 1700000000000 1700000000000
                         abcPacket abcRecord [(JsString (lit "abc"), abcEntry)])
                  abcEntry _ ltac:(vm_compute; reflexivity) ltac:(vm_compute; reflexivity))
      as (_ & _ & _ & _ & Hname & _ & _ & _ & _ & _ & Hport).
    split; [exact (Hname eq_refl eq_refl)|]. split; [reflexivity | exact Hport].
Defined.

(** Two heartbeats of [abc] eleven seconds apart: offline at 10.5 s, online
    again once the second has been applied; and a rendering of the two
    devices, sorted by name, fifteen seconds after [abc] was heard of. *)
Lemma online_iff_within_timeout_witness :
  isOffline 1700000010500 abcEntry = true
  /\ (isOffline 1699999995000 abcEntry = false
      /\ Device.lastSeen abcEntry + HEARTBEAT_TIMEOUT_MS < 1700000010500
      /\ isOffline 1700000010500 abcEntry = true)
  /\ (exists refreshed,
        Spec.entryAfter JsNaN 1700000001000 abcPacket abcRecord
          [(JsString (lit "abc"), abcEntry)] = Some refreshed
        /\ isOffline 1700000001000 refreshed = false)
  /\ (Spec.lawfulSort sampleEngine
      /\ (renderDeviceGrid (H := sampleEngine) dashboardNow roster []).1
         = Some [{| cardKey := JsString (lit "xyz"); offline := false; selected := false |};
                 {| cardKey := JsString (lit "abc"); offline := true; selected := false |}]
      /\ exists entries,
           entries ≡ₚ roster
           /\ map fst entries = [JsString (lit "xyz"); JsString (lit "abc")]
           /\ map (fun entry => isOffline dashboardNow entry.2) entries = [false; true]).
Proof.
  assert (Hon : isOffline 1699999995000 abcEntry = false) by reflexivity.
  assert (Hlate : Device.lastSeen abcEntry + HEARTBEAT_TIMEOUT_MS < 1700000010500)
    by reflexivity.
  destruct (online_iff_within_timeout (E := sampleEngine) 1700000010500 abcEntry)
    as (_ & _ & _ & _ & _ & Hoff).
  split; [exact (Hoff _ _ Hon Hlate)|].
  split; [split; [exact Hon | split; [exact Hlate | exact (Hoff _ _ Hon Hlate)]]|].
  split; [eexists; split; [vm_compute; reflexivity | reflexivity]|].
  assert (Hcards : (renderDeviceGrid (H := sampleEngine) dashboardNow roster []).1
                   = Some [{| cardKey := JsString (lit "xyz"); offline := false;
                              selected := false |};
                           {| cardKey := JsString (lit "abc"); offline := true;
                              selected := false |}])
    by (vm_compute; reflexivity).
  split; [exact sampleEngine_lawful | split; [exact Hcards|]].
  destruct (online_iff_within_timeout (E := sampleEngine) dashboardNow abcEntry)
    as (_ & _ & _ & _ & Hdrawn & _).
  specialize (Hdrawn roster []). rewrite Hcards in Hdrawn.
  destruct Hdrawn as (entries & _ & Hperm & Hkeys & Hflags).
  exists entries. split; [exact (Hperm sampleEngine_lawful)|].
  split; [symmetry; exact Hkeys | symmetry; exact Hflags].
Defined.

End RosterWitnesses.

(* ===================================================================== *)
(** * The dashboard *)
(* ===================================================================== *)

Section Selection.
Import Text Js Renderer Dashboard.
Context {E : Engine}.

Implicit Types (clients entries : Clients) (key k : JsValue) (d : Device.t)
  (selectedDevices : list JsValue).

Lemma elem_of_remove selectedDevices key k :
  k ∈ remove selectedDevices key <-> k ∈ selectedDevices /\ k <> key.
Proof. unfold remove. rewrite list_elem_of_filter. tauto. Qed.

Lemma Map_get_elem_of clients k d : Map_get clients k = Some d -> (k, d) ∈ clients.
Proof.
  induction clients as [|[k0 d0] rest IH]; simpl; [discriminate|].
  destruct (decide (k0 = k)) as [->|Hne].
  - rewrite bool_decide_eq_true_2 by reflexivity. intros [= ->]. left.
  - rewrite bool_decide_eq_false_2 by exact Hne. intros H. right. auto.
Qed.

Lemma Map_get_None clients k : Map_get clients k = None <-> k ∉ map fst clients.
Proof.
  induction clients as [|[k0 d0] rest IH]; simpl.
  - split; [intros _; apply not_elem_of_nil | reflexivity].
  - rewrite not_elem_of_cons. destruct (decide (k0 = k)) as [->|Hne].
    + rewrite bool_decide_eq_true_2 by reflexivity. split; [discriminate | tauto].
    + rewrite bool_decide_eq_false_2 by exact Hne. rewrite IH. split; [|tauto].
      intros H. split; [congruence | exact H].
Qed.

Lemma Map_get_NoDup clients k d :
  NoDup (map fst clients) -> (k, d) ∈ clients -> Map_get clients k = Some d.
Proof.
  induction clients as [|[k0 d0] rest IH]; simpl; intros Hnd Hin.
  - apply elem_of_nil in Hin. contradiction.
  - apply NoDup_cons in Hnd as [Hfresh Hnd]. apply elem_of_cons in Hin as [[= -> ->]|Hin].
    + rewrite bool_decide_eq_true_2 by reflexivity. reflexivity.
    + rewrite bool_decide_eq_false_2; [auto|].
      intros ->. apply Hfresh. apply (list_elem_of_fmap_2 fst) in Hin. exact Hin.
Qed.

Lemma renderCards_selection now entries :
  forall selectedDevices k,
  k ∈ (renderCards now entries selectedDevices).2
  <-> k ∈ selectedDevices /\ forall d, (k, d) ∈ entries -> isOffline now d = false.
Proof.
  induction entries as [|[key device] rest IH]; intros selectedDevices k; simpl.
  - split; [intros H; split; [exact H|] | tauto].
    intros d Hin. apply elem_of_nil in Hin. contradiction.
  - specialize (IH (if isOffline now device then remove selectedDevices key
                    else selectedDevices) k).
    destruct (renderCards now rest _) as [cards final]. simpl in *. rewrite IH.
    split.
    + intros [Hin Hrest]. destruct (isOffline now device) eqn:Hoff.
      * apply elem_of_remove in Hin as [Hin Hne]. split; [exact Hin|].
        intros d [[= -> ->]|Hd]%elem_of_cons; [congruence | auto].
      * split; [exact Hin|].
        intros d [[= -> ->]|Hd]%elem_of_cons; [exact Hoff | auto].
    + intros [Hin Hall]. split.
      * destruct (isOffline now device) eqn:Hoff; [|exact Hin].
        apply elem_of_remove. split; [exact Hin|]. intros ->.
        specialize (Hall device (list_elem_of_here _ _)). congruence.
      * intros d Hd. apply Hall. right. exact Hd.
Qed.

Lemma renderCards_NoDup now entries :
  forall selectedDevices,
  NoDup selectedDevices -> NoDup (renderCards now entries selectedDevices).2.
Proof.
  induction entries as [|[key device] rest IH]; intros selectedDevices Hnd; simpl; [exact Hnd|].
  specialize (IH (if isOffline now device then remove selectedDevices key
                  else selectedDevices)).
  destruct (renderCards now rest _) as [cards final]. simpl in *. apply IH.
  destruct (isOffline now device); [apply NoDup_filter|]; exact Hnd.
Qed.

Lemma renderCards_flags now entries :
  forall selectedDevices,
  NoDup (map fst entries) ->
  Forall (fun card =>
            selected card
            = has (renderCards now entries selectedDevices).2 (cardKey card)
            /\ (offline card = true -> selected card = false))
         (renderCards now entries selectedDevices).1.
Proof.
  induction entries as [|[key device] rest IH]; intros selectedDevices Hnd; simpl;
    [constructor|].
  apply NoDup_cons in Hnd as [Hfresh Hnd].
  pose proof (renderCards_selection now rest
                (if isOffline now device then remove selectedDevices key
                 else selectedDevices) key) as Hkey.
  specialize (IH (if isOffline now device then remove selectedDevices key
                  else selectedDevices) Hnd).
  destruct (renderCards now rest _) as [cards final]. simpl in *.
  constructor; [|exact IH]. simpl. split.
  - unfold has. apply bool_decide_ext. rewrite Hkey. split; [|tauto].
    intros Hin. split; [exact Hin|]. intros d Hd. exfalso. apply Hfresh.
    apply (list_elem_of_fmap_2 fst) in Hd. exact Hd.
  - intros ->. unfold has. apply bool_decide_eq_false_2.
    rewrite elem_of_remove. tauto.
Qed.

(** ** When the sort throws *)

Lemma compareEntries_sortable (a b : JsValue * Device.t) :
  Spec.sortable a.2 -> Spec.sortable b.2 -> is_Some (compareEntries a b).
Proof.
  intros [[nameA HnameA] [sceneA HsceneA]] [[nameB HnameB] _].
  unfold compareEntries. rewrite HnameA, HnameB, HsceneA.
  destruct (bool_decide _); eauto.
Qed.

Lemma compareEntries_throws (a : JsValue * Device.t) :
  sortName a.2 = None ->
  forall b, compareEntries a b = None /\ compareEntries b a = None.
Proof.
  intros Hname b. unfold compareEntries. rewrite Hname.
  split; [reflexivity|]. destruct (sortName b.2); reflexivity.
Qed.

Lemma drawn_iff now clients selectedDevices :
  is_Some (renderDeviceGrid now clients selectedDevices).1 <-> Spec.drawn clients.
Proof.
  unfold renderDeviceGrid, Spec.drawn. destruct clients as [|entry rest].
  - simpl. split; eauto.
  - destruct (ordered (entry :: rest)) as [entries|].
    + destruct (renderCards now entries _). simpl. split; eauto.
    + simpl. split; [intros [? [=]] | intros [[=]|[? [=]]]].
Qed.

Lemma sortable_drawn clients :
  Spec.lawfulSort E ->
  Forall (fun entry => Spec.sortable entry.2) clients -> Spec.drawn clients.
Proof.
  intros Hlaw Hall. right. unfold ordered.
  apply (Hlaw _ compareEntries clients). intros a b Ha Hb.
  rewrite Forall_forall in Hall. apply compareEntries_sortable; auto.
Qed.

Lemma unsortable_not_drawn clients entry :
  Spec.lawfulSort E ->
  (2 <= length clients)%nat -> entry ∈ clients -> sortName entry.2 = None ->
  ~ Spec.drawn clients.
Proof.
  intros Hlaw Hlen Hin Hname [->|[entries Hsorted]]; [simpl in Hlen; lia|].
  unfold ordered in Hsorted.
  rewrite (proj2 (proj2 (proj2 (Hlaw _ compareEntries clients))) Hlen) in Hsorted;
    [discriminate|].
  exists entry. split; [exact Hin | apply compareEntries_throws, Hname].
Qed.

(** ** The selection a rendering leaves *)

Lemma renderDeviceGrid_drawn now clients selectedDevices :
  Spec.lawfulSort E -> Spec.drawn clients ->
  exists entries,
    entries ≡ₚ clients
    /\ renderDeviceGrid now clients selectedDevices
       = ((Some (renderCards now entries
                   (filter (fun k => k ∈ map fst clients) selectedDevices)).1),
          (renderCards now entries
             (filter (fun k => k ∈ map fst clients) selectedDevices)).2).
Proof.
  intros Hlaw Hdrawn. unfold renderDeviceGrid. destruct clients as [|entry rest].
  - exists []. split; reflexivity.
  - destruct Hdrawn as [[=]|[entries Hsorted]]. rewrite Hsorted.
    exists entries. split; [exact (proj1 (Hlaw _ compareEntries _) entries Hsorted)|].
    destruct (renderCards now entries _). reflexivity.
Qed.

Lemma renderDeviceGrid_thrown now clients selectedDevices :
  ~ Spec.drawn clients ->
  renderDeviceGrid now clients selectedDevices
  = (None, filter (fun k => k ∈ map fst clients) selectedDevices).
Proof.
  intros Hthrown. unfold renderDeviceGrid. destruct clients as [|entry rest].
  - exfalso. apply Hthrown. left. reflexivity.
  - destruct (ordered (entry :: rest)) as [entries|] eqn:Hsorted; [|reflexivity].
    exfalso. apply Hthrown. right. eauto.
Qed.

Lemma renderDeviceGrid_elem_of now clients selectedDevices k :
  Spec.lawfulSort E -> NoDup (map fst clients) -> Spec.drawn clients ->
  k ∈ (renderDeviceGrid now clients selectedDevices).2
  <-> k ∈ selectedDevices
      /\ exists d, Map_get clients k = Some d /\ isOffline now d = false.
Proof.
  intros Hlaw Hnd Hdrawn.
  destruct (renderDeviceGrid_drawn now clients selectedDevices Hlaw Hdrawn)
    as (entries & Hperm & ->).
  cbn [snd]. rewrite renderCards_selection, list_elem_of_filter.
  split.
  - intros [[Hvalid Hin] Hall]. split; [exact Hin|].
    destruct (Map_get clients k) as [d|] eqn:Hget.
    + exists d. split; [reflexivity|]. apply Hall. rewrite Hperm.
      apply Map_get_elem_of, Hget.
    + apply Map_get_None in Hget. contradiction.
  - intros [Hin (d & Hget & Hon)]. split; [split; [|exact Hin]|].
    + apply Map_get_elem_of in Hget. apply (list_elem_of_fmap_2 fst) in Hget. exact Hget.
    + intros d' Hd'. rewrite Hperm in Hd'.
      apply (Map_get_NoDup clients k d' Hnd) in Hd'. congruence.
Qed.

Lemma renderDeviceGrid_elem_of_thrown now clients selectedDevices k :
  ~ Spec.drawn clients ->
  k ∈ (renderDeviceGrid now clients selectedDevices).2
  <-> k ∈ selectedDevices /\ is_Some (Map_get clients k).
Proof.
  intros Hthrown. rewrite (renderDeviceGrid_thrown now clients selectedDevices Hthrown).
  cbn [snd]. rewrite list_elem_of_filter.
  assert (Hkey : k ∈ map fst clients <-> is_Some (Map_get clients k)).
  { destruct (Map_get clients k) as [d|] eqn:Hget.
    - split; [eauto|]. intros _. apply Map_get_elem_of in Hget.
      apply (list_elem_of_fmap_2 fst) in Hget. exact Hget.
    - apply Map_get_None in Hget. split; [contradiction | intros [? [=]]]. }
  rewrite Hkey. tauto.
Qed.

Lemma renderDeviceGrid_NoDup now clients selectedDevices :
  NoDup selectedDevices -> NoDup (renderDeviceGrid now clients selectedDevices).2.
Proof.
  intros Hsel. unfold renderDeviceGrid. destruct clients as [|entry rest].
  - apply NoDup_filter, Hsel.
  - destruct (ordered (entry :: rest)) as [entries|]; [|apply NoDup_filter, Hsel].
    pose proof (renderCards_NoDup now entries
                  (filter (fun k => k ∈ map fst (entry :: rest)) selectedDevices)
                  (NoDup_filter _ _ Hsel)) as Hfinal.
    destruct (renderCards now entries _). exact Hfinal.
Qed.

(** X20. A rendering that gets to its cards, the sort not having thrown,
    draws a card for every key of the roster, and the selection it leaves
    holds exactly the keys that were selected, are keys of the roster and
    belong to a device that is online at that reading of the clock; a card
    is marked selected exactly when its key is in that selection, and no
    card is both offline and selected.  The sort does not throw when every
    entry shows a string as its name and as its scene; it throws, in a
    roster of two or more, when one entry shows a name that is no string,
    and then no card is drawn and the selection keeps every selected key
    of the roster, offline or not.  A selection without duplicates stays
    so in every case. *)
Theorem renderDeviceGrid_keeps_online_selection now clients selectedDevices :
  Spec.lawfulSort E ->
  NoDup (map fst clients) ->
  match (renderDeviceGrid now clients selectedDevices).1 with
  | Some cards =>
    Spec.drawn clients
    /\ map cardKey cards ≡ₚ map fst clients
    /\ (forall k,
          k ∈ (renderDeviceGrid now clients selectedDevices).2
          <-> k ∈ selectedDevices
              /\ exists d, Map_get clients k = Some d /\ isOffline now d = false)
    /\ Forall (fun card =>
                 selected card
                 = has (renderDeviceGrid now clients selectedDevices).2 (cardKey card)
                 /\ (offline card = true -> selected card = false))
              cards
  | None =>
    ~ Spec.drawn clients
    /\ forall k,
         k ∈ (renderDeviceGrid now clients selectedDevices).2
         <-> k ∈ selectedDevices /\ is_Some (Map_get clients k)
  end
  /\ (Forall (fun entry => Spec.sortable entry.2) clients -> Spec.drawn clients)
  /\ ((2 <= length clients)%nat ->
      (exists entry, entry ∈ clients /\ sortName entry.2 = None) ->
      ~ Spec.drawn clients)
  /\ (NoDup selectedDevices -> NoDup (renderDeviceGrid now clients selectedDevices).2).
Proof.
  intros Hlaw Hnd. split; [|split; [|split]].
  - pose proof (drawn_iff now clients selectedDevices) as Hdrawn.
    destruct (renderDeviceGrid now clients selectedDevices).1 as [cards|] eqn:Hcards.
    + assert (Hd : Spec.drawn clients) by (apply Hdrawn; eauto).
      split; [exact Hd|].
      pose proof (fun k => renderDeviceGrid_elem_of now clients selectedDevices k
                             Hlaw Hnd Hd) as Hmem.
      destruct (renderDeviceGrid_drawn now clients selectedDevices Hlaw Hd)
        as (entries & Hperm & Hgrid).
      rewrite Hgrid in Hcards, Hmem |- *. cbn [fst snd] in *.
      injection Hcards as <-.
      split; [|split; [exact Hmem|]].
      * rewrite (proj1 (renderCards_cards now entries _)), Hperm. reflexivity.
      * apply renderCards_flags. rewrite Hperm. exact Hnd.
    + assert (Hd : ~ Spec.drawn clients).
      { intros Hd. apply Hdrawn in Hd as [? [=]]. }
      split; [exact Hd|]. intros k.
      apply renderDeviceGrid_elem_of_thrown, Hd.
  - apply sortable_drawn, Hlaw.
  - intros Hlen (entry & Hin & Hname).
    exact (unsortable_not_drawn clients entry Hlaw Hlen Hin Hname).
  - apply renderDeviceGrid_NoDup.
Qed.

End Selection.

Section RosterInvariants.
Import Text Js Renderer.

Implicit Types (clients : Clients) (key k : JsValue) (d : Device.t)
  (packet : Packet) (payload : Incoming.t).

Lemma Map_set_other clients key d k :
  k <> key -> Map_get (Map_set clients key d) k = Map_get clients k.
Proof.
  intros Hne. induction clients as [|[k0 d0] rest IH]; simpl.
  - rewrite bool_decide_eq_false_2 by congruence. reflexivity.
  - destruct (decide (k0 = key)) as [->|Hkey].
    + rewrite bool_decide_eq_true_2 by reflexivity. simpl.
      rewrite !bool_decide_eq_false_2 by congruence. reflexivity.
    + rewrite (bool_decide_eq_false_2 (k0 = key)) by exact Hkey. simpl.
      rewrite IH. reflexivity.
Qed.

Lemma Map_set_keys clients key d :
  map fst (Map_set clients key d)
  = match Map_get clients key with
    | Some _ => map fst clients
    | None => map fst clients ++ [key]
    end.
Proof.
  induction clients as [|[k0 d0] rest IH]; simpl; [reflexivity|].
  destruct (decide (k0 = key)) as [->|Hkey].
  - rewrite !bool_decide_eq_true_2 by reflexivity. reflexivity.
  - rewrite !bool_decide_eq_false_2 by exact Hkey. simpl. rewrite IH.
    destruct (Map_get rest key); reflexivity.
Qed.

(** X21. [upsertClient] touches one entry of the roster: the keys stay
    distinct, every other key keeps its entry, and the roster grows by the
    one key exactly when that key is new.  The entry written carries the
    packet's address and port and the clock reading as [lastSeen], and
    keeps the [firstSeen] of the entry it replaces. *)
Theorem upsertClient_touches_one_entry portInput now packet payload clients :
  NoDup (map fst clients) ->
  NoDup (map fst (upsertClient portInput now packet payload clients))
  /\ (forall k, k <> keyOf clients packet payload ->
                Map_get (upsertClient portInput now packet payload clients) k
                = Map_get clients k)
  /\ map fst (upsertClient portInput now packet payload clients)
     = match Map_get clients (keyOf clients packet payload) with
       | Some _ => map fst clients
       | None => map fst clients ++ [keyOf clients packet payload]
       end
  /\ exists entry,
       Map_get (upsertClient portInput now packet payload clients)
               (keyOf clients packet payload) = Some entry
       /\ Device.lastSeen entry = now
       /\ Device.firstSeen entry
          = match Map_get clients (keyOf clients packet payload) with
            | Some d => Device.firstSeen d
            | None => now
            end
       /\ Device.remoteAddress entry = address packet
       /\ Device.remotePort entry = port packet.
Proof.
  intros Hnd. unfold upsertClient.
  set (key := keyOf clients packet payload).
  split; [|split; [|split]].
  - rewrite Map_set_keys. destruct (Map_get clients key) eqn:Hget; [exact Hnd|].
    apply NoDup_app. split; [exact Hnd|]. split; [|apply NoDup_singleton].
    intros k Hin ->%list_elem_of_singleton. apply Map_get_None in Hget. contradiction.
  - intros k Hk. apply Map_set_other. exact Hk.
  - apply Map_set_keys.
  - eexists. split; [apply Map_get_set|].
    destruct (Map_get clients key); simpl; auto.
Qed.

End RosterInvariants.

Section SelectingAll.
Import Text Js Renderer Dashboard.
Context {E : Engine}.

Implicit Types (clients : Clients) (key k : JsValue) (d : Device.t)
  (selectedDevices : list JsValue).

Lemma elem_of_add selectedDevices key k :
  k ∈ add selectedDevices key <-> k ∈ selectedDevices \/ k = key.
Proof.
  unfold add, has. destruct (bool_decide_reflect (key ∈ selectedDevices)) as [Hin|Hout].
  - split; [auto|]. intros [H| ->]; assumption.
  - rewrite elem_of_app, list_elem_of_singleton. reflexivity.
Qed.

Lemma NoDup_add selectedDevices key : NoDup selectedDevices -> NoDup (add selectedDevices key).
Proof.
  intros Hnd. unfold add, has.
  destruct (bool_decide_reflect (key ∈ selectedDevices)) as [Hin|Hout]; [exact Hnd|].
  apply NoDup_app. split; [exact Hnd|]. split; [|apply NoDup_singleton].
  intros k Hk ->%list_elem_of_singleton. contradiction.
Qed.

Lemma selectOnline_elem_of now clients :
  forall selectedDevices k,
  k ∈ fold_left (fun selection entry =>
                   if isOnline now entry.2 then add selection entry.1 else selection)
                clients selectedDevices
  <-> k ∈ selectedDevices \/ exists d, (k, d) ∈ clients /\ isOnline now d = true.
Proof.
  induction clients as [|[key device] rest IH]; intros selectedDevices k; simpl.
  - split; [auto|]. intros [H|(d & Hin & _)]; [exact H|].
    apply elem_of_nil in Hin. contradiction.
  - rewrite IH. split.
    + intros [Hin|(d & Hin & Hon)].
      * destruct (isOnline now device) eqn:Hon; [|auto].
        apply elem_of_add in Hin as [Hin| ->]; [auto|].
        right. exists device. split; [left | exact Hon].
      * right. exists d. split; [right; exact Hin | exact Hon].
    + intros [Hin|(d & [[= -> ->]|Hin]%elem_of_cons & Hon)].
      * left. destruct (isOnline now device); [apply elem_of_add; auto | exact Hin].
      * left. rewrite Hon. apply elem_of_add. auto.
      * right. eauto.
Qed.

Lemma selectOnline_NoDup now clients :
  forall selectedDevices,
  NoDup selectedDevices ->
  NoDup (fold_left (fun selection entry =>
                      if isOnline now entry.2 then add selection entry.1 else selection)
                   clients selectedDevices).
Proof.
  induction clients as [|[key device] rest IH]; intros selectedDevices Hnd; simpl;
    [exact Hnd|].
  apply IH. destruct (isOnline now device); [apply NoDup_add|]; exact Hnd.
Qed.

Lemma offlineCount_filter now clients :
  forall count,
  fold_left (fun count entry => if isOffline now entry.2 then count + 1 else count)
            clients count
  = count + Z.of_nat (length (List.filter (fun entry => isOffline now entry.2) clients)).
Proof.
  induction clients as [|[key device] rest IH]; intros count; simpl; [lia|].
  rewrite IH. destruct (isOffline now device); simpl; lia.
Qed.

Lemma filter_complement_length {A : Type} (f : A -> bool) (l : list A) :
  (length (List.filter f l) + length (List.filter (fun x => negb (f x)) l) = length l)%nat.
Proof. induction l as [|x l IH]; simpl; [reflexivity|]. destruct (f x); simpl; lia. Qed.

Lemma online_earlier (earlier later : Z) d :
  earlier <= later -> isOffline later d = false -> isOffline earlier d = false.
Proof.
  unfold isOffline. intros Hle Hon.
  destruct (Z.gtb_spec (later - Device.lastSeen d) HEARTBEAT_TIMEOUT_MS); [discriminate|].
  destruct (Z.gtb_spec (earlier - Device.lastSeen d) HEARTBEAT_TIMEOUT_MS); [lia | reflexivity].
Qed.

Lemma isOnline_not_offline now d : isOnline now d = negb (isOffline now d).
Proof.
  unfold isOnline, isOffline.
  destruct (Z.gtb_spec (now - Device.lastSeen d) HEARTBEAT_TIMEOUT_MS),
    (Z.leb_spec (now - Device.lastSeen d) HEARTBEAT_TIMEOUT_MS); simpl; try reflexivity; lia.
Qed.

(** X22. With a clock that does not run backwards, [selectAllDevices]
    leaves selected exactly the devices that are online when the grid is
    rendered, whatever was selected before, and [updateDeviceStats] then
    disables the select-all button: so it is when the rendering gets to
    its cards.  When the sort throws, the selection is left as the loop
    over the roster made it: the keys of the roster that were selected, and
    those of the devices online at the reading of [selectAllDevices].  In
    either case the selection has no duplicates. *)
Theorem selectAllDevices_selects_the_online_devices now renderNow statsNow clients
    selectedDevices :
  Spec.lawfulSort E ->
  NoDup (map fst clients) ->
  NoDup selectedDevices ->
  now <= renderNow -> renderNow <= statsNow ->
  (Spec.drawn clients ->
   (forall k,
      k ∈ selectAllDevices now renderNow clients selectedDevices
      <-> exists d, Map_get clients k = Some d /\ isOffline renderNow d = false)
   /\ selectAllDisabled
        (updateDeviceStats statsNow clients
           (selectAllDevices now renderNow clients selectedDevices)) = true)
  /\ (~ Spec.drawn clients ->
      forall k,
        k ∈ selectAllDevices now renderNow clients selectedDevices
        <-> (k ∈ selectedDevices /\ is_Some (Map_get clients k))
            \/ exists d, Map_get clients k = Some d /\ isOnline now d = true)
  /\ NoDup (selectAllDevices now renderNow clients selectedDevices).
Proof.
  intros Hlaw Hnd Hsel Hclock Hclock'.
  assert (Hfinal : NoDup (selectAllDevices now renderNow clients selectedDevices)).
  { unfold selectAllDevices. apply renderDeviceGrid_NoDup, selectOnline_NoDup, Hsel. }
  split; [|split; [|exact Hfinal]].
  - intros Hdrawn.
    assert (Hmem : forall k,
              k ∈ selectAllDevices now renderNow clients selectedDevices
              <-> exists d, Map_get clients k = Some d /\ isOffline renderNow d = false).
    { intros k. unfold selectAllDevices.
      rewrite (renderDeviceGrid_elem_of _ _ _ _ Hlaw Hnd Hdrawn), selectOnline_elem_of.
      split.
      - intros [_ H]. exact H.
      - intros (d & Hget & Hon). split; [|eauto].
        right. exists d. split; [apply Map_get_elem_of, Hget|].
        rewrite isOnline_not_offline, (online_earlier now renderNow d Hclock Hon).
        reflexivity. }
    split; [exact Hmem|].
    unfold updateDeviceStats, selectAllDisabled. rewrite offlineCount_filter.
    apply orb_true_iff. right. apply Z.geb_le.
    pose proof (filter_complement_length (fun entry => isOffline statsNow entry.2) clients)
      as Hsplit.
    set (online := List.filter (fun entry => negb (isOffline statsNow entry.2)) clients) in *.
    assert (Hkeys : NoDup (map fst online)).
    { apply (sublist_NoDup _ (map fst clients) Hnd). apply fmap_sublist.
      subst online. clear. induction clients as [|entry rest IH]; simpl; [constructor|].
      destruct (negb _); [apply sublist_skip | apply sublist_cons]; exact IH. }
    assert (Hincl : map fst online
                    ⊆+ selectAllDevices now renderNow clients selectedDevices).
    { apply NoDup_submseteq; [exact Hkeys|]. intros k Hk.
      apply list_elem_of_fmap in Hk as ([k' d] & -> & Hin). simpl.
      subst online. apply list_elem_of_In, List.filter_In in Hin as [Hin Hon].
      apply list_elem_of_In in Hin. apply negb_true_iff in Hon. simpl in Hon.
      apply Hmem. exists d. split; [apply Map_get_NoDup; assumption|].
      apply (online_earlier renderNow statsNow d Hclock' Hon). }
    apply submseteq_length in Hincl. rewrite length_map in Hincl. lia.
  - intros Hthrown k. unfold selectAllDevices.
    rewrite (renderDeviceGrid_elem_of_thrown _ _ _ _ Hthrown), selectOnline_elem_of.
    split.
    + intros [[Hin|(d & Hin & Hon)] Hkey]; [left; auto|].
      right. exists d. split; [apply Map_get_NoDup; assumption | exact Hon].
    + intros [[Hin Hkey]|(d & Hget & Hon)]; [auto|].
      split; [|eauto]. right. exists d. split; [apply Map_get_elem_of, Hget | exact Hon].
Qed.

(** X23. A click on the card of a device that is online toggles that
    device and no other: after [toggleDeviceSelection] a key is selected
    exactly when it was selected before, for every other key, or was not,
    for the key clicked, and its device is online at the rendering, or,
    when the sort of the rendering throws, is in the roster at all.  A
    click on the card of a device that has gone offline changes nothing. *)
Theorem toggleDeviceSelection_toggles_one_device now renderNow key clients
    selectedDevices d :
  Spec.lawfulSort E ->
  NoDup (map fst clients) ->
  Map_get clients key = Some d ->
  (isOffline now d = true ->
   toggleDeviceSelection now renderNow key clients selectedDevices = selectedDevices)
  /\ (isOffline now d = false ->
      forall k,
        (Spec.drawn clients ->
         k ∈ toggleDeviceSelection now renderNow key clients selectedDevices
         <-> (if bool_decide (k = key) then k ∉ selectedDevices else k ∈ selectedDevices)
             /\ exists d', Map_get clients k = Some d' /\ isOffline renderNow d' = false)
        /\ (~ Spec.drawn clients ->
            k ∈ toggleDeviceSelection now renderNow key clients selectedDevices
            <-> (if bool_decide (k = key) then k ∉ selectedDevices
                 else k ∈ selectedDevices)
                /\ is_Some (Map_get clients k))).
Proof.
  intros Hlaw Hnd Hget. unfold toggleDeviceSelection. rewrite Hget.
  split; intros Hoff; rewrite Hoff; [reflexivity|].
  intros k.
  assert (Htoggled : k ∈ (if has selectedDevices key then remove selectedDevices key
                          else add selectedDevices key)
                     <-> (if bool_decide (k = key) then k ∉ selectedDevices
                          else k ∈ selectedDevices)
                         \/ (k = key /\ k ∉ selectedDevices)).
  { unfold has.
    destruct (bool_decide_reflect (key ∈ selectedDevices)) as [Hin|Hout];
      destruct (bool_decide_reflect (k = key)) as [->|Hne];
      rewrite ?elem_of_remove, ?elem_of_add; tauto. }
  assert (Hsame : (if bool_decide (k = key) then k ∉ selectedDevices
                   else k ∈ selectedDevices)
                  \/ (k = key /\ k ∉ selectedDevices)
                  <-> (if bool_decide (k = key) then k ∉ selectedDevices
                       else k ∈ selectedDevices)).
  { destruct (bool_decide_reflect (k = key)); tauto. }
  split.
  - intros Hdrawn. rewrite (renderDeviceGrid_elem_of _ _ _ _ Hlaw Hnd Hdrawn).
    rewrite Htoggled, Hsame. reflexivity.
  - intros Hthrown. rewrite (renderDeviceGrid_elem_of_thrown _ _ _ _ Hthrown).
    rewrite Htoggled, Hsame. reflexivity.
Qed.

End SelectingAll.

Section RelativeTime.
Import Text Js Dashboard.

Lemma max_div (x k : Z) : 0 < k -> Z.max 0 (x / k) = Z.max 0 x / k.
Proof.
  intros Hk. destruct (Z.le_gt_cases 0 x) as [Hx|Hx].
  - rewrite !Z.max_r; [reflexivity | exact Hx | apply Z.div_pos; lia].
  - rewrite !Z.max_l; [reflexivity | lia |].
    pose proof (Z.div_lt_upper_bound x k 0 Hk ltac:(lia)). lia.
Qed.

Lemma div_lt_iff (x k n : Z) : 0 < k -> (x / k <? n) = (x <? n * k).
Proof.
  intros Hk. destruct (Z.ltb_spec x (n * k)) as [Hlt|Hge].
  - apply Z.ltb_lt. apply Z.div_lt_upper_bound; lia.
  - apply Z.ltb_ge. apply Z.div_le_lower_bound; lia.
Qed.

(** X24. [formatRelativeTime] shows the elapsed time, which is never
    negative, in whole seconds below a minute, whole minutes below an hour,
    whole hours below a day and whole days from then on; each count is the
    elapsed milliseconds divided by the unit and rounded down, so the
    nested roundings of the source lose nothing.  A timestamp in the future
    shows as zero seconds, and a value that is no number as unknown. *)
Theorem formatRelativeTime_rounds_down_once (now : Z) (timestamp : JsValue) :
  match timestamp with
  | JsNumber t =>
    let elapsed := Z.max 0 (now - t) in
    formatRelativeTime now timestamp
    = (if elapsed <? 60000 then ago (elapsed / 1000) "s"
       else if elapsed <? 3600000 then ago (elapsed / 60000) "m"
       else if elapsed <? 86400000 then ago (elapsed / 3600000) "h"
       else ago (elapsed / 86400000) "d")
    /\ (now <= t -> formatRelativeTime now timestamp = ago 0 "s")
  | _ => formatRelativeTime now timestamp = unknownText
  end.
Proof.
  destruct timestamp as [| | |t| |]; try reflexivity.
  cbv zeta. unfold formatRelativeTime.
  rewrite (max_div (now - t) 1000) by lia.
  set (elapsed := Z.max 0 (now - t)).
  assert (Hpos : 0 <= elapsed) by (subst elapsed; lia).
  rewrite (div_lt_iff elapsed 1000 60) by lia.
  rewrite !Z.div_div by lia.
  rewrite (div_lt_iff elapsed (1000 * 60) 60) by lia.
  rewrite (div_lt_iff elapsed (1000 * 60 * 60) 24) by lia.
  change (60 * 1000) with 60000. change (60 * (1000 * 60)) with 3600000.
  change (24 * (1000 * 60 * 60)) with 86400000.
  change (1000 * 60) with 60000. change (60000 * 60) with 3600000.
  change (3600000 * 24) with 86400000.
  split; [reflexivity|].
  intros Hfuture. assert (elapsed = 0) as -> by (subst elapsed; lia). reflexivity.
Qed.

End RelativeTime.

Section Log.
Import Dashboard.
Context {A : Type}.

Lemma dropExcess_firstn (fuel : nat) :
  forall log : list A,
  (length log <= MAX_LOG_ENTRIES + fuel)%nat ->
  dropExcess fuel log = firstn MAX_LOG_ENTRIES log.
Proof.
  induction fuel as [|fuel IH]; intros log Hlen; simpl.
  - symmetry. apply firstn_all2. lia.
  - destruct (Nat.ltb_spec MAX_LOG_ENTRIES (length log)) as [Hover|Hfits].
    + rewrite IH.
      * rewrite removelast_firstn_len, firstn_firstn. f_equal. lia.
      * rewrite removelast_firstn_len, length_firstn. lia.
    + symmetry. apply firstn_all2. exact Hfits.
Qed.

(** X25. [appendLog] puts the new entry first and keeps the newest 200
    entries: the log is the first [MAX_LOG_ENTRIES] of the entry followed by
    the old log, so it never grows beyond that bound and loses only its
    oldest entries. *)
Theorem appendLog_keeps_newest_entries (entry : A) (log : list A) :
  appendLog entry log = firstn MAX_LOG_ENTRIES (entry :: log)
  /\ (length (appendLog entry log) <= MAX_LOG_ENTRIES)%nat
  /\ hd_error (appendLog entry log) = Some entry.
Proof.
  assert (Heq : appendLog entry log = firstn MAX_LOG_ENTRIES (entry :: log)).
  { unfold appendLog. apply dropExcess_firstn. simpl. lia. }
  rewrite Heq. split; [reflexivity|]. split; [|reflexivity].
  rewrite length_firstn. lia.
Qed.

End Log.

Section SendLoop.
Import Text Js Dashboard.

Implicit Types (targets : list Device.t) (tally : Tally).

Lemma requests_app (n1 n2 : list Note) : requests (n1 ++ n2) = requests n1 ++ requests n2.
Proof.
  induction n1 as [|[d|d t|d t] n1 IH]; simpl; [reflexivity | exact IH | |];
    rewrite IH; reflexivity.
Qed.

Lemma sendToTargets_progress (sendCommand : nat -> Target -> bool) (port : Z) targets :
  forall (i : nat) tally,
  exists done,
    Forall (fun d => is_Some (hostOf d)) done
    /\ (successCount (tallyOf (sendToTargets sendCommand port i targets tally))
        + failures (tallyOf (sendToTargets sendCommand port i targets tally))
        = successCount tally + failures tally + length done)%nat
    /\ requests (notes (tallyOf (sendToTargets sendCommand port i targets tally)))
       = requests (notes tally) ++ omap (requestFor port) done
    /\ length (notes (tallyOf (sendToTargets sendCommand port i targets tally)))
       = (length (notes tally) + length done)%nat
    /\ match sendToTargets sendCommand port i targets tally with
       | Completed _ => done = targets
       | TypeError _ =>
         exists bad rest, targets = done ++ bad :: rest /\ hostOf bad = None
       end.
Proof.
  induction targets as [|device rest IH]; intros i tally; simpl.
  - exists []. simpl. rewrite app_nil_r. repeat split; auto; lia.
  - unfold requestFor. destruct (hostOf device) as [host|] eqn:Hhost.
    + assert (Hstep : forall tally1 : Tally,
                (successCount tally1 + failures tally1
                 = S (successCount tally + failures tally))%nat ->
                requests (notes tally1)
                = requests (notes tally)
                  ++ match host with
                     | [] => []
                     | _ :: _ => [{| host := host; port := devicePortOf port device |}]
                     end ->
                length (notes tally1) = S (length (notes tally)) ->
                exists done,
                  Forall (fun d => is_Some (hostOf d)) done
                  /\ (successCount (tallyOf (sendToTargets sendCommand port (S i) rest tally1))
                      + failures (tallyOf (sendToTargets sendCommand port (S i) rest tally1))
                      = successCount tally + failures tally + length done)%nat
                  /\ requests
                       (notes (tallyOf (sendToTargets sendCommand port (S i) rest tally1)))
                     = requests (notes tally) ++ omap (requestFor port) done
                  /\ length
                       (notes (tallyOf (sendToTargets sendCommand port (S i) rest tally1)))
                     = (length (notes tally) + length done)%nat
                  /\ match sendToTargets sendCommand port (S i) rest tally1 with
                     | Completed _ => done = device :: rest
                     | TypeError _ =>
                       exists bad rest', device :: rest = done ++ bad :: rest'
                                         /\ hostOf bad = None
                     end).
      { intros tally1 Hcount Hreq Hlen.
        destruct (IH (S i) tally1) as (done & Hall & Hsum & Hrequests & Hnotes & Hend).
        exists (device :: done). split; [constructor; [rewrite Hhost; eauto | exact Hall]|].
        split; [simpl; lia|]. split.
        - rewrite Hrequests, Hreq, <- app_assoc. f_equal.
          change (omap (requestFor port) (device :: done))
            with (match requestFor port device with
                  | Some t => t :: omap (requestFor port) done
                  | None => omap (requestFor port) done
                  end).
          assert (Hdue : requestFor port device
                         = match host with
                           | [] => None
                           | _ :: _ =>
                             Some {| host := host; port := devicePortOf port device |}
                           end)
            by (unfold requestFor; rewrite Hhost; reflexivity).
          rewrite Hdue. destruct host; reflexivity.
        - split; [simpl; lia|].
          destruct (sendToTargets sendCommand port (S i) rest tally1).
          + rewrite Hend. reflexivity.
          + destruct Hend as (bad & rest' & -> & Hbad). exists bad, rest'. auto. }
      destruct (bool_decide_reflect (host = [])) as [->|Hne].
      * apply Hstep; simpl; rewrite ?requests_app, ?length_app; simpl;
          rewrite ?app_nil_r; auto; lia.
      * destruct (sendCommand i {| host := host; port := devicePortOf port device |});
          apply Hstep; simpl; rewrite ?requests_app, ?length_app; simpl;
          destruct host; try congruence; auto; lia.
    + exists []. simpl. rewrite app_nil_r.
      repeat split; auto; try lia. exists device, rest. auto.
Qed.

(** X26. The loop over the selected devices asks [sendCommand] once for
    every target that has an address, in the order of the selection, with
    the trimmed address as host and the device's own command port, or the
    form's port when the device has none; every target is counted once, as
    a success or as a failure.  A target whose address is a value other
    than a string stops the loop with a [TypeError]: the targets before it
    have been served, those after it get no request. *)
Theorem sendToTargets_serves_every_target_once (sendCommand : nat -> Target -> bool)
    (port : Z) targets :
  let start := {| successCount := 0; failures := 0; notes := [] |} in
  (Forall (fun d => is_Some (hostOf d)) targets ->
   exists tally,
     sendToTargets sendCommand port 0 targets start = Completed tally
     /\ (successCount tally + failures tally = length targets)%nat
     /\ length (notes tally) = length targets
     /\ requests (notes tally) = omap (requestFor port) targets)
  /\ (forall before bad after,
        targets = before ++ bad :: after ->
        Forall (fun d => is_Some (hostOf d)) before ->
        hostOf bad = None ->
        exists tally,
          sendToTargets sendCommand port 0 targets start = TypeError tally
          /\ (successCount tally + failures tally = length before)%nat
          /\ requests (notes tally) = omap (requestFor port) before).
Proof.
  cbv zeta.
  destruct (sendToTargets_progress sendCommand port targets 0
              {| successCount := 0; failures := 0; notes := [] |})
    as (done & Hall & Hsum & Hrequests & Hnotes & Hend).
  simpl in Hsum, Hrequests, Hnotes.
  assert (Hprefix : forall (l1 l2 : list Device.t) b1 b2 r1 r2,
            l1 ++ b1 :: r1 = l2 ++ b2 :: r2 ->
            Forall (fun d => is_Some (hostOf d)) l1 ->
            Forall (fun d => is_Some (hostOf d)) l2 ->
            hostOf b1 = None -> hostOf b2 = None -> l1 = l2).
  { induction l1 as [|x l1 IHl]; intros [|y l2] b1 b2 r1 r2 Heq H1 H2 Hb1 Hb2;
      simpl in Heq; try reflexivity.
    - injection Heq as -> _. inversion H2 as [|? ? [h Hh] _]; subst. congruence.
    - injection Heq as -> _. inversion H1 as [|? ? [h Hh] _]; subst. congruence.
    - injection Heq as -> Heq. inversion H1; inversion H2; subst.
      f_equal. eapply IHl; eauto. }
  split.
  - intros Hgood.
    destruct (sendToTargets sendCommand port 0 targets _) as [tally|tally]; simpl in *.
    + subst done. exists tally. auto.
    + destruct Hend as (bad & rest & -> & Hbad).
      apply Forall_app in Hgood as [_ Hgood]. inversion Hgood as [|? ? [h Hh] _]; subst.
      congruence.
  - intros before bad after -> Hbefore Hbad.
    destruct (sendToTargets sendCommand port 0 (before ++ bad :: after) _)
      as [tally|tally]; simpl in *.
    + subst done. apply Forall_app in Hall as [_ Hall].
      inversion Hall as [|? ? [h Hh] _]; subst. congruence.
    + destruct Hend as (bad' & rest & Heq & Hbad').
      assert (before = done) as -> by (eapply Hprefix; eauto).
      exists tally. auto.
Qed.

End SendLoop.

Section HostSend.
Import Text Crypto Listener Host.

(** ** Numbers as text *)

Lemma roundDouble_safe (n : Z) : Z.abs n < 2 ^ 53 -> roundDouble n = n.
Proof.
  intros Hn. unfold roundDouble. destruct (Z.ltb_spec n 0).
  - rewrite round53_small by lia. lia.
  - apply round53_small. lia.
Qed.

(** Below 2^53 a number is read back from no decimal but its own. *)
Lemma readBackAt_safe (x e v : Z) :
  0 < x < 2 ^ 53 -> Js.readBackAt x e = Some v -> v = x.
Proof.
  intros Hx. unfold Js.readBackAt. cbv zeta.
  assert (Hunit : 0 <= 10 ^ e) by (apply Z.pow_nonneg; lia).
  set (unit := 10 ^ e) in *.
  assert (Hbelow : 0 <= x / unit * unit).
  { destruct (Z.eq_dec unit 0) as [->|Hne]; [lia|].
    apply Z.mul_nonneg_nonneg; [apply Z.div_pos; lia | lia]. }
  assert (Hread : forall w, 0 <= w -> roundDouble w = x -> w = x).
  { intros w Hw Hround. destruct (Z.lt_ge_cases w (2 ^ 53)) as [Hsmall|Hbig].
    - rewrite roundDouble_safe in Hround by lia. exact Hround.
    - exfalso. rewrite roundDouble_nonneg in Hround by lia.
      pose proof (round53_mono (1 * 2 ^ 53) w ltac:(lia)) as Hmono.
      rewrite (round53_exact 1 53) in Hmono by lia. lia. }
  destruct (Z.eqb_spec (roundDouble (x / unit * unit)) x) as [Hb|Hb];
    destruct (Z.eqb_spec (roundDouble (x / unit * unit + unit)) x) as [Ha|Ha];
    try discriminate.
  - apply Hread in Hb; [|exact Hbelow]. apply Hread in Ha; [|lia].
    intros [= <-]. repeat destruct (_ <? _); try destruct (Z.even _); lia.
  - intros [= <-]. apply Hread; assumption.
  - intros [= <-]. apply Hread; [lia | exact Ha].
Qed.

Lemma shortestReadBack_safe (x : Z) (exponents : list Z) :
  0 < x < 2 ^ 53 -> Js.shortestReadBack x exponents = x.
Proof.
  intros Hx. induction exponents as [|e rest IH]; simpl; [reflexivity|].
  destruct (Js.readBackAt x e) as [v|] eqn:Hread; [|exact IH].
  exact (readBackAt_safe x e v Hx Hread).
Qed.

Lemma Int64_ToString_negative (p : positive) :
  Int64_ToString (Z.neg p) = 45 :: Int64_ToString (Z.pos p).
Proof. reflexivity. Qed.

(** Up to 2^53 JavaScript prints an integer as C# prints a [long]. *)
Lemma Number_toString_safe (n : Z) :
  Z.abs n < 2 ^ 53 -> Js.Number_toString n = Int64_ToString n.
Proof.
  intros Hn. unfold Js.Number_toString. rewrite (roundDouble_safe n Hn). cbv zeta.
  destruct (Z.eqb_spec n 0) as [->|Hne]; [reflexivity|].
  unfold Js.shortestDecimal. rewrite shortestReadBack_safe by lia.
  destruct (Z.ltb_spec (Z.abs n) (10 ^ 21)) as [_|Hbig]; [|lia].
  destruct n as [|p|p]; [contradiction| |].
  - reflexivity.
  - simpl Z.abs. rewrite Int64_ToString_negative. reflexivity.
Qed.

Lemma passedFrom_spec (test : Z -> bool) (count : nat) :
  forall start p,
  passedFrom test start count = true ->
  start <= p < start + Z.of_nat count -> test p = true.
Proof.
  induction count as [|count IH]; intros start p; simpl passedFrom; [lia|].
  intros [Hfirst Hrest]%andb_true_iff Hp.
  destruct (Z.eq_dec p start) as [->|Hne]; [exact Hfirst|].
  apply (IH (start + 1)); [exact Hrest | lia].
Qed.

(** Every port number is read back from its text. *)
Lemma parseInt10_port (port : Z) :
  1 <= port <= 65535 -> parseInt10 (Js.Number_toString port) = Some port.
Proof.
  intros Hport. rewrite Number_toString_safe by lia.
  assert (Hall : passedFrom
                   (fun p => bool_decide (parseInt10 (Int64_ToString p) = Some p))
                   1 (Z.to_nat 65535) = true) by (vm_compute; reflexivity).
  eapply bool_decide_eq_true.
  apply (passedFrom_spec _ _ 1 port Hall). lia.
Qed.

(** X27. The [udp:send] handler refuses a request exactly when its host or
    its action is blank or [Number.parseInt] reads no port number from 1 to
    65535 in the text of its port.  Otherwise the message goes to the
    trimmed host and the port read, carries the trimmed action and the
    timestamp of the request, and every envelope with that action, payload
    and signature whose timestamp prints as the text the message shows is
    accepted by a listener configured with the request's secret, whichever
    command id it has.  A port from 1 to 65535 is read as itself, and a
    timestamp below 2^53 is printed as the listener prints it. *)
Theorem udpSend_signs_what_the_listener_accepts (randomId : list Z) (request : Request) :
  match udpSend randomId request with
  | Error _ =>
    Dashboard.trim (host request) = []
    \/ (forall read, parseInt10 (Js.Number_toString (port request)) = Some read ->
                     read < 1 \/ 65535 < read)
    \/ Dashboard.trim (action request) = []
  | Sent targetHost targetPort message =>
    targetHost = Dashboard.trim (host request)
    /\ targetHost <> []
    /\ parseInt10 (Js.Number_toString (port request)) = Some targetPort
    /\ 1 <= targetPort <= 65535
    /\ m_action message = Dashboard.trim (action request)
    /\ m_action message <> []
    /\ m_timestamp message = timestamp request
    /\ forall (cfg : Settings) (e : UdpCommandMessage),
         Listener.sharedSecret cfg = Some (sharedSecret request) ->
         Listener.action e = Some (m_action message) ->
         coalesce (Listener.payload e) Empty = coalesce (m_payload message) Empty ->
         Int64_ToString (Listener.timestamp e) = timestampText message ->
         signature e = m_signature message ->
         IsAuthorized cfg e = true
  end
  /\ (1 <= port request <= 65535 ->
      parseInt10 (Js.Number_toString (port request)) = Some (port request))
  /\ (Z.abs (timestamp request) < 2 ^ 53 ->
      Js.Number_toString (timestamp request) = Int64_ToString (timestamp request)).
Proof.
  split; [|split; [apply parseInt10_port | apply Number_toString_safe]].
  unfold udpSend.
  destruct (bool_decide_reflect (Dashboard.trim (host request) = [])) as [Hhost|Hhost];
    [auto|].
  destruct (parseInt10 (Js.Number_toString (port request))) as [read|] eqn:Hread;
    [|right; left; intros read' [=]].
  destruct (Z.ltb_spec read 1); simpl;
    [right; left; intros read' [= <-]; auto|].
  destruct (Z.ltb_spec 65535 read); simpl;
    [right; left; intros read' [= <-]; auto|].
  destruct (bool_decide_reflect (Dashboard.trim (action request) = [])) as [Hact|Hact];
    [auto|].
  split; [reflexivity|]. split; [exact Hhost|]. split; [reflexivity|]. split; [lia|].
  split; [reflexivity|]. split; [exact Hact|]. split; [reflexivity|].
  unfold timestampText. simpl.
  intros cfg e Hsecret Haction Hpayload Htime Hsig. unfold IsAuthorized. rewrite Hsecret.
  destruct (bool_decide_reflect (sharedSecret request = [])) as [Hnone|Hsome].
  - rewrite Hnone. reflexivity.
  - destruct (sharedSecret request) as [|c secret] eqn:Hs; [congruence|]. simpl IsNullOrEmpty.
    rewrite Hsig. cbv iota.
    assert (Hcanonical : canonical e
              = Dashboard.trim (action request) ++ lit "|"
                  ++ coalesce (if (0 <? length (payload request))%nat
                                  || forcePayloadField request
                               then Some (payload request) else None) Empty
                  ++ lit "|" ++ Js.Number_toString (timestamp request)).
    { unfold canonical. rewrite Haction, Hpayload, Htime. reflexivity. }
    rewrite Hcanonical. simpl coalesce.
    match goal with
    | |- (if IsNullOrEmpty (Some ?s) then _ else _) = _ =>
      pose proof (ToBase64String_nonempty _
                    (HMACSHA256_nonempty (UTF8_GetBytes (c :: secret))
                       (UTF8_GetBytes
                          (Dashboard.trim (action request) ++ lit "|"
                             ++ coalesce (if (0 <? length (payload request))%nat
                                             || forcePayloadField request
                                          then Some (payload request) else None) Empty
                             ++ lit "|" ++ Js.Number_toString (timestamp request))))) as Hne;
      destruct s as [|x s'] eqn:Hs'; [congruence|]
    end.
    simpl IsNullOrEmpty. cbv iota. rewrite <- Hs'.
    apply CryptographicEquals_spec. eauto.
Qed.

(** The numbers that are not read as they were written: the port 10^21
    prints as [1e+21] and is read as port 1, to which the message goes, and
    the timestamp 2^60 prints with the seventeen digits that tell it from
    its neighbours. *)
Example udpSend_large_numbers :
  Js.Number_toString (10 ^ 21) = lit "1e+21"
  /\ parseInt10 (lit "1e+21") = Some 1
  /\ Js.Number_toString (2 ^ 60) = lit "1152921504606847000"
  /\ exists message,
       udpSend [] MoreSamples.largeRequest = Sent (lit "10.0.0.8") 1 message
       /\ timestampText message = Int64_ToString 1152921504606847000
       /\ IsAuthorized Samples.listenerSettings (asReceived 1152921504606847000 message)
          = true.
Proof.
  split; [vm_compute; reflexivity|]. split; [vm_compute; reflexivity|].
  split; [vm_compute; reflexivity|].
  eexists. split; [vm_compute; reflexivity|].
  split; vm_compute; reflexivity.
Qed.

End HostSend.

Section MoreDashboardWitnesses.
Import Text Crypto Listener Js Renderer Dashboard Samples MoreSamples.

Lemma roster_keys_distinct : NoDup (map fst roster).
Proof. apply (bool_decide_unpack _). vm_compute. exact I. Qed.

Lemma numberedRoster_keys_distinct : NoDup (map fst numberedRoster).
Proof. apply (bool_decide_unpack _). vm_compute. exact I. Qed.

(** The two devices rendered with [abc], [gone] and [xyz] selected; and a
    roster with a number for a name, whose rendering throws. *)
Lemma renderDeviceGrid_keeps_online_selection_witness :
  Spec.lawfulSort sampleEngine
  /\ NoDup (map fst roster)
  /\ (renderDeviceGrid (H := sampleEngine) dashboardNow roster
        [JsString (lit "abc"); JsString (lit "gone"); JsString (lit "xyz")])
     = (Some [{| cardKey := JsString (lit "xyz"); offline := false; selected := true |};
              {| cardKey := JsString (lit "abc"); offline := true; selected := false |}],
        [JsString (lit "xyz")])
  /\ (JsString (lit "xyz")
        ∈ (renderDeviceGrid (H := sampleEngine) dashboardNow roster
             [JsString (lit "abc"); JsString (lit "gone"); JsString (lit "xyz")]).2
      <-> JsString (lit "xyz")
            ∈ [JsString (lit "abc"); JsString (lit "gone"); JsString (lit "xyz")]
          /\ exists d, Map_get roster (JsString (lit "xyz")) = Some d
                       /\ isOffline dashboardNow d = false)
  /\ (NoDup (map fst numberedRoster)
      /\ (2 <= length numberedRoster)%nat
      /\ (exists entry, entry ∈ numberedRoster
                        /\ sortName (H := sampleEngine) entry.2 = None)
      /\ ~ Spec.drawn (H := sampleEngine) numberedRoster
      /\ renderDeviceGrid (H := sampleEngine) dashboardNow numberedRoster
           [JsString (lit "abc"); JsString (lit "gone")]
         = (None, [JsString (lit "abc")])).
Proof.
  assert (Hgrid : renderDeviceGrid (H := sampleEngine) dashboardNow roster
                    [JsString (lit "abc"); JsString (lit "gone"); JsString (lit "xyz")]
                  = (Some [{| cardKey := JsString (lit "xyz"); offline := false;
                              selected := true |};
                           {| cardKey := JsString (lit "abc"); offline := true;
                              selected := false |}],
                     [JsString (lit "xyz")])) by (vm_compute; reflexivity).
  assert (Hlen : (2 <= length numberedRoster)%nat) by (simpl; lia).
  assert (Hodd : exists entry, entry ∈ numberedRoster
                               /\ sortName (H := sampleEngine) entry.2 = None).
  { exists (JsString (lit "n7"), numberedEntry). split; [|reflexivity].
    right. left. }
  split; [exact sampleEngine_lawful|]. split; [exact roster_keys_distinct|].
  split; [exact Hgrid|]. split.
  - pose proof (proj1 (renderDeviceGrid_keeps_online_selection (E := sampleEngine)
                         dashboardNow roster
                         [JsString (lit "abc"); JsString (lit "gone"); JsString (lit "xyz")]
                         sampleEngine_lawful roster_keys_distinct)) as Hdrawn.
    rewrite Hgrid in Hdrawn. cbn [fst snd] in Hdrawn.
    rewrite Hgrid. cbn [snd].
    exact (proj1 (proj2 (proj2 Hdrawn)) (JsString (lit "xyz"))).
  - split; [exact numberedRoster_keys_distinct|]. split; [exact Hlen|].
    split; [exact Hodd|]. split; [|vm_compute; reflexivity].
    exact (proj1 (proj2 (proj2 (renderDeviceGrid_keeps_online_selection
                                  (E := sampleEngine) dashboardNow numberedRoster []
                                  sampleEngine_lawful numberedRoster_keys_distinct)))
             Hlen Hodd).
Defined.

Lemma upsertClient_touches_one_entry_witness :
  NoDup (map fst roster)
  /\ keyOf roster abcPacket abcRecord = JsString (lit "abc")
  /\ NoDup (map fst (upsertClient JsNaN dashboardNow abcPacket abcRecord roster))
  /\ Map_get (upsertClient JsNaN dashboardNow abcPacket abcRecord roster)
             (JsString (lit "xyz")) = Some xyzEntry.
Proof.
  split; [exact roster_keys_distinct|]. split; [vm_compute; reflexivity|].
  destruct (upsertClient_touches_one_entry JsNaN dashboardNow abcPacket abcRecord roster
              roster_keys_distinct) as (Hnd & Hother & _).
  split; [exact Hnd|].
  rewrite Hother; [vm_compute; reflexivity | vm_compute; discriminate].
Defined.

Lemma roster_drawn : Spec.drawn (H := sampleEngine) roster.
Proof. right. vm_compute. eauto. Qed.

Lemma selectAllDevices_selects_the_online_devices_witness :
  Spec.lawfulSort sampleEngine
  /\ NoDup (map fst roster)
  /\ NoDup [JsString (lit "abc")]
  /\ Spec.drawn (H := sampleEngine) roster
  /\ selectAllDevices (H := sampleEngine) dashboardNow dashboardNow roster
       [JsString (lit "abc")]
     = [JsString (lit "xyz")]
  /\ selectAllDisabled
       (updateDeviceStats dashboardNow roster
          (selectAllDevices (H := sampleEngine) dashboardNow dashboardNow roster
             [JsString (lit "abc")]))
     = true.
Proof.
  assert (Hsel : NoDup [JsString (lit "abc")]) by apply NoDup_singleton.
  split; [exact sampleEngine_lawful|].
  split; [exact roster_keys_distinct|]. split; [exact Hsel|].
  split; [exact roster_drawn|].
  split; [vm_compute; reflexivity|].
  exact (proj2 (proj1 (selectAllDevices_selects_the_online_devices (E := sampleEngine)
                         dashboardNow dashboardNow dashboardNow roster
                         [JsString (lit "abc")] sampleEngine_lawful
                         roster_keys_distinct Hsel (Z.le_refl _) (Z.le_refl _))
                  roster_drawn)).
Defined.

Lemma toggleDeviceSelection_toggles_one_device_witness :
  Spec.lawfulSort sampleEngine
  /\ NoDup (map fst roster)
  /\ Map_get roster (JsString (lit "abc")) = Some abcEntry
  /\ isOffline dashboardNow abcEntry = true
  /\ toggleDeviceSelection (H := sampleEngine) dashboardNow dashboardNow
       (JsString (lit "abc")) roster []
     = []
  /\ toggleDeviceSelection (H := sampleEngine) dashboardNow dashboardNow
       (JsString (lit "xyz")) roster []
     = [JsString (lit "xyz")].
Proof.
  assert (Hget : Map_get roster (JsString (lit "abc")) = Some abcEntry)
    by (vm_compute; reflexivity).
  assert (Hoff : isOffline dashboardNow abcEntry = true) by (vm_compute; reflexivity).
  split; [exact sampleEngine_lawful|].
  split; [exact roster_keys_distinct|]. split; [exact Hget|]. split; [exact Hoff|].
  split; [|vm_compute; reflexivity].
  exact (proj1 (toggleDeviceSelection_toggles_one_device (E := sampleEngine)
                  dashboardNow dashboardNow (JsString (lit "abc")) roster [] abcEntry
                  sampleEngine_lawful roster_keys_distinct Hget)
           Hoff).
Defined.

Lemma formatRelativeTime_rounds_down_once_witness :
  dashboardNow <= 1700000009999
  /\ formatRelativeTime dashboardNow (JsNumber 1700000009999) = ago 0 "s"
  /\ formatRelativeTime dashboardNow (JsNumber 1699999990000) = ago 15 "s"
  /\ formatRelativeTime dashboardNow (JsNumber 1699990000000) = ago 2 "h".
Proof.
  assert (Hfuture : dashboardNow <= 1700000009999) by (unfold dashboardNow; lia).
  split; [exact Hfuture|].
  split; [|split; vm_compute; reflexivity].
  exact (proj2 (formatRelativeTime_rounds_down_once dashboardNow (JsNumber 1700000009999))
           Hfuture).
Defined.

Lemma sendToTargets_serves_every_target_once_witness :
  Forall (fun d => is_Some (hostOf d)) [abcEntry; xyzEntry]
  /\ hostOf oddEntry = None
  /\ (exists tally,
        sendToTargets (fun _ _ => true) 3939 0 [abcEntry; xyzEntry]
          {| successCount := 0; failures := 0; notes := [] |} = Completed tally
        /\ requests (notes tally)
           = [{| host := lit "10.0.0.7"; port := 3939 |};
              {| host := lit "10.0.0.8"; port := 4000 |}])
  /\ exists tally,
       sendToTargets (fun _ _ => true) 3939 0 [abcEntry; oddEntry; xyzEntry]
         {| successCount := 0; failures := 0; notes := [] |} = TypeError tally
       /\ requests (notes tally) = [{| host := lit "10.0.0.7"; port := 3939 |}].
Proof.
  assert (Hgood : Forall (fun d => is_Some (hostOf d)) [abcEntry; xyzEntry])
    by (repeat constructor; vm_compute; eauto).
  assert (Hone : Forall (fun d => is_Some (hostOf d)) [abcEntry])
    by (repeat constructor; vm_compute; eauto).
  assert (Hbad : hostOf oddEntry = None) by reflexivity.
  split; [exact Hgood|]. split; [exact Hbad|]. split.
  - destruct (proj1 (sendToTargets_serves_every_target_once (fun _ _ => true) 3939
                       [abcEntry; xyzEntry]) Hgood) as (tally & Hrun & _ & _ & Hreq).
    exists tally. split; [exact Hrun|]. rewrite Hreq. vm_compute. reflexivity.
  - destruct (proj2 (sendToTargets_serves_every_target_once (fun _ _ => true) 3939
                       [abcEntry; oddEntry; xyzEntry])
                    [abcEntry] oddEntry [xyzEntry] eq_refl Hone Hbad)
      as (tally & Hrun & _ & Hreq).
    exists tally. split; [exact Hrun|]. rewrite Hreq. vm_compute. reflexivity.
Defined.

Lemma udpSend_signs_what_the_listener_accepts_witness :
  (exists message,
     Host.udpSend (lit "8f8d2d86") beepRequest = Host.Sent (lit "10.0.0.8") 3939 message
     /\ Host.m_action message = lit "Beep"
     /\ Host.m_cmdId message = Some (lit "8f8d2d86")
     /\ sharedSecret listenerSettings = Some (Host.sharedSecret beepRequest)
     /\ Int64_ToString 1700000000000 = Host.timestampText message
     /\ IsAuthorized listenerSettings (Host.asReceived 1700000000000 message) = true)
  /\ (1 <= Host.port beepRequest <= 65535
      /\ Host.parseInt10 (Js.Number_toString (Host.port beepRequest))
         = Some (Host.port beepRequest))
  /\ (Z.abs (Host.timestamp beepRequest) < 2 ^ 53
      /\ Js.Number_toString (Host.timestamp beepRequest)
         = Int64_ToString (Host.timestamp beepRequest)).
Proof.
  assert (Hrange : 1 <= Host.port beepRequest <= 65535) by (vm_compute; split; discriminate).
  assert (Hsafe : Z.abs (Host.timestamp beepRequest) < 2 ^ 53) by reflexivity.
  assert (Hrun : exists message,
            Host.udpSend (lit "8f8d2d86") beepRequest
            = Host.Sent (lit "10.0.0.8") 3939 message
            /\ Host.m_action message = lit "Beep"
            /\ Host.m_cmdId message = Some (lit "8f8d2d86")
            /\ Int64_ToString 1700000000000 = Host.timestampText message).
  { eexists. split; [vm_compute; reflexivity|]. repeat split; vm_compute; reflexivity. }
  destruct Hrun as (message & Hrun & Haction & Hid & Htext).
  pose proof (udpSend_signs_what_the_listener_accepts (lit "8f8d2d86") beepRequest)
    as (Hsend & Hport & Htime).
  rewrite Hrun in Hsend.
  destruct Hsend as (_ & _ & _ & _ & _ & _ & _ & Haccept).
  split; [|split; [split; [exact Hrange | exact (Hport Hrange)]
                  | split; [exact Hsafe | exact (Htime Hsafe)]]].
  exists message. split; [exact Hrun|]. split; [exact Haction|]. split; [exact Hid|].
  split; [reflexivity|]. split; [exact Htext|].
  apply Haccept; try reflexivity. exact Htext.
Defined.

End MoreDashboardWitnesses.

(* ===================================================================== *)
(** * Bindings and runtime handlers *)
(* ===================================================================== *)

Section Bindings.
Import Text Listener Handlers.
Context `{cm : CaseMap}.

Implicit Types (lookup : BindingLookup) (name key : list Z) (h : Callback).

Lemma OrdinalIgnoreCase_eqb_sym name key :
  OrdinalIgnoreCase_eqb name key = OrdinalIgnoreCase_eqb key name.
Proof.
  unfold OrdinalIgnoreCase_eqb, str_eqb.
  apply bool_decide_ext. split; intros ->; reflexivity.
Qed.

Lemma OrdinalIgnoreCase_eqb_nonempty name key :
  OrdinalIgnoreCase_eqb name key = true -> name <> [] -> key <> [].
Proof.
  unfold OrdinalIgnoreCase_eqb, str_eqb. intros Heq Hne ->.
  apply bool_decide_eq_true in Heq. destruct name; [congruence | discriminate].
Qed.

Lemma TryGetValue_update_any lookup name key (f : UdpCommandBinding -> UdpCommandBinding) :
  TryGetValue (update lookup name f) key
  = if OrdinalIgnoreCase_eqb name key then f <$> TryGetValue lookup key
    else TryGetValue lookup key.
Proof.
  destruct (OrdinalIgnoreCase_eqb name key) eqn:Hnk.
  - rewrite (TryGetValue_ignores_case _ name key Hnk).
    rewrite (TryGetValue_ignores_case lookup name key Hnk).
    apply TryGetValue_update.
  - induction lookup as [|[k b] rest IH]; [reflexivity|]. simpl.
    destruct (OrdinalIgnoreCase_eqb k name) eqn:Hk; simpl.
    + rewrite (OrdinalIgnoreCase_eqb_sym k name) in Hk.
      rewrite (OrdinalIgnoreCase_eqb_sym k key), (OrdinalIgnoreCase_eqb_trans key name k Hk),
              (OrdinalIgnoreCase_eqb_sym key name), Hnk. reflexivity.
    + rewrite IH. reflexivity.
Qed.

Lemma TryGetValue_snoc lookup name key (b : UdpCommandBinding) :
  TryGetValue (lookup ++ [(name, b)]) key
  = match TryGetValue lookup key with
    | Some found => Some found
    | None => if OrdinalIgnoreCase_eqb name key then Some b else None
    end.
Proof.
  induction lookup as [|[k b0] rest IH]; simpl; [reflexivity|].
  destruct (OrdinalIgnoreCase_eqb k key); auto.
Qed.

Lemma addBindings_lookup (bindings : list (option UdpCommandBinding)) :
  forall lookup key,
  TryGetValue (addBindings bindings lookup) key
  = match TryGetValue lookup key with
    | Some found => Some found
    | None => firstUsable key bindings
    end.
Proof.
  induction bindings as [|[binding|] rest IH]; intros lookup key;
    cbn [addBindings firstUsable].
  - destruct (TryGetValue lookup key); reflexivity.
  - destruct (Action binding) as [name|] eqn:Hname; [|apply IH].
    destruct (IsNullOrWhiteSpace (Some name)) eqn:Hblank; cbn [negb andb]; [apply IH|].
    unfold ContainsKey.
    destruct (TryGetValue lookup name) as [known|] eqn:Hknown.
    + rewrite IH. destruct (TryGetValue lookup key) eqn:Hkey; [reflexivity|].
      destruct (OrdinalIgnoreCase_eqb name key) eqn:Hnk; [|reflexivity].
      rewrite (TryGetValue_ignores_case lookup name key Hnk) in Hkey. congruence.
    + rewrite IH, TryGetValue_snoc.
      destruct (TryGetValue lookup key); [reflexivity|].
      destruct (OrdinalIgnoreCase_eqb name key); reflexivity.
  - apply IH.
Qed.

(** X9. [BuildBindingLookup] gives every action the first serialized binding
    that is not null, whose action is not blank, and whose action equals it
    up to letter case; bindings listed later for the same action, in any
    letter case, are never used. *)
Theorem BuildBindingLookup_first_binding_wins
    (bindings : list (option UdpCommandBinding)) key :
  TryGetValue (BuildBindingLookup bindings) key = firstUsable key bindings.
Proof. unfold BuildBindingLookup. rewrite addBindings_lookup. reflexivity. Qed.

Lemma RegisterHandler_lookup lookup lookup1 name h key :
  RegisterHandler (Some name) (Some h) lookup = Registered lookup1 ->
  Spec.subscribersOf (TryGetValue lookup1 key)
  = Spec.subscribersOf (TryGetValue lookup key)
    ++ (if OrdinalIgnoreCase_eqb name key then [h] else []).
Proof.
  unfold RegisterHandler. destruct name as [|c name]; [discriminate|].
  destruct (TryGetValue lookup (c :: name)) as [b0|] eqn:Hfind; intros [= <-].
  - rewrite TryGetValue_update_any.
    destruct (OrdinalIgnoreCase_eqb (c :: name) key) eqn:Hnk; [|rewrite app_nil_r; reflexivity].
    rewrite (TryGetValue_ignores_case lookup (c :: name) key Hnk), Hfind. simpl.
    rewrite app_assoc. reflexivity.
  - rewrite TryGetValue_snoc.
    destruct (OrdinalIgnoreCase_eqb (c :: name) key) eqn:Hnk.
    + rewrite (TryGetValue_ignores_case lookup (c :: name) key Hnk), Hfind. reflexivity.
    + destruct (TryGetValue lookup key); simpl; rewrite ?app_nil_r; reflexivity.
Qed.

(** X10. [RegisterHandler] throws in two cases and no other: an
    [ArgumentException] exactly when the action is null or empty, whatever
    the handler, and an [ArgumentNullException] exactly when the action is
    neither and the handler is null.  Otherwise it appends the handler,
    once, after the subscribers of every action equal to the given one up to
    letter case, and leaves the subscribers of all other actions as they
    are. *)
Theorem RegisterHandler_appends_handler
    lookup (action : option (list Z)) (handler : option Callback) :
  match RegisterHandler action handler lookup with
  | ActionArgumentException => IsNullOrEmpty action = true
  | HandlerArgumentNullException => IsNullOrEmpty action = false /\ handler = None
  | Registered lookup1 =>
    exists name h, action = Some name /\ name <> [] /\ handler = Some h
      /\ forall key,
           Spec.subscribersOf (TryGetValue lookup1 key)
           = Spec.subscribersOf (TryGetValue lookup key)
             ++ (if OrdinalIgnoreCase_eqb name key then [h] else [])
  end.
Proof.
  destruct action as [[|c name]|]; try reflexivity.
  destruct handler as [h|]; [|split; reflexivity].
  destruct (RegisterHandler (Some (c :: name)) (Some h) lookup) as [lookup1| |] eqn:Hreg.
  - exists (c :: name), h. repeat split; [discriminate|].
    intros key. apply RegisterHandler_lookup with (lookup1 := lookup1). exact Hreg.
  - simpl in Hreg. destruct (TryGetValue lookup (c :: name)); discriminate.
  - simpl in Hreg. destruct (TryGetValue lookup (c :: name)); discriminate.
Qed.

(** The two refusals at work: an empty action is refused before the handler
    is looked at. *)
Example RegisterHandler_refusals :
  RegisterHandler (H := AsciiCaseMap) (Some []) None [] = ActionArgumentException
  /\ RegisterHandler (H := AsciiCaseMap) None (Some 1%nat) [] = ActionArgumentException
  /\ RegisterHandler (H := AsciiCaseMap) (Some (lit "Beep")) None []
     = HandlerArgumentNullException.
Proof. repeat split. Qed.

Lemma removeLast_snoc h (l : list Callback) : removeLast h (l ++ [h]) = l.
Proof.
  unfold removeLast. rewrite rev_app_distr. simpl. rewrite Nat.eqb_refl.
  apply rev_involutive.
Qed.

Lemma UnregisterHandler_lookup lookup name h key :
  name <> [] ->
  TryGetValue (UnregisterHandler (Some name) h lookup) key
  = if OrdinalIgnoreCase_eqb name key
    then dropRuntimeHandler h <$> TryGetValue lookup key
    else TryGetValue lookup key.
Proof.
  intros Hne. unfold UnregisterHandler. destruct name as [|c name]; [congruence|].
  destruct (TryGetValue lookup (c :: name)) as [b|] eqn:Hfind.
  - apply TryGetValue_update_any.
  - destruct (OrdinalIgnoreCase_eqb (c :: name) key) eqn:Hnk; [|reflexivity].
    rewrite (TryGetValue_ignores_case lookup (c :: name) key Hnk), Hfind. reflexivity.
Qed.

(** X11. Unregistering what was just registered, under the action in any
    letter case, gives every action the subscribers it had before the
    registration. *)
Theorem UnregisterHandler_undoes_RegisterHandler lookup lookup1 name name' h key :
  RegisterHandler (Some name) (Some h) lookup = Registered lookup1 ->
  OrdinalIgnoreCase_eqb name name' = true ->
  Spec.subscribersOf (TryGetValue (UnregisterHandler (Some name') h lookup1) key)
  = Spec.subscribersOf (TryGetValue lookup key).
Proof.
  intros Hreg Hcase.
  assert (Hne : name <> []) by (intros ->; discriminate).
  pose proof (OrdinalIgnoreCase_eqb_nonempty name name' Hcase Hne) as Hne'.
  rewrite (UnregisterHandler_lookup lookup1 name' h key Hne').
  rewrite (OrdinalIgnoreCase_eqb_sym name' key),
          (OrdinalIgnoreCase_eqb_trans key name name' Hcase),
          (OrdinalIgnoreCase_eqb_sym key name).
  pose proof (RegisterHandler_lookup lookup lookup1 name h key Hreg) as Hsubs.
  destruct (OrdinalIgnoreCase_eqb name key) eqn:Hnk;
    [|rewrite Hsubs, app_nil_r; reflexivity].
  revert Hreg Hsubs. unfold RegisterHandler. destruct name as [|c name]; [congruence|].
  rewrite <- (TryGetValue_ignores_case lookup (c :: name) key Hnk).
  destruct (TryGetValue lookup key) as [b0|] eqn:Hfind; intros [= <-] _.
  - rewrite TryGetValue_update_any, Hnk, Hfind. simpl. rewrite removeLast_snoc. reflexivity.
  - rewrite TryGetValue_snoc, Hfind, Hnk.
    exact (removeLast_snoc h []).
Qed.

Lemma registrations_app h (l1 l2 : list Callback) :
  Spec.registrations h (l1 ++ l2) = (Spec.registrations h l1 + Spec.registrations h l2)%nat.
Proof. induction l1 as [|x l1 IH]; simpl; [reflexivity|]. rewrite IH. lia. Qed.

Lemma registrations_removeFirst h h' (l : list Callback) :
  Spec.registrations h' (removeFirst h l)
  = (Spec.registrations h' l - (if Nat.eqb h' h then 1 else 0))%nat.
Proof.
  induction l as [|x l IH]; simpl; [reflexivity|].
  destruct (Nat.eqb_spec x h) as [->|Hx]; simpl.
  - destruct (Nat.eqb h' h); lia.
  - rewrite IH. destruct (Nat.eqb_spec h' h) as [->|Hh]; [|lia].
    destruct (Nat.eqb_spec h x) as [->|_]; [congruence|]. lia.
Qed.

Lemma registrations_rev h (l : list Callback) :
  Spec.registrations h (rev l) = Spec.registrations h l.
Proof.
  induction l as [|x l IH]; simpl; [reflexivity|].
  rewrite registrations_app, IH. simpl. lia.
Qed.

(** X12. [UnregisterHandler] takes away one registration of the handler, and
    only from the runtime handlers of the actions equal to the given one up
    to letter case: a handler registered twice still runs once, listeners
    set on the binding's [onCommand] stay, and the binding stays in the
    dictionary. *)
Theorem UnregisterHandler_removes_one_registration lookup name h key
    (b : UdpCommandBinding) :
  name <> [] ->
  TryGetValue lookup key = Some b ->
  exists b',
    TryGetValue (UnregisterHandler (Some name) h lookup) key = Some b'
    /\ Action b' = Action b
    /\ onCommand b' = onCommand b
    /\ forall h',
         Spec.registrations h' (RuntimeHandlers b')
         = (Spec.registrations h' (RuntimeHandlers b)
            - (if OrdinalIgnoreCase_eqb name key && Nat.eqb h' h then 1 else 0))%nat.
Proof.
  intros Hne Hfind. rewrite (UnregisterHandler_lookup lookup name h key Hne), Hfind.
  destruct (OrdinalIgnoreCase_eqb name key); simpl.
  - eexists. split; [reflexivity|]. repeat split. intros h'. simpl.
    unfold removeLast. rewrite registrations_rev, registrations_removeFirst, registrations_rev.
    reflexivity.
  - exists b. repeat split. intros h'. lia.
Qed.

Lemma distinctKeys_snoc lookup name (b : UdpCommandBinding) :
  distinctKeys lookup -> TryGetValue lookup name = None ->
  distinctKeys (lookup ++ [(name, b)]).
Proof.
  induction lookup as [|[k b0] rest IH]; simpl; [auto|].
  intros [Hhead Hrest]. destruct (OrdinalIgnoreCase_eqb k name) eqn:Hk; [discriminate|].
  intros Hnone. split; [|auto].
  apply Forall_app. split; [exact Hhead|]. repeat constructor. exact Hk.
Qed.

Lemma update_keys lookup name (f : UdpCommandBinding -> UdpCommandBinding) :
  map fst (update lookup name f) = map fst lookup.
Proof.
  induction lookup as [|[k b] rest IH]; [reflexivity|]. simpl.
  destruct (OrdinalIgnoreCase_eqb k name); simpl; congruence.
Qed.

Lemma distinctKeys_keys lookup lookup' :
  map fst lookup' = map fst lookup -> distinctKeys lookup -> distinctKeys lookup'.
Proof.
  revert lookup'. induction lookup as [|[k b] rest IH]; intros [|[k' b'] rest']; simpl;
    try discriminate; auto.
  intros [= -> Hkeys] [Hhead Hrest]. split; [|auto].
  clear -Hkeys Hhead. revert rest' Hkeys.
  induction Hhead as [|[k0 b0] rest Hk0 _ IH]; intros [|[k1 b1] rest']; simpl;
    try discriminate; [constructor|].
  intros [= -> Hkeys]. constructor; auto.
Qed.

Lemma addBindings_distinctKeys (bindings : list (option UdpCommandBinding)) :
  forall lookup, distinctKeys lookup -> distinctKeys (addBindings bindings lookup).
Proof.
  induction bindings as [|[binding|] rest IH]; intros lookup Hd; cbn [addBindings]; auto.
  destruct (Action binding) as [name|]; auto.
  destruct (IsNullOrWhiteSpace (Some name)); auto.
  unfold ContainsKey. destruct (TryGetValue lookup name) eqn:Hfind; auto.
  apply IH, distinctKeys_snoc; assumption.
Qed.

(** X13. The dictionary never holds two keys that are equal up to letter
    case: [BuildBindingLookup] builds it so, and [RegisterHandler] and
    [UnregisterHandler] keep it so.  Hence [Dictionary.Add] is never called
    with a key that is there, and every binding stored can be found. *)
Theorem bindingLookup_keys_stay_distinct
    (bindings : list (option UdpCommandBinding)) lookup (action : option (list Z)) h :
  distinctKeys (BuildBindingLookup bindings)
  /\ (distinctKeys lookup ->
      distinctKeys (UnregisterHandler action h lookup)
      /\ forall lookup1, RegisterHandler action (Some h) lookup = Registered lookup1 ->
                         distinctKeys lookup1).
Proof.
  split; [apply addBindings_distinctKeys; exact I|].
  intros Hd. split.
  - unfold UnregisterHandler. destruct action as [[|c name]|]; auto.
    destruct (TryGetValue lookup (c :: name)); auto.
    eapply distinctKeys_keys; [apply update_keys | exact Hd].
  - intros lookup1. unfold RegisterHandler. destruct action as [[|c name]|]; try discriminate.
    destruct (TryGetValue lookup (c :: name)) eqn:Hfind; intros [= <-].
    + eapply distinctKeys_keys; [apply update_keys | exact Hd].
    + apply distinctKeys_snoc; assumption.
Qed.

End Bindings.

Section SingletonInstance.
Import Singleton.

Lemma run_app (events events' : list Event) (w : World) :
  run (events ++ events') w = run events' (run events w).
Proof. apply fold_left_app. Qed.

Lemma step_keeps_primary (p : nat) (e : Event) (w : World) :
  Instance w = Some p -> e <> Destroyed p ->
  Instance (step w e) = Some p
  /\ forall o, In o (destroyed (step w e))
               <-> In o (destroyed w) \/ (e = Awakes o /\ o <> p).
Proof.
  intros Hp He. destruct e as [this|this]; simpl.
  - unfold Awake. rewrite Hp. destruct (Nat.eqb_spec p this) as [->|Hother]; simpl.
    + split; [reflexivity|]. intros o. split; [auto|].
      intros [Hin|[[= ->] Hne]]; [exact Hin | congruence].
    + split; [reflexivity|]. intros o. split.
      * intros [<-|Hin]; [right; split; [reflexivity | congruence] | left; exact Hin].
      * intros [Hin|[[= ->] _]]; [right; exact Hin | left; reflexivity].
  - unfold OnDestroy. rewrite Hp. destruct (Nat.eqb_spec p this) as [->|Hother]; [congruence|].
    split; [exact Hp|]. intros o. split; [auto|].
    intros [Hin|[Heq _]]; [exact Hin | discriminate].
Qed.

(** X14. While the primary instance is not destroyed it stays [Instance],
    whatever other objects awake or are destroyed: every other object that
    awakes is destroyed as a duplicate and never becomes primary, and no
    object is destroyed by [Awake] for another reason. *)
Theorem primary_instance_survives_duplicates (p : nat) (events : list Event) (w : World) :
  Instance w = Some p ->
  ~ In (Destroyed p) events ->
  Instance (run events w) = Some p
  /\ (forall o, IsPrimaryInstance o (run events w) = Nat.eqb p o)
  /\ forall o, In o (destroyed (run events w))
               <-> In o (destroyed w) \/ (In (Awakes o) events /\ o <> p).
Proof.
  revert w. induction events as [|e events IH]; intros w Hp Hnot.
  - simpl. split; [exact Hp|]. split; [intros o; unfold IsPrimaryInstance; rewrite Hp; auto|].
    intros o. split; [auto|]. intros [Hin|[[] _]]; exact Hin.
  - assert (He : e <> Destroyed p) by (intros ->; apply Hnot; left; reflexivity).
    destruct (step_keeps_primary p e w Hp He) as [Hp1 Hd1].
    assert (Hnot' : ~ In (Destroyed p) events) by (intros Hin; apply Hnot; right; exact Hin).
    destruct (IH (step w e) Hp1 Hnot') as (Hp2 & Hprim & Hd2).
    change (run (e :: events) w) with (run events (step w e)).
    split; [exact Hp2|]. split; [exact Hprim|].
    intros o. rewrite Hd2, Hd1. simpl. split.
    + intros [[Hin|[-> Hne]]|[Hin Hne]]; auto.
    + intros [Hin|[[->|Hin] Hne]]; auto.
Qed.

End SingletonInstance.

Section MoreHandlerWitnesses.
Import Text Listener Handlers Singleton Samples MoreSamples.

Lemma UnregisterHandler_undoes_RegisterHandler_witness :
  RegisterHandler (H := AsciiCaseMap) (Some (lit "Beep")) (Some 1%nat) []
  = Registered oneBinding
  /\ OrdinalIgnoreCase_eqb (H := AsciiCaseMap) (lit "Beep") (lit "BEEP") = true
  /\ Spec.subscribersOf (TryGetValue (H := AsciiCaseMap) oneBinding (lit "beep")) = [1%nat]
  /\ Spec.subscribersOf
       (TryGetValue (H := AsciiCaseMap)
          (UnregisterHandler (H := AsciiCaseMap) (Some (lit "BEEP")) 1%nat oneBinding)
          (lit "beep"))
     = [].
Proof.
  assert (Hreg : RegisterHandler (H := AsciiCaseMap) (Some (lit "Beep")) (Some 1%nat) []
                 = Registered oneBinding) by reflexivity.
  assert (Hcase : OrdinalIgnoreCase_eqb (H := AsciiCaseMap) (lit "Beep") (lit "BEEP") = true)
    by (vm_compute; reflexivity).
  split; [exact Hreg | split; [exact Hcase | split; [vm_compute; reflexivity |]]].
  exact (UnregisterHandler_undoes_RegisterHandler (cm := AsciiCaseMap) [] oneBinding
           (lit "Beep") (lit "BEEP") 1%nat (lit "beep") Hreg Hcase).
Defined.

Lemma UnregisterHandler_removes_one_registration_witness :
  lit "BEEP" <> []
  /\ TryGetValue (H := AsciiCaseMap) [(lit "Beep", inspectorBinding)] (lit "beep")
     = Some inspectorBinding
  /\ exists b',
       TryGetValue (H := AsciiCaseMap)
         (UnregisterHandler (H := AsciiCaseMap) (Some (lit "BEEP")) 1%nat
            [(lit "Beep", inspectorBinding)]) (lit "beep") = Some b'
       /\ onCommand b' = [7%nat]
       /\ Spec.registrations 1%nat (RuntimeHandlers b') = 1%nat
       /\ Spec.registrations 2%nat (RuntimeHandlers b') = 1%nat.
Proof.
  assert (Hne : lit "BEEP" <> []) by discriminate.
  assert (Hfind : TryGetValue (H := AsciiCaseMap) [(lit "Beep", inspectorBinding)]
                    (lit "beep") = Some inspectorBinding) by (vm_compute; reflexivity).
  split; [exact Hne | split; [exact Hfind |]].
  destruct (UnregisterHandler_removes_one_registration (cm := AsciiCaseMap)
              [(lit "Beep", inspectorBinding)] (lit "BEEP") 1%nat (lit "beep")
              inspectorBinding Hne Hfind) as (b' & Hfind' & _ & Hon & Hcount).
  exists b'. split; [exact Hfind'|]. split; [exact Hon|].
  split; rewrite Hcount; vm_compute; reflexivity.
Defined.

Lemma bindingLookup_keys_stay_distinct_witness :
  distinctKeys (H := AsciiCaseMap) oneBinding
  /\ RegisterHandler (H := AsciiCaseMap) (Some (lit "beep")) (Some 2%nat) oneBinding
     = Registered [(lit "Beep",
              {| Action := Some (lit "Beep"); onCommand := [];
                 RuntimeHandlers := [1%nat; 2%nat] |})]
  /\ distinctKeys (H := AsciiCaseMap)
       [(lit "Beep",
         {| Action := Some (lit "Beep"); onCommand := [];
            RuntimeHandlers := [1%nat; 2%nat] |})].
Proof.
  assert (Hd : distinctKeys (H := AsciiCaseMap) oneBinding) by (simpl; auto).
  assert (Hreg : RegisterHandler (H := AsciiCaseMap) (Some (lit "beep")) (Some 2%nat) oneBinding
                 = Registered [(lit "Beep",
                          {| Action := Some (lit "Beep"); onCommand := [];
                             RuntimeHandlers := [1%nat; 2%nat] |})])
    by (vm_compute; reflexivity).
  split; [exact Hd | split; [exact Hreg |]].
  exact (proj2 (proj2 (bindingLookup_keys_stay_distinct (cm := AsciiCaseMap) [] oneBinding
                         (Some (lit "beep")) 2%nat) Hd) _ Hreg).
Defined.

Lemma primary_instance_survives_duplicates_witness :
  Instance (Awake 1 {| Instance := None; destroyed := [] |}) = Some 1%nat
  /\ ~ In (Destroyed 1) [Awakes 2; Awakes 1; Destroyed 2; Awakes 3]
  /\ Instance (run [Awakes 2; Awakes 1; Destroyed 2; Awakes 3]
                 (Awake 1 {| Instance := None; destroyed := [] |})) = Some 1%nat
  /\ (In 3%nat (destroyed (run [Awakes 2; Awakes 1; Destroyed 2; Awakes 3]
                             (Awake 1 {| Instance := None; destroyed := [] |})))
      <-> In 3%nat (destroyed (Awake 1 {| Instance := None; destroyed := [] |}))
          \/ (In (Awakes 3) [Awakes 2; Awakes 1; Destroyed 2; Awakes 3] /\ 3%nat <> 1%nat)).
Proof.
  assert (Hp : Instance (Awake 1 {| Instance := None; destroyed := [] |}) = Some 1%nat)
    by reflexivity.
  assert (Hnot : ~ In (Destroyed 1) [Awakes 2; Awakes 1; Destroyed 2; Awakes 3]).
  { simpl. intros [H|[H|[H|[H|[]]]]]; discriminate. }
  destruct (primary_instance_survives_duplicates 1
              [Awakes 2; Awakes 1; Destroyed 2; Awakes 3]
              (Awake 1 {| Instance := None; destroyed := [] |}) Hp Hnot)
    as (Hinst & _ & Hdestroyed).
  split; [exact Hp | split; [exact Hnot | split; [exact Hinst | exact (Hdestroyed 3%nat)]]].
Defined.

End MoreHandlerWitnesses.

(* ===================================================================== *)
(** * More of the listener: what the signature covers, replays, the queue *)
(* ===================================================================== *)

Section SignatureCoverage.
Import Text Crypto Listener Lifecycle.

(** X1. [CryptographicEquals] answers true exactly for two non-null strings
    with the same code units; a null on either side, two nulls included,
    gives false, and the order of the arguments does not matter. *)
Theorem CryptographicEquals_only_equal_strings (a b : option (list Z)) :
  (CryptographicEquals a b = true <-> exists s, a = Some s /\ b = Some s)
  /\ CryptographicEquals None None = false
  /\ CryptographicEquals a b = CryptographicEquals b a.
Proof.
  split; [apply CryptographicEquals_spec|]. split; [reflexivity|].
  destruct (CryptographicEquals a b) eqn:Hab; symmetry.
  - apply CryptographicEquals_spec in Hab as (s & -> & ->).
    apply CryptographicEquals_spec. eauto.
  - apply Bool.not_true_is_false. intros Hba.
    apply CryptographicEquals_spec in Hba as (s & -> & ->).
    assert (Htrue : CryptographicEquals (Some s) (Some s) = true)
      by (apply CryptographicEquals_spec; eauto).
    congruence.
Qed.

(** X2. The canonical string does not mark where the action ends: moving a
    piece of the action across the first bar into the payload gives the
    same canonical string, so the same signature is accepted or rejected
    for both envelopes. *)
Theorem canonical_string_is_ambiguous (cfg : Settings) (x y z : list Z)
    (id sig : option (list Z)) (t : Z) :
  let whole := {| cmdId := id; action := Some (x ++ lit "|" ++ y); payload := Some z;
                  timestamp := t; signature := sig |} in
  let split := {| cmdId := id; action := Some x; payload := Some (y ++ lit "|" ++ z);
                  timestamp := t; signature := sig |} in
  canonical whole = canonical split
  /\ IsAuthorized cfg whole = IsAuthorized cfg split.
Proof.
  cbv zeta.
  assert (Hsame : canonical {| cmdId := id; action := Some (x ++ lit "|" ++ y);
                               payload := Some z; timestamp := t; signature := sig |}
                  = canonical {| cmdId := id; action := Some x;
                                 payload := Some (y ++ lit "|" ++ z);
                                 timestamp := t; signature := sig |}).
  { unfold canonical, interpolated, coalesce. cbn [action payload timestamp].
    rewrite <- !app_assoc. reflexivity. }
  split; [exact Hsame|].
  unfold IsAuthorized. cbn [signature]. rewrite Hsame. reflexivity.
Qed.

Context `{rt : Runtime}.

Implicit Types (cfg : Settings) (st : ListenerState) (clk : Clock).



(** ** The queue *)

Lemma ListenIteration_queue cfg clk buffer ep st :
  _pendingCommands (ListenIteration cfg clk buffer ep st).2 = _pendingCommands st
  \/ exists command,
       Spec.passedChecks cfg clk buffer command
       /\ (ListenIteration cfg clk buffer ep st).1 = Enqueued
       /\ _pendingCommands (ListenIteration cfg clk buffer ep st).2
          = _pendingCommands st ++ [{| Message := command; RemoteEndPoint := Some ep |}].
Proof.
  destruct (passedChecks_decided cfg clk buffer) as [(command & Hpass) | Hnone].
  - rewrite (ListenIteration_passed _ _ _ _ _ _ Hpass). cbv zeta.
    destruct (negb _) eqn:Hdup; simpl; [left; reflexivity|].
    right. exists command. repeat split. exact Hpass.
  - left. rewrite (ListenIteration_not_passed _ _ _ _ _ Hnone). reflexivity.
Qed.

Lemma ListenIteration_enqueued cfg clk buffer ep st :
  (ListenIteration cfg clk buffer ep st).1 = Enqueued ->
  exists command,
    Spec.passedChecks cfg clk buffer command
    /\ (RegisterCommandId cfg (atInsert clk) (atPrune clk) command
          (_processedCommands st)).1 = true
    /\ (ListenIteration cfg clk buffer ep st).2
       = {| _processedCommands :=
              (RegisterCommandId cfg (atInsert clk) (atPrune clk) command
                 (_processedCommands st)).2;
            _pendingCommands :=
              _pendingCommands st ++ [{| Message := command; RemoteEndPoint := Some ep |}] |}.
Proof.
  intros Hd.
  destruct (passedChecks_decided cfg clk buffer) as [(command & Hpass) | Hnone].
  - exists command. split; [exact Hpass|].
    rewrite (ListenIteration_passed _ _ _ _ _ _ Hpass) in *. cbv zeta in *.
    destruct (RegisterCommandId _ _ _ _ _) as [[|] processed]; simpl in *;
      [split; reflexivity | discriminate].
  - exfalso. revert Hd. unfold ListenIteration.
    destruct buffer as [[|b bytes]|]; simpl; try discriminate.
    destruct (ParseMessage _) as [command|] eqn:Hparse; [|discriminate].
    destruct (IsAuthorized cfg command) eqn:Hauth; simpl; [|discriminate].
    destruct (IsStale _ _ _) as [[|]|] eqn:Hfresh; try discriminate.
    exfalso. apply (Hnone command). exists (b :: bytes). repeat split; auto; discriminate.
Qed.

Lemma passedChecks_wellFormed cfg clk buffer (command : UdpCommandMessage) ep :
  Spec.passedChecks cfg clk buffer command ->
  wellFormed cfg {| Message := command; RemoteEndPoint := Some ep |}.
Proof.
  intros (bytes & _ & _ & Hparse & Hauth & _). repeat split; simpl; eauto.
  unfold ParseMessage in Hparse.
  destruct (IsNullOrWhiteSpace _); [discriminate|].
  destruct (FromJson_UdpCommandMessage _) as [[c|]|]; try discriminate.
  destruct (IsNullOrEmpty (action c)) eqn:Hact; [discriminate|].
  injection Hparse as <-. exact Hact.
Qed.

(** X4. Over any run of datagrams the queue only grows at its end, by one
    command for each datagram reported as enqueued and by nothing for the
    others.  The commands added are, in order, the envelopes of the
    datagrams reported as enqueued, each parsed from its datagram, past the
    checks, and queued with the endpoint that datagram came from; and the
    queue holds only commands with a non-empty action that [IsAuthorized]
    accepts. *)
Theorem ListenLoop_queue_holds_checked_commands cfg
    (arrivals : list (Clock * option (list Z) * IPEndPoint)) st :
  Forall (wellFormed cfg) (_pendingCommands st) ->
  exists added,
    _pendingCommands (ListenLoop cfg arrivals st).2 = _pendingCommands st ++ added
    /\ length added
       = length (List.filter (fun d => if d is Enqueued then true else false)
                             (ListenLoop cfg arrivals st).1)
    /\ Forall2 (fun pending arrival =>
                  RemoteEndPoint pending = Some arrival.2
                  /\ Spec.passedChecks cfg arrival.1.1 arrival.1.2 (Message pending))
               added (enqueuedArrivals (ListenLoop cfg arrivals st).1 arrivals)
    /\ Forall (wellFormed cfg) (_pendingCommands (ListenLoop cfg arrivals st).2).
Proof.
  revert st. induction arrivals as [|[[clk buffer] ep] rest IH]; intros st Hwf.
  - exists []. simpl. rewrite app_nil_r. repeat split; auto.
  - simpl.
    destruct (ListenIteration cfg clk buffer ep st) as [d st1] eqn:Hstep.
    assert (Hq := ListenIteration_queue cfg clk buffer ep st).
    rewrite Hstep in Hq. simpl in Hq.
    assert (Hwf1 : Forall (wellFormed cfg) (_pendingCommands st1)).
    { destruct Hq as [-> | (command & Hpass & _ & ->)]; [exact Hwf|].
      apply Forall_app. split; [exact Hwf|]. constructor; [|constructor].
      eapply passedChecks_wellFormed; eauto. }
    destruct (IH st1 Hwf1) as (added & Hadded & Hlen & Hfrom & Hall).
    destruct (ListenLoop cfg rest st1) as [ds st2]. simpl in *.
    unfold enqueuedArrivals in *. cbn [combine List.filter fst].
    destruct Hq as [Hsame | (command & Hpass & Hd & Hone)].
    + assert (Hnot : d <> Enqueued).
      { intros ->.
        assert (Hd : (ListenIteration cfg clk buffer ep st).1 = Enqueued)
          by (rewrite Hstep; reflexivity).
        destruct (ListenIteration_enqueued cfg clk buffer ep st Hd) as (c & _ & _ & Hst).
        rewrite Hstep in Hst. simpl in Hst. rewrite Hst in Hsame. simpl in Hsame.
        apply (f_equal length) in Hsame. rewrite length_app in Hsame. simpl in Hsame. lia. }
      rewrite Hsame in Hadded.
      exists added. split; [exact Hadded|].
      destruct d; try contradiction; simpl; auto.
    + simpl in Hd. subst d.
      rewrite Hone, <- app_assoc in Hadded.
      exists ({| Message := command; RemoteEndPoint := Some ep |} :: added).
      split; [exact Hadded|]. split; [simpl; rewrite Hlen; reflexivity|].
      split; [|exact Hall]. simpl. constructor; [|exact Hfrom]. simpl. auto.
Qed.

End SignatureCoverage.

Section Replays.
Import Text Crypto Listener Lifecycle.
Context `{rt : Runtime}.

Implicit Types (cfg : Settings) (st : ListenerState) (clk : Clock).







End Replays.

Section MainThread.
Import Text Crypto Listener Lifecycle.
Context `{cm : CaseMap}.

Lemma acknowledgements_app (t1 t2 : list Effect) :
  acknowledgements (t1 ++ t2) = acknowledgements t1 ++ acknowledgements t2.
Proof.
  induction t1 as [|e t1 IH]; [reflexivity|]. destruct e; simpl; rewrite IH; reflexivity.
Qed.

Lemma acknowledgements_invocations (m : UdpCommandMessage) (subscribers : list Callback) :
  acknowledgements (map (fun h => Invoke h m) subscribers) = [].
Proof. induction subscribers; simpl; auto. Qed.

Lemma DispatchCommand_acknowledgements (d : Dispatcher) (now : Z) (pending : PendingCommand)
    (ep : IPEndPoint) :
  IsNullOrEmpty (action (Message pending)) = false ->
  RemoteEndPoint pending = Some ep ->
  sendAcknowledgement (settings d) = true ->
  _ackClient d = true ->
  acknowledgements (DispatchCommand d now pending)
  = [(ep, {| ack_cmdId := cmdId (Message pending); ack_status := lit "received";
             receivedTimestamp := now |})].
Proof.
  intros Hact Hep Hack Hclient. unfold DispatchCommand.
  destruct (action (Message pending)) as [name|]; [|discriminate].
  rewrite Hep, Hack. unfold SendAcknowledgement. rewrite Hclient.
  rewrite !acknowledgements_app, !acknowledgements_invocations. simpl.
  destruct (TryGetValue (_bindingLookup d) name) as [b|]; simpl; [|reflexivity].
  unfold Binding_Invoke. rewrite acknowledgements_invocations. reflexivity.
Qed.

(** Without the acknowledgement switch or without the socket, a dispatch
    acknowledges nothing. *)
Lemma DispatchCommand_silent (d : Dispatcher) (now : Z) (pending : PendingCommand) :
  sendAcknowledgement (settings d) = false \/ _ackClient d = false ->
  acknowledgements (DispatchCommand d now pending) = [].
Proof.
  intros Hoff. unfold DispatchCommand.
  destruct (action (Message pending)) as [name|].
  - rewrite !acknowledgements_app, !acknowledgements_invocations. simpl.
    assert (Hspecific : acknowledgements
                          match TryGetValue (_bindingLookup d) name with
                          | Some binding => Binding_Invoke binding (Message pending)
                          | None => [NoHandlerWarning (Some name)]
                          end = []).
    { destruct (TryGetValue (_bindingLookup d) name); [|reflexivity].
      apply acknowledgements_invocations. }
    rewrite Hspecific. simpl.
    destruct (sendAcknowledgement (settings d)) eqn:Hack; [|reflexivity].
    destruct (RemoteEndPoint pending); [|reflexivity].
    unfold SendAcknowledgement. destruct Hoff as [Hoff|Hoff]; [discriminate|].
    rewrite Hoff. reflexivity.
  - rewrite !acknowledgements_app, !acknowledgements_invocations. reflexivity.
Qed.

(** A queue of commands that carry an action is dispatched to its end. *)
Lemma dispatchFrom_runs (d : Dispatcher) (clock : nat -> Z) cfg
    (queue : list PendingCommand) :
  forall i,
  Forall (wellFormed cfg) queue ->
  (dispatchFrom d clock i queue).2 = []
  /\ ~ In NullKeyException (dispatchFrom d clock i queue).1.
Proof.
  induction queue as [|p rest IH]; intros i Hwf; [simpl; auto|].
  inversion Hwf as [|? ? (Hact & _ & _) Hrest]; subst.
  cbn [dispatchFrom].
  destruct (action (Message p)) as [name|] eqn:Hname; [|discriminate].
  destruct (IH (S i) Hrest) as (Hleft & Hnever).
  destruct (dispatchFrom d clock (S i) rest) as [more behind]. simpl in *.
  split; [exact Hleft|].
  intros [Hin|Hin]%in_app_or; [|auto].
  unfold DispatchCommand in Hin. rewrite Hname in Hin.
  repeat (apply in_app_or in Hin as [Hin|Hin]);
    try (apply in_map_iff in Hin as (h & Heq & _); discriminate).
  + destruct (TryGetValue (_bindingLookup d) name).
    * unfold Binding_Invoke in Hin.
      apply in_map_iff in Hin as (h & Heq & _). discriminate.
    * destruct Hin as [Heq|[]]. discriminate.
  + destruct (sendAcknowledgement (settings d)), (RemoteEndPoint p); simpl in Hin;
      try contradiction.
    unfold SendAcknowledgement in Hin. destruct (_ackClient d); simpl in Hin;
      [destruct Hin as [Heq|[]]; discriminate | contradiction].
Qed.

Lemma dispatchFrom_acknowledgements (d : Dispatcher) (clock : nat -> Z) cfg
    (queue : list PendingCommand) :
  forall i,
  Forall (wellFormed cfg) queue ->
  sendAcknowledgement (settings d) = true ->
  _ackClient d = true ->
  map (fun a => (Some a.1, ack_cmdId a.2, ack_status a.2))
      (acknowledgements (dispatchFrom d clock i queue).1)
  = map (fun p => (RemoteEndPoint p, cmdId (Message p), lit "received")) queue.
Proof.
  induction queue as [|p rest IH]; intros i Hwf Hack Hclient; [simpl; auto|].
  inversion Hwf as [|? ? (Hact & _ & [ep Hep]) Hrest]; subst.
  cbn [dispatchFrom].
  destruct (action (Message p)) as [name|] eqn:Hname; [|discriminate].
  pose proof (IH (S i) Hrest Hack Hclient) as Hacks.
  destruct (dispatchFrom d clock (S i) rest) as [more behind]. simpl in *.
  rewrite acknowledgements_app, map_app, Hacks.
  rewrite (DispatchCommand_acknowledgements d (clock i) p ep); auto;
    [|rewrite Hname; exact Hact].
  simpl. rewrite Hep. reflexivity.
Qed.

Lemma dispatchFrom_silent (d : Dispatcher) (clock : nat -> Z)
    (queue : list PendingCommand) :
  forall i,
  sendAcknowledgement (settings d) = false \/ _ackClient d = false ->
  acknowledgements (dispatchFrom d clock i queue).1 = [].
Proof.
  induction queue as [|p rest IH]; intros i Hoff; [reflexivity|].
  cbn [dispatchFrom].
  pose proof (DispatchCommand_silent d (clock i) p Hoff) as Hone.
  destruct (action (Message p)); [|exact Hone].
  specialize (IH (S i) Hoff).
  destruct (dispatchFrom d clock (S i) rest) as [more behind]. simpl in *.
  rewrite acknowledgements_app, Hone, IH. reflexivity.
Qed.

(** X7. [Update] dispatches a queue of commands that carry an action, as
    [ListenLoop] fills it, to the end without the dictionary throwing, and
    leaves the queue empty and the cache of ids as it was, whatever the
    acknowledgement settings.  With acknowledgements enabled and the socket
    there it answers every queued command exactly once, in the order of
    arrival, to the endpoint the command came from, echoing its cmdId with
    the status [received], whether or not a handler is bound to its action;
    with acknowledgements disabled or no socket it answers none. *)
Theorem Update_acknowledges_every_command (d : Dispatcher) (clock : nat -> Z) cfg
    (st : ListenerState) :
  Forall (wellFormed cfg) (_pendingCommands st) ->
  (~ In NullKeyException (Update d clock st).1
   /\ _pendingCommands (Update d clock st).2 = []
   /\ _processedCommands (Update d clock st).2 = _processedCommands st)
  /\ (sendAcknowledgement (settings d) = true -> _ackClient d = true ->
      map (fun a => (Some a.1, ack_cmdId a.2, ack_status a.2))
          (acknowledgements (Update d clock st).1)
      = map (fun p => (RemoteEndPoint p, cmdId (Message p), lit "received"))
            (_pendingCommands st))
  /\ (sendAcknowledgement (settings d) = false \/ _ackClient d = false ->
      acknowledgements (Update d clock st).1 = []).
Proof.
  intros Hwf. unfold Update.
  destruct (dispatchFrom_runs d clock cfg (_pendingCommands st) 0%nat Hwf)
    as (Hleft & Hnever).
  pose proof (dispatchFrom_acknowledgements d clock cfg (_pendingCommands st) 0%nat Hwf)
    as Hacks.
  pose proof (dispatchFrom_silent d clock (_pendingCommands st) 0%nat) as Hsilent.
  destruct (dispatchFrom d clock 0 (_pendingCommands st)) as [effects behind].
  simpl in *. auto.
Qed.

Context `{rt : Runtime}.

(** X8. From the socket to the handler: a datagram that [ListenLoop]
    enqueues into an empty queue is dispatched by the next [Update] once.
    Each subscriber runs as often as it is registered, generically or in
    the binding found for the envelope's action, and the lookup ignores letter case. *)
Theorem enqueued_datagram_is_dispatched_once (d : Dispatcher) (clock : nat -> Z)
    cfg clk buffer (ep : IPEndPoint) (st : ListenerState) :
  _pendingCommands st = [] ->
  (ListenIteration cfg clk buffer ep st).1 = Enqueued ->
  exists command name,
    Spec.passedChecks cfg clk buffer command
    /\ action command = Some name
    /\ (Update d clock (ListenIteration cfg clk buffer ep st).2).1
       = DispatchCommand d (clock 0%nat) {| Message := command; RemoteEndPoint := Some ep |}
    /\ forall h,
         Spec.invocations h (Update d clock (ListenIteration cfg clk buffer ep st).2).1
         = (Spec.registrations h (onCommandReceived d)
            + Spec.registrations h (CommandReceived d)
            + Spec.registrations h
                (Spec.subscribersOf (TryGetValue (_bindingLookup d) name)))%nat.
Proof.
  intros Hempty Hd.
  destruct (ListenIteration_enqueued cfg clk buffer ep st Hd) as (command & Hpass & _ & Hst).
  pose proof (passedChecks_wellFormed cfg clk buffer command ep Hpass) as (Hact & _).
  simpl in Hact. destruct (action command) as [name|] eqn:Hname; [|discriminate].
  exists command, name. split; [exact Hpass|]. split; [exact Hname|].
  rewrite Hst, Hempty. unfold Update. simpl. rewrite Hname. simpl. rewrite app_nil_r.
  split; [reflexivity|]. intros h.
  apply DispatchCommand_invocations. exact Hname.
Qed.

End MainThread.

Section MoreListenerWitnesses.
Import Text Crypto Listener Lifecycle Samples MoreSamples.


Lemma ListenLoop_queue_holds_checked_commands_witness :
  Forall (wellFormed listenerSettings) (_pendingCommands idle)
  /\ (ListenLoop (H := sampleRuntime) listenerSettings
        [(clockAt 0, Some forgedJson, sender); (clockAt 0, Some signedJson, sender);
         (clockAt 1, Some signedJson, sender)] idle).1
     = [Unauthorized; Enqueued; Duplicate]
  /\ exists added,
       _pendingCommands
         (ListenLoop (H := sampleRuntime) listenerSettings
            [(clockAt 0, Some forgedJson, sender); (clockAt 0, Some signedJson, sender);
             (clockAt 1, Some signedJson, sender)] idle).2 = added
       /\ length added = 1%nat
       /\ Forall2 (fun pending arrival =>
                     RemoteEndPoint pending = Some arrival.2
                     /\ Spec.passedChecks (H := sampleRuntime) listenerSettings
                          arrival.1.1 arrival.1.2 (Message pending))
                  added [(clockAt 0, Some signedJson, sender)]
       /\ Forall (wellFormed listenerSettings) added.
Proof.
  assert (Hwf : Forall (wellFormed listenerSettings) (_pendingCommands idle))
    by constructor.
  split; [exact Hwf|]. split; [vm_compute; reflexivity|].
  destruct (ListenLoop_queue_holds_checked_commands (rt := sampleRuntime) listenerSettings
              [(clockAt 0, Some forgedJson, sender); (clockAt 0, Some signedJson, sender);
               (clockAt 1, Some signedJson, sender)] idle Hwf)
    as (added & Hadded & Hlen & Hfrom & Hall).
  exists added. split; [exact Hadded|]. split; [|split].
  - rewrite Hlen. vm_compute. reflexivity.
  - exact Hfrom.
  - change added with (_pendingCommands idle ++ added). rewrite <- Hadded. exact Hall.
Defined.



Lemma Update_acknowledges_every_command_witness :
  let queued :=
    {| _processedCommands := ∅;
       _pendingCommands :=
         [{| Message := signed; RemoteEndPoint := Some sender |};
          {| Message := withSignature heartbeat
                          (Some (Reporter.ComputeSignature reporterConfig heartbeat));
             RemoteEndPoint := Some sender |}] |} in
  Forall (wellFormed listenerSettings) (_pendingCommands queued)
  /\ sendAcknowledgement (settings beepDispatcher) = true
  /\ _ackClient beepDispatcher = true
  /\ _pendingCommands
       (Update (H := AsciiCaseMap) beepDispatcher (fun _ => 1700000000500) queued).2 = []
  /\ map (fun a => (Some a.1, ack_cmdId a.2, ack_status a.2))
         (acknowledgements
            (Update (H := AsciiCaseMap) beepDispatcher (fun _ => 1700000000500) queued).1)
     = [(Some sender, Some beepId, lit "received"); (Some sender, None, lit "received")].
Proof.
  intros queued.
  assert (Hwf : Forall (wellFormed listenerSettings) (_pendingCommands queued)).
  { repeat constructor; simpl; try (vm_compute; reflexivity); eauto. }
  destruct (Update_acknowledges_every_command (cm := AsciiCaseMap) beepDispatcher
              (fun _ => 1700000000500) listenerSettings queued Hwf)
    as ((_ & Hempty & _) & Hacks & _).
  split; [exact Hwf | split; [reflexivity | split; [reflexivity |]]].
  split; [exact Hempty | exact (Hacks eq_refl eq_refl)].
Defined.

Lemma enqueued_datagram_is_dispatched_once_witness :
  _pendingCommands idle = []
  /\ (ListenIteration (H := sampleRuntime) listenerSettings (clockAt 0)
        (Some signedJson) sender idle).1 = Enqueued
  /\ Spec.invocations 1%nat
       (Update (H := AsciiCaseMap) beepDispatcher (fun _ => 1700000000500)
          (ListenIteration (H := sampleRuntime) listenerSettings (clockAt 0)
             (Some signedJson) sender idle).2).1 = 1%nat.
Proof.
  assert (Hd : (ListenIteration (H := sampleRuntime) listenerSettings (clockAt 0)
                  (Some signedJson) sender idle).1 = Enqueued) by (vm_compute; reflexivity).
  split; [reflexivity | split; [exact Hd |]].
  destruct (enqueued_datagram_is_dispatched_once (cm := AsciiCaseMap) (rt := sampleRuntime)
              beepDispatcher (fun _ => 1700000000500) listenerSettings (clockAt 0)
              (Some signedJson) sender idle eq_refl Hd)
    as (command & name & Hpass & Hname & _ & Hcount).
  rewrite Hcount.
  assert (command = signed).
  { destruct Hpass as (b & [= <-] & _ & Hparse & _).
    assert (Hp : ParseMessage (H := sampleRuntime)
                   (@UTF8_GetString sampleRuntime signedJson) = Some signed)
      by (vm_compute; reflexivity).
    congruence. }
  subst command. injection Hname as <-. vm_compute. reflexivity.
Defined.

End MoreListenerWitnesses.

(* ===================================================================== *)
(** * The reporter: sending, resolving, discovery *)
(* ===================================================================== *)

Section Sending.
Import Text Crypto Listener.
Context `{cm : CaseMap} `{net : Reporter.Network}.

Implicit Types (cfg : Reporter.Config) (env : Reporter.Env) (st : Reporter.State).

Lemma EnsureHostReady_ready st :
  (Reporter.EnsureHostReady st).1 = Reporter.IsHostResolved st.
Proof.
  unfold Reporter.EnsureHostReady. destruct (Reporter.IsHostResolved st); [reflexivity|].
  destruct (Reporter.hasLoggedMissingHost st); reflexivity.
Qed.

Lemma EnsureHostReady_host st :
  Reporter.hostAddress (Reporter.EnsureHostReady st).2 = Reporter.hostAddress st
  /\ Reporter.hostPort (Reporter.EnsureHostReady st).2 = Reporter.hostPort st
  /\ Reporter.cachedEndpoint (Reporter.EnsureHostReady st).2 = Reporter.cachedEndpoint st
  /\ Reporter.cachedHostAddress (Reporter.EnsureHostReady st).2
     = Reporter.cachedHostAddress st
  /\ Reporter.hasSentRegistration (Reporter.EnsureHostReady st).2
     = Reporter.hasSentRegistration st.
Proof.
  unfold Reporter.EnsureHostReady. destruct (Reporter.IsHostResolved st); [auto|].
  destruct (Reporter.hasLoggedMissingHost st); auto.
Qed.

Lemma resolveByName_port st ep :
  (Reporter.resolveByName st).1 = Some ep ->
  Port ep = Reporter.hostPort st
  /\ Reporter.isInterNetwork (Address ep) = true
  /\ (Reporter.resolveByName st).2
     = Reporter.setCache (Some ep) (Reporter.hostAddress st) st.
Proof.
  unfold Reporter.resolveByName.
  destruct (Reporter.Dns_GetHostAddresses _) as [addresses|]; [|discriminate].
  destruct (List.find Reporter.isInterNetwork addresses) as [address|] eqn:Hfind;
    [|discriminate].
  destruct (_ && _); [|discriminate]. intros [= <-]. simpl.
  apply List.find_some in Hfind. tauto.
Qed.

Lemma TryResolveEndpoint_port st ep :
  (Reporter.TryResolveEndpoint st).1 = Some ep ->
  Port ep = Reporter.hostPort st.
Proof.
  unfold Reporter.TryResolveEndpoint. destruct (negb _); [discriminate|].
  destruct (Reporter.cachedEndpoint st) as [cached|].
  - destruct (Equals_OrdinalIgnoreCase _ _ && (Port cached =? Reporter.hostPort st)) eqn:Hhit.
    + intros [= <-]. apply andb_prop in Hhit. lia.
    + intros H. apply (resolveByName_port st ep H).
  - intros H. apply (resolveByName_port st ep H).
Qed.

(** X15. [SendCommand] sends nothing and reports failure while the host is
    not resolved, and never more than one datagram.  The datagram goes to
    the host port, carries the action and the clock reading, a command id
    exactly when one was asked for, and a signature that a listener
    configured with the same secret accepts. *)
Theorem SendCommand_sends_one_accepted_datagram cfg env (action : option (list Z))
    (includeCmdId : bool) st (lcfg : Settings) :
  sharedSecret lcfg = Reporter.sharedSecret cfg ->
  (Reporter.IsHostResolved st = false ->
   (Reporter.SendCommand cfg env action includeCmdId st).1.1 = false
   /\ (Reporter.SendCommand cfg env action includeCmdId st).2 = [])
  /\ ((Reporter.SendCommand cfg env action includeCmdId st).1.1 = true ->
      (Reporter.SendCommand cfg env action includeCmdId st).2 <> [])
  /\ forall d,
       In d (Reporter.SendCommand cfg env action includeCmdId st).2 ->
       (Reporter.SendCommand cfg env action includeCmdId st).2 = [d]
       /\ Port (Reporter.target d) = Reporter.hostPort st
       /\ Listener.action (Reporter.sent d) = action
       /\ cmdId (Reporter.sent d)
          = (if includeCmdId then Some (Reporter.newCmdId env) else None)
       /\ timestamp (Reporter.sent d) = Reporter.utcNowMilliseconds env
       /\ IsAuthorized lcfg (Reporter.sent d) = true.
Proof.
  intros Hsecret. unfold Reporter.SendCommand.
  pose proof (EnsureHostReady_ready st) as Hready.
  pose proof (EnsureHostReady_host st) as (_ & Hport & _).
  destruct (Reporter.EnsureHostReady st) as [ready st1]. simpl in Hready, Hport.
  subst ready. destruct (Reporter.IsHostResolved st); simpl;
    [|split; [intros _; split; reflexivity | split; [discriminate | intros ? []]]].
  pose proof (TryResolveEndpoint_port st1) as Hep.
  destruct (Reporter.TryResolveEndpoint st1) as [[endpoint|] st2]; simpl in *;
    [|split; [intros _; split; reflexivity | split; [discriminate | intros ? []]]].
  specialize (Hep endpoint eq_refl). rewrite Hport in Hep.
  destruct (Reporter.payloadJson env) as [json|]; simpl;
    [|split; [intros _; split; reflexivity | split; [discriminate | intros ? []]]].
  split; [discriminate|]. split; [discriminate|].
  intros d [<-|[]]. simpl. split; [reflexivity|]. split; [exact Hep|].
  destruct (IsNullOrEmpty (Reporter.sharedSecret cfg)) eqn:Hempty; simpl.
  - repeat split. unfold IsAuthorized. rewrite Hsecret, Hempty. reflexivity.
  - repeat split.
    apply (IsAuthorized_iff lcfg cfg); [rewrite Hsecret; exact Hempty | auto |].
    simpl. rewrite ComputeSignature_withSignature. reflexivity.
Qed.

Lemma Equals_OrdinalIgnoreCase_refl (a : option (list Z)) :
  Equals_OrdinalIgnoreCase a a = true.
Proof.
  destruct a as [a|]; [|reflexivity]. simpl.
  unfold OrdinalIgnoreCase_eqb, str_eqb. apply bool_decide_eq_true_2. reflexivity.
Qed.

End Sending.

Section Resolving.
Import Text Crypto Listener.
Context `{cm : CaseMap}.

Lemma TryResolveEndpoint_state (net1 : Reporter.Network) (st : Reporter.State)
    (ep : IPEndPoint) :
  (Reporter.TryResolveEndpoint (H0 := net1) st).1 = Some ep ->
  Reporter.IsHostResolved st = true
  /\ Reporter.hostAddress (Reporter.TryResolveEndpoint (H0 := net1) st).2
     = Reporter.hostAddress st
  /\ Reporter.hostPort (Reporter.TryResolveEndpoint (H0 := net1) st).2
     = Reporter.hostPort st
  /\ Reporter.cachedEndpoint (Reporter.TryResolveEndpoint (H0 := net1) st).2 = Some ep
  /\ Equals_OrdinalIgnoreCase
       (Reporter.hostAddress (Reporter.TryResolveEndpoint (H0 := net1) st).2)
       (Reporter.cachedHostAddress (Reporter.TryResolveEndpoint (H0 := net1) st).2) = true.
Proof.
  unfold Reporter.TryResolveEndpoint.
  destruct (Reporter.IsHostResolved st); simpl; [|discriminate].
  destruct (Reporter.cachedEndpoint st) as [cached|] eqn:Hcache.
  - destruct (Equals_OrdinalIgnoreCase _ _ && (Port cached =? Reporter.hostPort st))
      eqn:Hcond.
    + intros [= <-]. simpl. apply andb_prop in Hcond as [Hsame _]. auto.
    + intros Hname.
      destruct (resolveByName_port (net := net1) st ep Hname) as (_ & _ & Hst).
      rewrite Hst. simpl. auto using Equals_OrdinalIgnoreCase_refl.
  - intros Hname.
    destruct (resolveByName_port (net := net1) st ep Hname) as (_ & _ & Hst).
    rewrite Hst. simpl. auto using Equals_OrdinalIgnoreCase_refl.
Qed.

(** X16. Once [TryResolveEndpoint] has produced an endpoint, calling it
    again gives the same endpoint from the cache without a change of state,
    whatever the resolver would answer then, even if it fails. *)
Theorem TryResolveEndpoint_reuses_cached_endpoint (net1 net2 : Reporter.Network)
    (st : Reporter.State) (ep : IPEndPoint) :
  (Reporter.TryResolveEndpoint (H0 := net1) st).1 = Some ep ->
  Reporter.TryResolveEndpoint (H0 := net2) (Reporter.TryResolveEndpoint (H0 := net1) st).2
  = (Some ep, (Reporter.TryResolveEndpoint (H0 := net1) st).2)
  /\ Reporter.cachedEndpoint (Reporter.TryResolveEndpoint (H0 := net1) st).2 = Some ep
  /\ Port ep = Reporter.hostPort st.
Proof.
  intros Hfirst.
  pose proof (TryResolveEndpoint_port (net := net1) st ep Hfirst) as Hport.
  destruct (TryResolveEndpoint_state net1 st ep Hfirst)
    as (Hresolved & Hhost & Hp & Hcache & Hsame).
  split; [|auto].
  generalize dependent (Reporter.TryResolveEndpoint (H0 := net1) st).2.
  intros st' Hhost Hp Hcache Hsame. unfold Reporter.TryResolveEndpoint.
  unfold Reporter.IsHostResolved in *. rewrite Hcache, Hsame, Hp, Hhost, Hresolved. simpl.
  rewrite (proj2 (Z.eqb_eq _ _) Hport). reflexivity.
Qed.

End Resolving.

Section Announcements.
Import Text Crypto Listener.
Context `{cm : CaseMap} `{net : Reporter.Network}.

Implicit Types (cfg : Reporter.Config) (env : Reporter.Env) (st : Reporter.State).

Lemma StartHeartbeat_keeps cfg st :
  Reporter.hostAddress (Reporter.StartHeartbeat cfg st) = Reporter.hostAddress st
  /\ Reporter.hostPort (Reporter.StartHeartbeat cfg st) = Reporter.hostPort st
  /\ Reporter.cachedEndpoint (Reporter.StartHeartbeat cfg st) = Reporter.cachedEndpoint st
  /\ Reporter.hasSentRegistration (Reporter.StartHeartbeat cfg st)
     = Reporter.hasSentRegistration st.
Proof. unfold Reporter.StartHeartbeat. destruct (_ || _); auto. Qed.

Lemma MaybeStartReporting_registered cfg env (force : bool) st :
  Reporter.hasSentRegistration st = true ->
  (Reporter.MaybeStartReporting cfg env force st).2 = []
  /\ Reporter.hostAddress (Reporter.MaybeStartReporting cfg env force st).1
     = Reporter.hostAddress st
  /\ Reporter.hostPort (Reporter.MaybeStartReporting cfg env force st).1
     = Reporter.hostPort st
  /\ Reporter.cachedEndpoint (Reporter.MaybeStartReporting cfg env force st).1
     = Reporter.cachedEndpoint st
  /\ Reporter.hasSentRegistration (Reporter.MaybeStartReporting cfg env force st).1 = true.
Proof.
  intros Hsent. unfold Reporter.MaybeStartReporting.
  destruct (Reporter.IsHostResolved st); simpl; [|auto].
  rewrite Hsent. simpl.
  destruct (StartHeartbeat_keeps cfg (Reporter.setLoggedMissingHost false st))
    as (-> & -> & -> & ->). simpl. auto.
Qed.

Lemma TryResolveEndpoint_host st :
  Reporter.hostAddress (Reporter.TryResolveEndpoint st).2 = Reporter.hostAddress st
  /\ Reporter.hostPort (Reporter.TryResolveEndpoint st).2 = Reporter.hostPort st.
Proof.
  unfold Reporter.TryResolveEndpoint, Reporter.resolveByName.
  destruct (negb _); [auto|].
  destruct (Reporter.cachedEndpoint st);
    [destruct (_ && _); [auto|]|];
    destruct (Reporter.Dns_GetHostAddresses _); auto;
    destruct (List.find _ _); auto; destruct (_ && _); auto.
Qed.

Lemma SendCommand_host cfg env (action : option (list Z)) (includeCmdId : bool) st :
  Reporter.hostAddress (Reporter.SendCommand cfg env action includeCmdId st).1.2
  = Reporter.hostAddress st
  /\ Reporter.hostPort (Reporter.SendCommand cfg env action includeCmdId st).1.2
     = Reporter.hostPort st.
Proof.
  unfold Reporter.SendCommand.
  pose proof (EnsureHostReady_host st) as (Hh1 & Hp1 & _).
  destruct (Reporter.EnsureHostReady st) as [ready st1]. simpl in Hh1, Hp1.
  destruct ready; simpl; [|auto].
  pose proof (TryResolveEndpoint_host st1) as (Hh2 & Hp2).
  destruct (Reporter.TryResolveEndpoint st1) as [[endpoint|] st2]; simpl in Hh2, Hp2;
    [|simpl; split; congruence].
  destruct (Reporter.payloadJson env); simpl; split; congruence.
Qed.

Lemma RegisterClient_host cfg env st :
  Reporter.hostAddress (Reporter.RegisterClient cfg env st).1 = Reporter.hostAddress st
  /\ Reporter.hostPort (Reporter.RegisterClient cfg env st).1 = Reporter.hostPort st.
Proof.
  unfold Reporter.RegisterClient.
  pose proof (EnsureHostReady_host st) as (Hh1 & Hp1 & _).
  destruct (Reporter.EnsureHostReady st) as [ready st1]. simpl in Hh1, Hp1.
  destruct ready; simpl; [|auto].
  pose proof (SendCommand_host cfg env (Reporter.registerAction cfg) true st1) as (Hh2 & Hp2).
  destruct (Reporter.SendCommand cfg env (Reporter.registerAction cfg) true st1)
    as [[ok st2] out]. simpl in Hh2, Hp2.
  destruct ok; simpl; split; congruence.
Qed.

Lemma MaybeStartReporting_host cfg env (force : bool) st :
  Reporter.hostAddress (Reporter.MaybeStartReporting cfg env force st).1
  = Reporter.hostAddress st
  /\ Reporter.hostPort (Reporter.MaybeStartReporting cfg env force st).1
     = Reporter.hostPort st.
Proof.
  unfold Reporter.MaybeStartReporting.
  destruct (Reporter.IsHostResolved st); [|auto].
  destruct (_ && _).
  - pose proof (RegisterClient_host cfg env (Reporter.setLoggedMissingHost false st))
      as (Hh & Hp).
    destruct (Reporter.RegisterClient cfg env (Reporter.setLoggedMissingHost false st))
      as [st2 out]. simpl in *.
    destruct (StartHeartbeat_keeps cfg st2) as (-> & -> & _). auto.
  - simpl. destruct (StartHeartbeat_keeps cfg (Reporter.setLoggedMissingHost false st))
      as (-> & -> & _). auto.
Qed.

(** X17. A reporter that has registered answers a command from the listener
    with no datagram, and keeps its cached endpoint and its registration,
    whenever the command leaves the host address, up to letter case, and
    the host port as they were: announcements repeated by the same host do
    not make it register again. *)
Theorem HandleCommandReceived_same_host_sends_nothing cfg env
    (message : option UdpCommandMessage) st :
  Reporter.hasSentRegistration st = true ->
  Equals_OrdinalIgnoreCase (Reporter.hostAddress st)
    (Reporter.hostAddress (Reporter.HandleCommandReceived cfg env message st).1) = true ->
  Reporter.hostPort (Reporter.HandleCommandReceived cfg env message st).1
  = Reporter.hostPort st ->
  (Reporter.HandleCommandReceived cfg env message st).2 = []
  /\ Reporter.cachedEndpoint (Reporter.HandleCommandReceived cfg env message st).1
     = Reporter.cachedEndpoint st
  /\ Reporter.hasSentRegistration (Reporter.HandleCommandReceived cfg env message st).1
     = true.
Proof.
  intros Hsent. unfold Reporter.HandleCommandReceived.
  destruct message as [m|]; [|auto].
  destruct (IsNullOrEmpty (action m)); [auto|].
  destruct (negb (Equals_OrdinalIgnoreCase (action m) _)); [auto|].
  match goal with
  | |- context [Reporter.ApplyHostAnnouncement ?p None st] => generalize p
  end.
  intros parsed. rewrite ApplyHostAnnouncement_unfold. cbv zeta.
  destruct (IsNullOrWhiteSpace (Spec.announcedAddress parsed None)); [auto|].
  match goal with
  | |- context [Reporter.MaybeStartReporting cfg env false ?s] => set (st1 := s)
  end.
  assert (Hhost1 : Reporter.hostAddress st1 = Spec.announcedAddress parsed None)
    by (subst st1; simpl; destruct (_ || _); reflexivity).
  assert (Hport1 : Reporter.hostPort st1 = Spec.announcedPort parsed st)
    by (subst st1; simpl; destruct (_ || _); reflexivity).
  assert (Hkeep : Equals_OrdinalIgnoreCase (Reporter.hostAddress st)
                    (Spec.announcedAddress parsed None) = true ->
                  Spec.announcedPort parsed st = Reporter.hostPort st ->
                  Reporter.hasSentRegistration st1 = true
                  /\ Reporter.cachedEndpoint st1 = Reporter.cachedEndpoint st).
  { intros Ha Hp. subst st1. rewrite Ha, Hp, Z.eqb_refl. simpl. auto. }
  clearbody st1.
  destruct (MaybeStartReporting_host cfg env false st1) as (Hh & Hp).
  simpl. rewrite Hh, Hp, Hhost1, Hport1. intros Ha Hpp.
  destruct (Hkeep Ha Hpp) as [Hsent1 Hcache].
  destruct (MaybeStartReporting_registered cfg env false st1 Hsent1)
    as (Hout & _ & _ & Hc & Hs).
  rewrite Hout, Hc, Hs, Hcache. auto.
Qed.

End Announcements.

Section Discovering.
Import Text Crypto Listener Discovery.
Context `{cm : CaseMap} `{rt : Runtime} `{net : Reporter.Network}.

Implicit Types (cfg : Reporter.Config) (env : Reporter.Env) (st : Reporter.State)
  (ds : DiscoverySettings) (outcome : nat -> Attempt).

Lemma ApplyHostAnnouncement_result payload remote st :
  ((Reporter.ApplyHostAnnouncement payload remote st).1 = false
   /\ (Reporter.ApplyHostAnnouncement payload remote st).2 = st)
  \/ ((Reporter.ApplyHostAnnouncement payload remote st).1 = true
      /\ Reporter.hostAddress (Reporter.ApplyHostAnnouncement payload remote st).2
         = Spec.announcedAddress payload remote
      /\ discovered st (Reporter.ApplyHostAnnouncement payload remote st).2).
Proof.
  rewrite ApplyHostAnnouncement_unfold. cbv zeta.
  destruct (IsNullOrWhiteSpace (Spec.announcedAddress payload remote)) eqn:Hblank;
    [left; auto|].
  right. unfold discovered. destruct (_ || _); simpl; auto 10.
Qed.

Lemma acceptReply_result cfg (buffer : list Z) (remote : IPEndPoint) st :
  ((acceptReply cfg buffer remote st).1 = false /\ (acceptReply cfg buffer remote st).2 = st)
  \/ ((acceptReply cfg buffer remote st).1 = true
      /\ discovered st (acceptReply cfg buffer remote st).2).
Proof.
  unfold acceptReply.
  destruct (FromJson_UdpCommandMessage _) as [[m|]|]; auto.
  destruct (negb _); auto.
  match goal with
  | |- context [Reporter.ApplyHostAnnouncement ?p ?r st] =>
    destruct (ApplyHostAnnouncement_result p r st) as [?|(? & _ & ?)]; auto
  end.
Qed.

Lemma attempts_result cfg (probe : Reporter.Datagram) (remaining : nat) outcome :
  forall (attempt : nat) st,
  (length (attempts cfg probe remaining attempt outcome st).2 <= remaining)%nat
  /\ Forall (eq probe) (attempts cfg probe remaining attempt outcome st).2
  /\ ((attempts cfg probe remaining attempt outcome st).1.1 = false ->
      (attempts cfg probe remaining attempt outcome st).1.2 = st)
  /\ ((attempts cfg probe remaining attempt outcome st).1.1 = true ->
      discovered st (attempts cfg probe remaining attempt outcome st).1.2
      /\ (attempts cfg probe remaining attempt outcome st).2 <> []).
Proof.
  induction remaining as [|remaining IH]; intros attempt st; cbn [attempts].
  - simpl. split; [lia|]. split; [constructor|]. split; [auto | discriminate].
  - assert (Hnext : forall (found : bool) st' out,
              attempts cfg probe remaining (S attempt) outcome st = (found, st', out) ->
              (length (probe :: out) <= S remaining)%nat
              /\ Forall (eq probe) (probe :: out)
              /\ (found = false -> st' = st)
              /\ (found = true -> discovered st st' /\ probe :: out <> [])).
    { intros found st' out Heq.
      destruct (IH (S attempt) st) as (Hlen & Hall & Hno & Hyes).
      rewrite Heq in *. simpl in *.
      split; [lia|]. split; [constructor; auto|]. split; [exact Hno|].
      intros Hfound. split; [apply Hyes; exact Hfound | discriminate]. }
    destruct (outcome attempt) as [| | |buffer remote].
    + destruct (IH (S attempt) st) as (Hlen & Hall & Hno & Hyes).
      split; [lia|]. split; [exact Hall|]. split; [exact Hno | exact Hyes].
    + destruct (attempts cfg probe remaining (S attempt) outcome st) as [[found st'] out]
        eqn:Heq.
      exact (Hnext found st' out eq_refl).
    + destruct (attempts cfg probe remaining (S attempt) outcome st) as [[found st'] out]
        eqn:Heq.
      exact (Hnext found st' out eq_refl).
    + destruct (acceptReply_result cfg buffer remote st) as [[Hno1 Hst1]|[Hyes1 Hd1]];
        destruct (acceptReply cfg buffer remote st) as [applied st1]; simpl in *; subst.
      * destruct (attempts cfg probe remaining (S attempt) outcome st)
          as [[found st'] out] eqn:Heq.
        exact (Hnext found st' out eq_refl).
      * simpl. split; [lia|]. split; [repeat constructor|].
        split; [discriminate|]. intros _. split; [exact Hd1 | discriminate].
Qed.

(** X18. [DiscoverHostAsync] broadcasts at most [maxDiscoveryAttempts]
    probes, all to 255.255.255.255 on the discovery port, each without a
    command id and without a signature, whether or not a secret is
    configured.  When it reports failure the reporter is as it was; when it
    reports success the host address is no longer blank and the discovery
    port equals the host port.  The call faults exactly when the request
    cannot be serialized or the discovery port is no port number. *)
Theorem DiscoverHostAsync_probes_and_result cfg ds env outcome st :
  match DiscoverHostAsync cfg ds env outcome st with
  | None =>
    Reporter.payloadJson env = None
    \/ Reporter.discoveryPort st < 0 \/ 65535 < Reporter.discoveryPort st
  | Some (found, st', out) =>
    (length out <= Z.to_nat (maxDiscoveryAttempts ds))%nat
    /\ Forall (fun d =>
                 Reporter.target d
                 = {| Address := IPv4 255 255 255 255; Port := Reporter.discoveryPort st |}
                 /\ action (Reporter.sent d) = discoveryAction ds
                 /\ cmdId (Reporter.sent d) = None
                 /\ signature (Reporter.sent d) = None) out
    /\ (found = false -> st' = st)
    /\ (found = true -> discovered st st' /\ out <> [])
  end.
Proof.
  unfold DiscoverHostAsync.
  destruct (Reporter.payloadJson env) as [json|]; [|auto].
  destruct (Z.ltb_spec (Reporter.discoveryPort st) 0); simpl; [auto|].
  destruct (Z.ltb_spec 65535 (Reporter.discoveryPort st)); simpl; [auto|].
  match goal with
  | |- context [attempts cfg ?p ?n 0%nat outcome st] =>
    destruct (attempts_result cfg p n outcome 0%nat st) as (Hlen & Hall & Hno & Hyes);
    destruct (attempts cfg p n 0%nat outcome st) as [[found st'] out]
  end.
  simpl in *. split; [exact Hlen|]. split; [|split; [exact Hno | exact Hyes]].
  eapply Forall_impl; [exact Hall|]. intros d <-. simpl. auto.
Qed.

(** X19. Discovery takes the first datagram that parses as an envelope with
    the announcement action and announces an address, from whoever sent it:
    neither its signature nor its timestamp nor its sender is looked at,
    even when a shared secret is configured.  The reporter then adopts the
    announced address, and the announced port when it is positive. *)
Theorem DiscoverHostAsync_trusts_first_announcement cfg ds env outcome st
    (buffer : list Z) (remote : IPEndPoint) (m : UdpCommandMessage)
    (text json address : list Z) (p : Announcement.t) :
  Reporter.payloadJson env = Some json ->
  0 <= Reporter.discoveryPort st <= 65535 ->
  0 < maxDiscoveryAttempts ds ->
  outcome 0%nat = Received buffer remote ->
  FromJson_UdpCommandMessage (UTF8_GetString buffer) = Parsed (Some m) ->
  Equals_OrdinalIgnoreCase (action m) (Reporter.hostAnnouncementAction cfg) = true ->
  payload m = Some text -> text <> [] ->
  Reporter.FromJson_HostAnnouncementPayload text = Parsed (Some p) ->
  Announcement.hostAddress p = Some address ->
  IsNullOrWhiteSpace (Some address) = false ->
  exists st' probe,
    DiscoverHostAsync cfg ds env outcome st = Some (true, st', [probe])
    /\ Reporter.hostAddress st' = Some address
    /\ Reporter.hostPort st'
       = (if Announcement.hostPort p >? 0 then Announcement.hostPort p
          else Reporter.hostPort st)
    /\ Reporter.discoveryPort st' = Reporter.hostPort st'.
Proof.
  intros Hjson Hport Hmax Hfirst Hparse Hkind Hpayload Htext Hannounce Haddress Hblank.
  unfold DiscoverHostAsync. rewrite Hjson.
  destruct (Z.ltb_spec (Reporter.discoveryPort st) 0); [lia|].
  destruct (Z.ltb_spec 65535 (Reporter.discoveryPort st)); [lia|]. simpl.
  destruct (Z.to_nat (maxDiscoveryAttempts ds)) as [|remaining] eqn:Hn; [lia|].
  cbn [attempts]. rewrite Hfirst. unfold acceptReply.
  rewrite Hparse, Hkind, Hpayload. destruct text as [|c text]; [congruence|].
  cbn [negb IsNullOrEmpty coalesce]. rewrite Hannounce.
  unfold Reporter.ApplyHostAnnouncement. rewrite Haddress, Hblank.
  cbn [negb]. rewrite Hblank.
  eexists _, _. split; [reflexivity|]. simpl.
  destruct (_ || _); simpl; auto.
Qed.

End Discovering.

Section MoreReporterWitnesses.
Import Text Crypto Listener Discovery Samples MoreSamples.

Lemma SendCommand_sends_one_accepted_datagram_witness :
  sharedSecret listenerSettings = Reporter.sharedSecret reporterConfig
  /\ exists d,
       (Reporter.SendCommand (H := AsciiCaseMap) (H0 := sampleNetwork) reporterConfig
          sampleEnv (Some (lit "Heartbeat")) false registered).2 = [d]
       /\ Port (Reporter.target d) = 4949
       /\ cmdId (Reporter.sent d) = None
       /\ IsAuthorized listenerSettings (Reporter.sent d) = true.
Proof.
  split; [reflexivity|].
  pose proof (proj2 (proj2 (SendCommand_sends_one_accepted_datagram (cm := AsciiCaseMap)
                              (net := sampleNetwork) reporterConfig sampleEnv
                              (Some (lit "Heartbeat")) false registered listenerSettings
                              eq_refl))) as Hall.
  destruct (Reporter.SendCommand (H := AsciiCaseMap) (H0 := sampleNetwork) reporterConfig
              sampleEnv (Some (lit "Heartbeat")) false registered).2 as [|d rest] eqn:Hout;
    [vm_compute in Hout; discriminate|].
  destruct (Hall d (or_introl eq_refl)) as (Hone & Hport & _ & Hid & _ & Hauth).
  exists d. auto.
Defined.

Lemma TryResolveEndpoint_reuses_cached_endpoint_witness :
  (Reporter.TryResolveEndpoint (H := AsciiCaseMap) (H0 := sampleNetwork) configured).1
  = Some Spec.scenarioHost
  /\ (Reporter.TryResolveEndpoint (H := AsciiCaseMap) (H0 := offlineNetwork) configured).1
     = None
  /\ (Reporter.TryResolveEndpoint (H := AsciiCaseMap) (H0 := offlineNetwork)
        (Reporter.TryResolveEndpoint (H := AsciiCaseMap) (H0 := sampleNetwork)
           configured).2).1
     = Some Spec.scenarioHost.
Proof.
  assert (Hfirst : (Reporter.TryResolveEndpoint (H := AsciiCaseMap) (H0 := sampleNetwork)
                      configured).1 = Some Spec.scenarioHost) by (vm_compute; reflexivity).
  split; [exact Hfirst | split; [vm_compute; reflexivity |]].
  rewrite (proj1 (TryResolveEndpoint_reuses_cached_endpoint (cm := AsciiCaseMap)
                    sampleNetwork offlineNetwork configured Spec.scenarioHost Hfirst)).
  reflexivity.
Defined.

Lemma HandleCommandReceived_same_host_sends_nothing_witness :
  Reporter.hasSentRegistration registered = true
  /\ Reporter.hostAddress
       (Reporter.HandleCommandReceived (H := AsciiCaseMap) (H0 := announcingNetwork)
          reporterConfig sampleEnv (Some (unsignedAnnouncement lowerCasePayload))
          registered).1 = Some (lit "host-pc")
  /\ (Reporter.HandleCommandReceived (H := AsciiCaseMap) (H0 := announcingNetwork)
        reporterConfig sampleEnv (Some (unsignedAnnouncement lowerCasePayload))
        registered).2 = [].
Proof.
  assert (Hsent : Reporter.hasSentRegistration registered = true) by reflexivity.
  assert (Hhost : Reporter.hostAddress
            (Reporter.HandleCommandReceived (H := AsciiCaseMap) (H0 := announcingNetwork)
               reporterConfig sampleEnv (Some (unsignedAnnouncement lowerCasePayload))
               registered).1 = Some (lit "host-pc")) by (vm_compute; reflexivity).
  split; [exact Hsent | split; [exact Hhost |]].
  apply (HandleCommandReceived_same_host_sends_nothing (cm := AsciiCaseMap)
           (net := announcingNetwork) reporterConfig sampleEnv
           (Some (unsignedAnnouncement lowerCasePayload)) registered Hsent).
  - rewrite Hhost. vm_compute. reflexivity.
  - vm_compute. reflexivity.
Defined.

Lemma DiscoverHostAsync_probes_and_result_witness :
  exists found st' out,
    DiscoverHostAsync (H := AsciiCaseMap) (H0 := discoveryRuntime) (H1 := announcingNetwork)
      reporterConfig discoverySettings sampleEnv silence probing = Some (found, st', out)
    /\ (length out <= 3)%nat
    /\ (found = false -> st' = probing).
Proof.
  pose proof (DiscoverHostAsync_probes_and_result (cm := AsciiCaseMap)
                (rt := discoveryRuntime) (net := announcingNetwork)
                reporterConfig discoverySettings sampleEnv silence probing) as Hresult.
  destruct (DiscoverHostAsync (H := AsciiCaseMap) (H0 := discoveryRuntime)
              (H1 := announcingNetwork) reporterConfig discoverySettings sampleEnv silence
              probing) as [[[found st'] out]|] eqn:Hrun;
    [|vm_compute in Hrun; discriminate].
  destruct Hresult as (Hlen & _ & Hno & _).
  exists found, st', out. split; [reflexivity|]. split; [exact Hlen | exact Hno].
Defined.

Lemma DiscoverHostAsync_trusts_first_announcement_witness :
  IsAuthorized listenerSettings (unsignedAnnouncement scenarioPayload) = false
  /\ Reporter.IsHostResolved (H := AsciiCaseMap) probing = false
  /\ exists st' probe,
       DiscoverHostAsync (H := AsciiCaseMap) (H0 := discoveryRuntime)
         (H1 := announcingNetwork) reporterConfig discoverySettings sampleEnv
         strangerAnswers probing = Some (true, st', [probe])
       /\ Reporter.hostAddress st' = Some (lit "10.0.0.5")
       /\ Reporter.IsHostResolved (H := AsciiCaseMap) st' = true.
Proof.
  split; [vm_compute; reflexivity|]. split; [vm_compute; reflexivity|].
  assert (Hpayload : scenarioPayload <> []) by (vm_compute; discriminate).
  assert (Hparse : Reporter.FromJson_HostAnnouncementPayload (Network := announcingNetwork)
                     scenarioPayload = Parsed (Some scenarioAnnouncement))
    by (vm_compute; reflexivity).
  assert (Hreply : FromJson_UdpCommandMessage (Runtime := discoveryRuntime)
                     (@UTF8_GetString discoveryRuntime replyJson)
                   = Parsed (Some (unsignedAnnouncement scenarioPayload)))
    by (vm_compute; reflexivity).
  assert (Hkind : Equals_OrdinalIgnoreCase (H := AsciiCaseMap)
                    (action (unsignedAnnouncement scenarioPayload))
                    (Reporter.hostAnnouncementAction reporterConfig) = true)
    by (vm_compute; reflexivity).
  assert (Hport : 0 <= Reporter.discoveryPort probing <= 65535) by (simpl; lia).
  assert (Hmax : 0 < maxDiscoveryAttempts discoverySettings) by (simpl; lia).
  destruct (DiscoverHostAsync_trusts_first_announcement (cm := AsciiCaseMap)
              (rt := discoveryRuntime) (net := announcingNetwork)
              reporterConfig discoverySettings sampleEnv strangerAnswers probing
              replyJson stranger (unsignedAnnouncement scenarioPayload)
              scenarioPayload (lit "{}") (lit "10.0.0.5") scenarioAnnouncement
              eq_refl Hport Hmax eq_refl Hreply Hkind eq_refl Hpayload Hparse eq_refl eq_refl)
    as (st' & probe & Hrun & Hhost & _).
  exists st', probe. split; [exact Hrun|]. split; [exact Hhost|].
  apply IsHostResolved_scenario. exact Hhost.
Defined.

End MoreReporterWitnesses.
